(** * Data_Analysis_Agent: the analysis workflow, its validator, executor,
      output nodes and cache, embedded in Rocq.

    Sources embedded here:
    - [pipeline/state.py]           the workflow state and its initial value;
    - [pipeline/graph.py]           routing functions and the node graph;
    - [pipeline/nodes/code.py]      [generate_code], [validate_code],
                                    [execute_code];
    - [pipeline/nodes/planning.py]  [analyze_intent], [plan_analysis];
    - [pipeline/nodes/explain.py]   [explain_result], [return_chat],
                                    [handle_error];
    - [pipeline/nodes/ingest.py]    [ingest_query], [retrieve_context];
    - [pipeline/nodes/timeseries.py] [parse_files], [align_timeseries],
                                    [trend_analysis];
    - [backend/app/core/cache.py]   analysis cache keys and the rate limiter;
    - [backend/app/core/middleware.py] the rate limiting middleware;
    - [backend/app/services/chat_service.py] [_parse_intent],
                                    [_sanitize_json_data].

    Conventions.  A Python text is a [string] (its UTF-8 bytes).  A node
    returns a partial state, modelled as a list of assignments that the
    orchestrator merges into the running state; the two keys declared with
    the [operator.add] reducer are appended to, every other key is
    overwritten.  A Python call that can raise returns an [outcome].  The
    language model (with [get_llm], which raises when no provider is
    configured), Python's [compile] and [exec], the clock, [hashlib.md5]
    and the Redis server are outside the repository: they appear as
    arguments of the functions that call them. *)

From Stdlib Require Import ZArith QArith List Bool Ascii String Lia Permutation Sorted.
From stdpp Require Import base option list gmap strings pretty.

Import ListNotations.
Local Open Scope string_scope.
Local Open Scope list_scope.
Local Open Scope Z_scope.

(** ** Python values and text *)

Module Py.

(** Exceptions, by class, each with its [str(e)].  A constructor stands
    for its class and the classes derived from it ([SyntaxError] also
    for [IndentationError] and [TabError]).  The first five are the
    ones the embedded code raises by itself; the others reach it from
    the interpreter or from the code it executes.  [OtherException] is
    any other class derived from [Exception]; the last four are the
    classes derived from [BaseException] only. *)
Inductive exn :=
| IndexError (msg : string)
| TypeError (msg : string)
| AttributeError (msg : string)
| ValueError (msg : string)
| KeyError (msg : string)
| SyntaxError (msg : string)
| RecursionError (msg : string)
| MemoryError (msg : string)
| UnicodeEncodeError (msg : string)
| OtherException (class_name msg : string)
| SystemExit (msg : string)
| KeyboardInterrupt (msg : string)
| GeneratorExit (msg : string)
| OtherBaseException (class_name msg : string).

(** [isinstance(e, Exception)]: what [except Exception] catches. *)
Definition is_Exception (e : exn) : bool :=
  match e with
  | SystemExit _ | KeyboardInterrupt _ | GeneratorExit _
  | OtherBaseException _ _ => false
  | _ => true
  end.

(** [str(e)]. *)
Definition exn_str (e : exn) : string :=
  match e with
  | IndexError msg | TypeError msg | AttributeError msg | ValueError msg
  | KeyError msg | SyntaxError msg | RecursionError msg | MemoryError msg
  | UnicodeEncodeError msg | OtherException _ msg
  | SystemExit msg | KeyboardInterrupt msg | GeneratorExit msg
  | OtherBaseException _ msg => msg
  end.

Inductive outcome (A : Type) :=
| Ok (a : A)
| Raise (e : exn).
Arguments Ok {A} a.
Arguments Raise {A} e.

Definition returns {A} (o : outcome A) : bool :=
  match o with Ok _ => true | Raise _ => false end.

Definition nl : string := String (ascii_of_nat 10) EmptyString.

(** [str.lower()] on the ASCII letters; the other bytes are kept. *)
Definition lower_ascii (c : ascii) : ascii :=
  let n := nat_of_ascii c in
  if ((65 <=? n)%nat && (n <=? 90)%nat)%bool then ascii_of_nat (n + 32) else c.

Fixpoint lower (s : string) : string :=
  match s with
  | EmptyString => EmptyString
  | String c s' => String (lower_ascii c) (lower s')
  end.

(** [s.startswith(p)]. *)
Fixpoint starts_with (p s : string) : bool :=
  match p, s with
  | EmptyString, _ => true
  | String a p', String b s' => Ascii.eqb a b && starts_with p' s'
  | String _ _, EmptyString => false
  end.

(** [sub in s] on texts: [sub] occurs in [s] as a contiguous run. *)
Fixpoint contains (sub s : string) : bool :=
  match s with
  | EmptyString => starts_with sub EmptyString
  | String _ s' => starts_with sub s || contains sub s'
  end.

(** [sep.join(parts)]. *)
Fixpoint join (sep : string) (parts : list string) : string :=
  match parts with
  | [] => EmptyString
  | [p] => p
  | p :: rest => p +:+ sep +:+ join sep rest
  end.

(** Truth value of a text and of an optional text ([None] is false). *)
Definition truthy_str (s : string) : bool :=
  match s with EmptyString => false | _ => true end.

Definition truthy_opt_str (o : option string) : bool :=
  match o with Some s => truthy_str s | None => false end.

(** [str(n)] for an integer. *)
Definition str_of_Z (z : Z) : string := pretty z.
Definition str_of_nat (n : nat) : string := pretty n.

(** Values that generated code can bind to [result], by what
    [execute_code] can observe of them.  [NpArray] carries what
    [tolist()] returns, [DataFrame] its column labels and what
    [to_dict(orient="records")] returns.  [ToDictObject] is any other
    object that has an attribute [to_dict] (a pandas [Series], an
    object of a class that the generated code defines), by what
    [to_dict(orient="records")], [columns.tolist()] and [list(shape)]
    give on it, each a value or an exception.  [PyObject] is any other
    object, identified by its [str()]. *)
#[local] Set Warnings "-register-all".
Inductive pyval :=
| PyNone
| PyBool (b : bool)
| PyInt (z : Z)
| PyFloat (q : Q)
| PyStr (s : string)
| PyList (l : list pyval)
| PyTuple (l : list pyval)
| PyDict (kvs : list (string * pyval))
| NpInt (z : Z)
| NpFloat (q : Q)
| NpArray (tolist : list pyval)
| DataFrame (columns : list string) (records : list (list (string * pyval)))
| ToDictObject (to_dict columns_tolist shape_list : outcome pyval)
| PyObject (str : string).

Definition is_none (v : pyval) : bool :=
  match v with PyNone => true | _ => false end.

(** [bool(v)]: arrays of several elements and data frames have no truth
    value; an object of an unknown class is true. *)
Fixpoint py_truthy (v : pyval) : outcome bool :=
  match v with
  | PyNone => Ok false
  | PyBool b => Ok b
  | PyInt z | NpInt z => Ok (negb (z =? 0))
  | PyFloat q | NpFloat q => Ok (negb (Qeq_bool q 0))
  | PyStr s => Ok (truthy_str s)
  | PyList l | PyTuple l => Ok (match l with [] => false | _ => true end)
  | PyDict kvs => Ok (match kvs with [] => false | _ => true end)
  | NpArray [] => Ok false
  | NpArray [x] => py_truthy x
  | NpArray _ => Raise (ValueError "The truth value of an array with more than one element is ambiguous")
  | DataFrame _ _ => Raise (ValueError "The truth value of a DataFrame is ambiguous")
  | ToDictObject _ _ _ | PyObject _ => Ok true
  end.

(** [len(v)]; a text is measured in bytes, its length when it is ASCII. *)
Definition py_len (v : pyval) : outcome nat :=
  match v with
  | PyStr s => Ok (String.length s)
  | PyList l | PyTuple l | NpArray l => Ok (length l)
  | PyDict kvs => Ok (length kvs)
  | DataFrame _ recs => Ok (length recs)
  | _ => Raise (TypeError "object has no len()")
  end.

End Py.

Import Py.

(** ** The workflow state ([pipeline/state.py]) *)

(** A file descriptor is a dictionary; the embedded code reads its
    [filename] only ([None]: the key is absent). *)
Record FileDict := { filename : option string }.

(** A plan that is a dictionary is opaque to the workflow except for
    one flag: the truth value of its key [time_alignment_needed]
    ([False] when absent). *)
Record Plan := { time_alignment_needed : bool }.

(** What the key [plan] holds when it is not [None]: a dictionary or,
    since [plan_analysis] stores what [json.loads] returns unchecked, a
    value of another type ([list], [str], [int], [float], [bool]), of
    which the workflow sees no more than the name of the type. *)
Inductive plan_value :=
| PlanDict (p : Plan)
| NotADict (type_name : string).

(** [execution_result]: a dictionary whose keys other than [success] may
    be absent. *)
Record ExecutionResult := {
  success : bool;
  error : option string;
  traceback : option string;
  execution_time_ms : option Q }.

(** [result_data]: the serialisable envelope of the computed value. *)
Record ResultData := {
  rd_type : string;
  rd_data : pyval;
  rd_columns : option pyval;
  rd_shape : option pyval }.

Record GraphState := {
  session_id : string;
  user_query : string;
  available_files : option (list FileDict);
  intent : option string;
  operation_type : option string;
  plan : option plan_value;
  files_to_use : list string;
  generated_code : option string;
  code_valid : bool;
  validation_errors : list string;
  execution_result : option ExecutionResult;
  result_data : option ResultData;
  explanation : option string;
  recommendations : list string;
  final_response : option string;
  current_node : string;
  node_history : list string;
  errors : list string;
  retry_count : Z }.

Definition create_initial_state (sid query : string) (files : list FileDict)
  : GraphState :=
  {| session_id := sid;
     user_query := query;
     available_files := Some files;
     intent := None;
     operation_type := None;
     plan := None;
     files_to_use := [];
     generated_code := None;
     code_valid := false;
     validation_errors := [];
     execution_result := None;
     result_data := None;
     explanation := None;
     recommendations := [];
     final_response := None;
     current_node := "start";
     node_history := [];
     errors := [];
     retry_count := 0 |}.

(** One key of the dictionary a node returns.  [AppendErrors] and
    [AppendNodeHistory] are the two keys with the [operator.add] reducer. *)
Inductive assign :=
| SetIntent (v : string)
| SetOperationType (v : string)
| SetFilesToUse (v : list string)
| SetGeneratedCode (v : option string)
| SetCodeValid (v : bool)
| SetValidationErrors (v : list string)
| SetExecutionResult (v : ExecutionResult)
| SetResultData (v : ResultData)
| SetExplanation (v : string)
| SetRecommendations (v : list string)
| SetFinalResponse (v : option string)
| SetCurrentNode (v : string)
| SetRetryCount (v : Z)
| SetPlan (v : option plan_value)
| AppendNodeHistory (v : list string)
| AppendErrors (v : list string).

Definition update := list assign.

Definition apply_assign (st : GraphState) (a : assign) : GraphState :=
  let 'Build_GraphState sid q af i ot pl ftu gc cv ve er rd ex rec fr cn nh es rc := st in
  match a with
  | SetIntent v => Build_GraphState sid q af (Some v) ot pl ftu gc cv ve er rd ex rec fr cn nh es rc
  | SetOperationType v => Build_GraphState sid q af i (Some v) pl ftu gc cv ve er rd ex rec fr cn nh es rc
  | SetFilesToUse v => Build_GraphState sid q af i ot pl v gc cv ve er rd ex rec fr cn nh es rc
  | SetGeneratedCode v => Build_GraphState sid q af i ot pl ftu v cv ve er rd ex rec fr cn nh es rc
  | SetCodeValid v => Build_GraphState sid q af i ot pl ftu gc v ve er rd ex rec fr cn nh es rc
  | SetValidationErrors v => Build_GraphState sid q af i ot pl ftu gc cv v er rd ex rec fr cn nh es rc
  | SetExecutionResult v => Build_GraphState sid q af i ot pl ftu gc cv ve (Some v) rd ex rec fr cn nh es rc
  | SetResultData v => Build_GraphState sid q af i ot pl ftu gc cv ve er (Some v) ex rec fr cn nh es rc
  | SetExplanation v => Build_GraphState sid q af i ot pl ftu gc cv ve er rd (Some v) rec fr cn nh es rc
  | SetRecommendations v => Build_GraphState sid q af i ot pl ftu gc cv ve er rd ex v fr cn nh es rc
  | SetFinalResponse v => Build_GraphState sid q af i ot pl ftu gc cv ve er rd ex rec v cn nh es rc
  | SetCurrentNode v => Build_GraphState sid q af i ot pl ftu gc cv ve er rd ex rec fr v nh es rc
  | SetRetryCount v => Build_GraphState sid q af i ot pl ftu gc cv ve er rd ex rec fr cn nh es v
  | SetPlan v => Build_GraphState sid q af i ot v ftu gc cv ve er rd ex rec fr cn nh es rc
  | AppendNodeHistory v => Build_GraphState sid q af i ot pl ftu gc cv ve er rd ex rec fr cn (nh ++ v) es rc
  | AppendErrors v => Build_GraphState sid q af i ot pl ftu gc cv ve er rd ex rec fr cn nh (es ++ v) rc
  end.

(** The orchestrator's merge of a node's return value into the state. *)
Definition merge (st : GraphState) (u : update) : GraphState :=
  fold_left apply_assign u st.

(** The state in which a run starts.  The application is compiled
    with a [MemorySaver] checkpointer and invoked with the session id
    as thread id, so the input of a run, [create_initial_state], is
    written over the state that the previous run of the session left:
    every key takes the value of the input, except the two keys with
    the [operator.add] reducer, which keep what they held
    ([prior_history], [prior_errors]: empty for the first run of a
    session), the empty lists of the input being appended to them. *)
Definition start_state (prior_history prior_errors : list string)
    (sid query : string) (files : list FileDict) : GraphState :=
  merge {| session_id := sid;
           user_query := query;
           available_files := Some files;
           intent := None;
           operation_type := None;
           plan := None;
           files_to_use := [];
           generated_code := None;
           code_valid := false;
           validation_errors := [];
           execution_result := None;
           result_data := None;
           explanation := None;
           recommendations := [];
           final_response := None;
           current_node := "start";
           node_history := prior_history;
           errors := prior_errors;
           retry_count := 0 |}
        [ AppendNodeHistory (node_history (create_initial_state sid query files));
          AppendErrors (errors (create_initial_state sid query files)) ].

Inductive starts : GraphState -> Prop :=
| starts_at prior_history prior_errors sid query files :
    starts (start_state prior_history prior_errors sid query files).

(** Reading a key back out of a returned dictionary (the last binding of
    a key wins, [None]: the key is absent). *)
Definition get_execution_result (u : update) : option ExecutionResult :=
  fold_left (fun acc a => match a with SetExecutionResult v => Some v | _ => acc end) u None.

Definition get_code_valid (u : update) : option bool :=
  fold_left (fun acc a => match a with SetCodeValid v => Some v | _ => acc end) u None.

Definition get_validation_errors (u : update) : option (list string) :=
  fold_left (fun acc a => match a with SetValidationErrors v => Some v | _ => acc end) u None.

Definition get_result_data (u : update) : option ResultData :=
  fold_left (fun acc a => match a with SetResultData v => Some v | _ => acc end) u None.

Definition get_final_response (u : update) : option (option string) :=
  fold_left (fun acc a => match a with SetFinalResponse v => Some v | _ => acc end) u None.

Definition get_explanation (u : update) : option string :=
  fold_left (fun acc a => match a with SetExplanation v => Some v | _ => acc end) u None.

Definition get_intent (u : update) : option string :=
  fold_left (fun acc a => match a with SetIntent v => Some v | _ => acc end) u None.

Definition get_operation_type (u : update) : option string :=
  fold_left (fun acc a => match a with SetOperationType v => Some v | _ => acc end) u None.

Definition get_files_to_use (u : update) : option (list string) :=
  fold_left (fun acc a => match a with SetFilesToUse v => Some v | _ => acc end) u None.

Definition get_errors (u : update) : list string :=
  flat_map (fun a => match a with AppendErrors v => v | _ => [] end) u.

Definition writes_retry_count (u : update) : bool :=
  existsb (fun a => match a with SetRetryCount _ => true | _ => false end) u.

(** ** Code validation and execution ([pipeline/nodes/code.py]) *)

Module Code.

Definition FORBIDDEN_PATTERNS : list string :=
  [ "import os";
    "import sys";
    "import subprocess";
    "import shutil";
    "__import__";
    "eval(";
    "exec(";
    "os.system";
    "os.popen";
    "subprocess.";
    "shutil.";
    ".to_csv(";
    ".to_excel(";
    "rm -rf";
    "DROP TABLE";
    "DELETE FROM";
    "TRUNCATE " ].

(** The loop over [FORBIDDEN_PATTERNS]: one error per pattern found, in
    the order of the list. *)
Definition forbidden_errors (code : string) : list string :=
  flat_map
    (fun pattern =>
       if contains (lower pattern) (lower code)
       then ["Forbidden pattern detected: " +:+ pattern]
       else [])
    FORBIDDEN_PATTERNS.

(** [compile(code, "<string>", "exec")] is the interpreter's:
    [py_compile code] is [None] when the text compiles and [Some e] when
    the call raises [e].  The handler catches [SyntaxError] only: any
    other exception ([ValueError] for a null byte, [RecursionError],
    [MemoryError], [UnicodeEncodeError]) leaves the node. *)
Definition syntax_errors (py_compile : string -> option exn) (code : string)
  : outcome (list string) :=
  match py_compile code with
  | None => Ok []
  | Some (SyntaxError msg) => Ok ["Syntax error: " +:+ msg]
  | Some e => Raise e
  end.

Definition result_errors (code : string) : list string :=
  if negb (contains "result" code)
  then ["Code must define a 'result' variable"]
  else [].

Definition add_pandas_import (code : string) : string :=
  if negb (contains "import pandas" code) && contains "pd." code
  then "import pandas as pd" +:+ nl +:+ code
  else code.

(** The errors of a non-empty text, in the order of the three checks,
    or the exception that the compile check lets through. *)
Definition collect_errors (py_compile : string -> option exn) (code : string)
  : outcome (list string) :=
  match syntax_errors py_compile code with
  | Ok syntax => Ok (forbidden_errors code ++ syntax ++ result_errors code)
  | Raise e => Raise e
  end.

Definition validate_code (py_compile : string -> option exn) (st : GraphState)
  : outcome update :=
  let code := generated_code st in
  if negb (truthy_opt_str code) then
    Ok [ SetCodeValid false;
         SetValidationErrors ["No code generated"];
         SetCurrentNode "validate_code";
         AppendNodeHistory ["validate_code"] ]
  else
    let code := default EmptyString code in
    match collect_errors py_compile code with
    | Raise e => Raise e
    | Ok errors =>
        let code := add_pandas_import code in
        match errors with
        | _ :: _ =>
            Ok [ SetCodeValid false;
                 SetValidationErrors errors;
                 SetCurrentNode "validate_code";
                 AppendNodeHistory ["validate_code"] ]
        | [] =>
            Ok [ SetCodeValid true;
                 SetValidationErrors [];
                 SetGeneratedCode (Some code);
                 SetCurrentNode "validate_code";
                 AppendNodeHistory ["validate_code"] ]
        end
    end.

(** What [exec(code, namespace)] does is the interpreter's: it either
    completes, leaving the namespace [ns], or raises an exception [e],
    of any class. *)
Inductive exec_outcome :=
| Completed (ns : gmap string pyval)
| Raised (e : exn).

(** The four library handles bound before the code runs. *)
Definition initial_namespace : gmap string pyval :=
  <["pd" := PyObject "pandas"]>
    (<["pandas" := PyObject "pandas"]>
       (<["np" := PyObject "numpy"]>
          (<["numpy" := PyObject "numpy"]> ∅))).

Fixpoint convert_to_serializable (obj : pyval) : pyval :=
  match obj with
  | NpInt z => PyInt z
  | NpFloat q => PyFloat q
  | NpArray l => PyList l
  | PyDict kvs => PyDict (map (fun '(k, v) => (k, convert_to_serializable v)) kvs)
  | PyList l => PyList (map convert_to_serializable l)
  | _ => obj
  end.

(** [isinstance(val, (int, float, str, bool))]. *)
Definition is_primitive (v : pyval) : bool :=
  match v with
  | PyInt _ | PyFloat _ | PyStr _ | PyBool _ => true
  | _ => false
  end.

(** The envelope built from a [result] that is not [None], or the
    exception raised while it is built; [py_str] is Python's [str()].
    The first branch is taken by every value with an attribute
    [to_dict]; the three entries of its dictionary are evaluated in
    this order. *)
Definition envelope (py_str : pyval -> outcome string) (result : pyval)
  : outcome ResultData :=
  match result with
  | DataFrame cols recs =>
      Ok {| rd_type := "dataframe";
            rd_data := convert_to_serializable (PyList (map PyDict recs));
            rd_columns := Some (PyList (map PyStr cols));
            rd_shape := Some (PyList [ PyInt (Z.of_nat (length recs));
                                       PyInt (Z.of_nat (length cols)) ]) |}
  | ToDictObject to_dict columns_tolist shape_list =>
      match to_dict with
      | Raise e => Raise e
      | Ok records =>
          match columns_tolist with
          | Raise e => Raise e
          | Ok columns =>
              match shape_list with
              | Raise e => Raise e
              | Ok shape =>
                  Ok {| rd_type := "dataframe";
                        rd_data := convert_to_serializable records;
                        rd_columns := Some columns;
                        rd_shape := Some shape |}
              end
          end
      end
  | PyDict _ =>
      Ok {| rd_type := "dict";
            rd_data := convert_to_serializable result;
            rd_columns := None;
            rd_shape := None |}
  | PyList l | PyTuple l =>
      Ok {| rd_type := "list";
            rd_data := convert_to_serializable (PyList l);
            rd_columns := None;
            rd_shape := None |}
  | _ =>
      let val := convert_to_serializable result in
      if is_primitive val then
        Ok {| rd_type := "value"; rd_data := val;
              rd_columns := None; rd_shape := None |}
      else
        match py_str val with
        | Raise e => Raise e
        | Ok text =>
            Ok {| rd_type := "value"; rd_data := PyStr text;
                  rd_columns := None; rd_shape := None |}
        end
  end.

(** [(time.time() - start_time) * 1000] from the two clock readings, in
    exact arithmetic. *)
Definition elapsed_ms (start_time end_time : Q) : Q :=
  ((end_time - start_time) * 1000)%Q.

(** The handler of the [try] block, [except Exception as e]: an
    exception of another class is not caught and leaves the node.
    [format_exc] is [traceback.format_exc()]. *)
Definition handle_exception (format_exc : exn -> string)
    (start_time end_time : Q) (e : exn) : outcome update :=
  if is_Exception e then
    let execution_time := elapsed_ms start_time end_time in
    let error_trace := format_exc e in
    Ok [ SetExecutionResult
           {| success := false;
              error := Some (exn_str e);
              traceback := Some error_trace;
              execution_time_ms := Some execution_time |};
         AppendErrors ["Execution error: " +:+ exn_str e];
         SetCurrentNode "execute_code";
         AppendNodeHistory ["execute_code"] ]
  else Raise e.

(** [execute_code]; [start_time] is the reading of the clock before
    [exec], [end_time] the reading from which the time is measured.
    The envelope is built inside the [try] block. *)
Definition execute_code
    (py_exec : string -> gmap string pyval -> exec_outcome)
    (py_str : pyval -> outcome string) (format_exc : exn -> string)
    (start_time end_time : Q)
    (st : GraphState) : outcome update :=
  let code := generated_code st in
  if negb (truthy_opt_str code) || negb (code_valid st) then
    Ok [ SetExecutionResult
           {| success := false;
              error := Some "No valid code to execute";
              traceback := None;
              execution_time_ms := None |};
         SetCurrentNode "execute_code";
         AppendNodeHistory ["execute_code"] ]
  else
    let code := default EmptyString code in
    match py_exec code initial_namespace with
    | Completed namespace =>
        let execution_time := elapsed_ms start_time end_time in
        let result := default PyNone (namespace !! "result") in
        if is_none result then
          Ok [ SetExecutionResult
                 {| success := false;
                    error := Some "No result variable defined";
                    traceback := None;
                    execution_time_ms := Some execution_time |};
               SetCurrentNode "execute_code";
               AppendNodeHistory ["execute_code"] ]
        else
          match envelope py_str result with
          | Ok result_data =>
              Ok [ SetExecutionResult
                     {| success := true;
                        error := None;
                        traceback := None;
                        execution_time_ms := Some execution_time |};
                   SetResultData result_data;
                   SetCurrentNode "execute_code";
                   AppendNodeHistory ["execute_code"] ]
          | Raise e => handle_exception format_exc start_time end_time e
          end
    | Raised e => handle_exception format_exc start_time end_time e
    end.

(** The model's reply to [generate_code], after the fenced block has
    been cut out of it and stripped, or the exception of the call.
    [LlmUnavailable e]: the [try] block is not reached, because
    [get_llm], which is called before it, raised [e] (a [ValueError]
    when no provider is configured). *)
Inductive generation :=
| Generated (code : string)
| GenerationFailed (msg : string)
| LlmUnavailable (e : exn).

Definition generate_code (reply : generation) (st : GraphState) : outcome update :=
  match reply with
  | Generated code =>
      Ok [ SetGeneratedCode (Some code);
           SetCurrentNode "generate_code";
           AppendNodeHistory ["generate_code"] ]
  | GenerationFailed msg =>
      Ok [ SetGeneratedCode None;
           AppendErrors ["Code generation error: " +:+ msg];
           SetCurrentNode "generate_code";
           AppendNodeHistory ["generate_code"] ]
  | LlmUnavailable e => Raise e
  end.

End Code.

(** ** Intent analysis ([pipeline/nodes/planning.py]) *)

Module Planning.

(** What the [try] block of [analyze_intent] yields: the JSON object
    parsed from the model's reply, any of whose keys may be absent, or
    an exception [e] with [str(e) = msg] (the call failed or the reply
    did not parse).  [BeforeTry e]: the block is not reached, because
    the code before it raised [e]: [get_llm] (a [ValueError] when no
    provider is configured) or the formatting of the list of files (a
    [TypeError] when the [columns] of a file are [None] or hold labels
    that are not texts). *)
Inductive intent_reply :=
| Parsed (intent_key operation_type_key : option string)
         (files_needed_key : option (list string))
| Failed (msg : string)
| BeforeTry (e : exn).

Definition analyze_intent (reply : intent_reply) (st : GraphState)
  : outcome update :=
  match reply with
  | Parsed i o f =>
      Ok [ SetIntent (default "query" i);
           SetOperationType (default "single_table" o);
           SetFilesToUse (default [] f);
           SetCurrentNode "analyze_intent";
           AppendNodeHistory ["analyze_intent"] ]
  | Failed msg =>
      (* state.get("available_files", [{}])[0].get("filename", "") *)
      match default [ {| filename := None |} ] (available_files st) with
      | [] => Raise (IndexError "list index out of range")
      | f0 :: _ =>
          let first_file := default EmptyString (filename f0) in
          Ok [ SetIntent "query";
               SetOperationType "single_table";
               SetFilesToUse (if truthy_str first_file then [first_file] else []);
               AppendErrors ["Intent analysis error: " +:+ msg];
               SetCurrentNode "analyze_intent";
               AppendNodeHistory ["analyze_intent"] ]
      end
  | BeforeTry e => Raise e
  end.

End Planning.

(** ** Output nodes ([pipeline/nodes/explain.py]) *)

Module Explain.

(** The two non-ASCII literals, byte for byte as the source file has
    them. *)
Definition CHART : string := "ðŸ“Š".
Definition BULLET : string := "â€¢".

Definition issues_header : string :=
  "I encountered some issues while processing your request:" +:+ nl.

Definition rows_summary (n : nat) : string :=
  nl +:+ nl +:+ CHART +:+ " *Result: " +:+ str_of_nat n +:+ " rows returned*".

(** [final_response += summary]: adding a text to [None] is a
    [TypeError]. *)
Definition add_summary (final_response : option string) (summary : string)
  : outcome (option string) :=
  match final_response with
  | Some s => Ok (Some (s +:+ summary))
  | None => Raise (TypeError "unsupported operand type(s) for +=: 'NoneType' and 'str'")
  end.

Definition return_chat (st : GraphState) : outcome update :=
  let explanation := explanation st in
  let result_data := result_data st in
  let errors := errors st in
  let final_response :=
    if (match errors with [] => false | _ => true end)
       && negb (truthy_opt_str explanation)
    then Some (issues_header +:+ join nl (map (fun e => "- " +:+ e) errors))
    else explanation in
  let finish (final_response : option string) : outcome update :=
    Ok [ SetFinalResponse final_response;
         SetCurrentNode "return_chat";
         AppendNodeHistory ["return_chat"] ] in
  match result_data with
  | Some rd =>
      if String.eqb (rd_type rd) "dataframe" then
        let data := rd_data rd in
        match py_truthy data with
        | Raise e => Raise e
        | Ok false => finish final_response
        | Ok true =>
            match py_len data with
            | Raise e => Raise e
            | Ok n =>
                match add_summary final_response (rows_summary n) with
                | Raise e => Raise e
                | Ok final_response => finish final_response
                end
            end
        end
      else finish final_response
  | None => finish final_response
  end.

Definition unable_header : string :=
  "I wasn't able to complete your analysis:" +:+ nl +:+ nl.

Definition rephrase_footer : string :=
  nl +:+ nl +:+
  "Please try rephrasing your question or check if the data contains the requested columns.".

Definition handle_error (st : GraphState) : update :=
  let errors := errors st in
  let validation_errors := validation_errors st in
  let all_errors := errors ++ validation_errors in
  let all_errors :=
    match all_errors with
    | [] => ["An unknown error occurred during analysis"]
    | _ => all_errors
    end in
  let error_message :=
    unable_header
    +:+ join nl (map (fun e => BULLET +:+ " " +:+ e) (firstn 3 all_errors))
    +:+ rephrase_footer in
  [ SetExplanation error_message;
    SetFinalResponse (Some error_message);
    SetRecommendations
      ["Try a simpler query first"; "Check available column names in your files"];
    SetCurrentNode "handle_error";
    AppendNodeHistory ["handle_error"] ].

End Explain.

(** ** The node graph ([pipeline/graph.py]) *)

Module Node.
Inductive t :=
| ingest_query | parse_files | retrieve_context
| analyze_intent | plan_analysis | align_timeseries
| generate_code | increment_retry | validate_code | execute_code
| trend_analysis | explain_result
| return_chat | handle_error.

Definition eqb (a b : t) : bool :=
  match a, b with
  | ingest_query, ingest_query | parse_files, parse_files
  | retrieve_context, retrieve_context | analyze_intent, analyze_intent
  | plan_analysis, plan_analysis | align_timeseries, align_timeseries
  | generate_code, generate_code | increment_retry, increment_retry
  | validate_code, validate_code | execute_code, execute_code
  | trend_analysis, trend_analysis | explain_result, explain_result
  | return_chat, return_chat | handle_error, handle_error => true
  | _, _ => false
  end.
End Node.

Module Graph.

(** *** Conditional edge functions *)

Definition should_align_timeseries (st : GraphState) : outcome string :=
  let operation_type := operation_type st in
  match operation_type with
  | Some ot =>
      if String.eqb ot "cross_table" || String.eqb ot "temporal" then
        match plan st with
        | None => Raise (AttributeError "'NoneType' object has no attribute 'get'")
        | Some (NotADict type_name) =>
            Raise (AttributeError
                     ("'" +:+ type_name +:+ "' object has no attribute 'get'"))
        | Some (PlanDict p) =>
            if time_alignment_needed p then Ok "align_timeseries"
            else Ok "generate_code"
        end
      else Ok "generate_code"
  | None => Ok "generate_code"
  end.

Definition check_code_validity (st : GraphState) : outcome string :=
  if code_valid st then Ok "execute_code"
  else
    let retry_count := retry_count st in
    if retry_count <? 2 then Ok "generate_code"
    else Ok "handle_error".

Definition check_execution_success (st : GraphState) : outcome string :=
  match execution_result st with
  | None => Raise (AttributeError "'NoneType' object has no attribute 'get'")
  | Some execution_result =>
      if success execution_result then Ok "explain_result"
      else Ok "handle_error"
  end.

Definition increment_retry (st : GraphState) : update :=
  [ SetRetryCount (retry_count st + 1);
    AppendNodeHistory ["increment_retry"] ].

(** *** [build_graph] *)

Inductive target := Goto (n : Node.t) | END.

(** What leaves a node: one unconditional edge, or a routing function
    with the table that sends its labels to nodes. *)
Inductive edges :=
| Edge (to : target)
| Conditional (route : GraphState -> outcome string)
              (table : list (string * Node.t)).

Definition entry_point : Node.t := Node.ingest_query.

Definition build_graph (n : Node.t) : edges :=
  match n with
  | Node.ingest_query => Edge (Goto Node.parse_files)
  | Node.parse_files => Edge (Goto Node.retrieve_context)
  | Node.retrieve_context => Edge (Goto Node.analyze_intent)
  | Node.analyze_intent => Edge (Goto Node.plan_analysis)
  | Node.plan_analysis =>
      Conditional should_align_timeseries
        [ ("align_timeseries", Node.align_timeseries);
          ("generate_code", Node.generate_code) ]
  | Node.align_timeseries => Edge (Goto Node.generate_code)
  | Node.generate_code => Edge (Goto Node.validate_code)
  | Node.validate_code =>
      Conditional check_code_validity
        [ ("execute_code", Node.execute_code);
          ("generate_code", Node.increment_retry);
          ("handle_error", Node.handle_error) ]
  | Node.increment_retry => Edge (Goto Node.generate_code)
  | Node.execute_code =>
      Conditional check_execution_success
        [ ("explain_result", Node.trend_analysis);
          ("handle_error", Node.handle_error) ]
  | Node.trend_analysis => Edge (Goto Node.explain_result)
  | Node.explain_result => Edge (Goto Node.return_chat)
  | Node.return_chat => Edge END
  | Node.handle_error => Edge (Goto Node.return_chat)
  end.

Fixpoint table_lookup (label : string) (table : list (string * Node.t))
  : option Node.t :=
  match table with
  | [] => None
  | (l, n) :: rest => if String.eqb l label then Some n else table_lookup label rest
  end.

(** Where the orchestrator goes after node [n] has run and its return
    value has been merged into [st]. *)
Definition next (n : Node.t) (st : GraphState) : outcome target :=
  match build_graph n with
  | Edge to => Ok to
  | Conditional route table =>
      match route st with
      | Raise e => Raise e
      | Ok label =>
          match table_lookup label table with
          | Some n' => Ok (Goto n')
          | None => Raise (KeyError label)
          end
      end
  end.

(** The nodes an edge of the graph can lead to, whatever the state. *)
Definition successors (n : Node.t) : list Node.t :=
  match build_graph n with
  | Edge (Goto n') => [n']
  | Edge END => []
  | Conditional _ table => map snd table
  end.

(** *** Runs *)

(** The return values a node can produce in state [st].  The nodes
    embedded above produce what their functions compute, for some
    behaviour of the interpreter, the clock and the language model.
    The remaining nodes call the language model or read files; none of
    them returns the key [retry_count], which is all that is recorded
    of them. *)
Definition node_returns (n : Node.t) (st : GraphState) (u : update) : Prop :=
  match n with
  | Node.increment_retry => u = increment_retry st
  | Node.generate_code => exists reply, Code.generate_code reply st = Ok u
  | Node.validate_code => exists py_compile, Code.validate_code py_compile st = Ok u
  | Node.execute_code =>
      exists py_exec py_str format_exc t0 t1,
        Code.execute_code py_exec py_str format_exc t0 t1 st = Ok u
  | Node.analyze_intent => exists reply, Planning.analyze_intent reply st = Ok u
  | Node.handle_error => u = Explain.handle_error st
  | Node.return_chat => Explain.return_chat st = Ok u
  | Node.ingest_query | Node.parse_files | Node.retrieve_context
  | Node.plan_analysis | Node.align_timeseries
  | Node.trend_analysis | Node.explain_result => writes_retry_count u = false
  end.

(** [run h n st]: the nodes of [h] have run, in this order, from the
    entry point and a state in which a run starts; node [n] is about to
    run in state [st]. *)
Inductive run : list Node.t -> Node.t -> GraphState -> Prop :=
| run_start prior_history prior_errors sid query files :
    run [] entry_point (start_state prior_history prior_errors sid query files)
| run_step h n st u n' :
    run h n st ->
    node_returns n st u ->
    next n (merge st u) = Ok (Goto n') ->
    run (h ++ [n]) n' (merge st u).

(** Number of times a node occurs in a history. *)
Definition visits (n : Node.t) (h : list Node.t) : nat :=
  length (List.filter (fun m => Node.eqb m n) h).

(** Reachability along the edges of the graph. *)
Inductive reachable : Node.t -> Node.t -> Prop :=
| reach_refl n : reachable n n
| reach_step n m k : In m (successors n) -> reachable m k -> reachable n k.

End Graph.

(** ** The cache service ([backend/app/core/cache.py]) *)

Module Redis.

(** The part of a Redis server the cache service talks to.  A key holds
    a value and, when a time to live was set, the time (in seconds) at
    which it expires; every command is served at a time [now]. *)
Inductive value := VInt (z : Z) | VStr (s : string).

Record entry := { held : value; expires_at : option Z }.

Inductive command :=
| GET (key : string)
| SETEX (key : string) (ttl : Z) (v : string)
| INCR (key : string)
| EXPIRE (key : string) (seconds : Z).

(** The keys, and the commands served so far (oldest first). *)
Record t := { store : gmap string entry; served : list command }.

Definition empty : t := {| store := ∅; served := [] |}.

Definition expired (now : Z) (e : entry) : bool :=
  match expires_at e with
  | Some t => t <=? now
  | None => false
  end.

(** The entry of a key that has not expired. *)
Definition live (now : Z) (r : t) (key : string) : option entry :=
  match store r !! key with
  | Some e => if expired now e then None else Some e
  | None => None
  end.

Definition get (now : Z) (r : t) (key : string) : option value * t :=
  (held <$> live now r key,
   {| store := store r; served := served r ++ [GET key] |}).

Definition setex (now : Z) (r : t) (key : string) (ttl : Z) (v : string) : t :=
  {| store := <[key := {| held := VStr v; expires_at := Some (now + ttl) |}]> (store r);
     served := served r ++ [SETEX key ttl v] |}.

(** [INCR]: a missing key counts from 0 and gets no time to live; the
    time to live of a live key is kept; a value that is not an integer
    is an error ([None]) and changes nothing. *)
Definition incr (now : Z) (r : t) (key : string) : option Z * t :=
  match live now r key with
  | None =>
      (Some 1,
       {| store := <[key := {| held := VInt 1; expires_at := None |}]> (store r);
          served := served r ++ [INCR key] |})
  | Some {| held := VInt n; expires_at := x |} =>
      (Some (n + 1),
       {| store := <[key := {| held := VInt (n + 1); expires_at := x |}]> (store r);
          served := served r ++ [INCR key] |})
  | Some {| held := VStr _ |} =>
      (None, {| store := store r; served := served r ++ [INCR key] |})
  end.

(** [EXPIRE]: sets the time to live of a live key; a time to live that
    is not positive deletes the key. *)
Definition expire (now : Z) (r : t) (key : string) (seconds : Z) : t :=
  {| store :=
       match live now r key with
       | Some e =>
           if seconds <=? 0 then delete key (store r)
           else <[key := {| held := held e; expires_at := Some (now + seconds) |}]> (store r)
       | None => store r
       end;
     served := served r ++ [EXPIRE key seconds] |}.

Definition is_expire (key : string) (c : command) : bool :=
  match c with
  | EXPIRE k _ => String.eqb k key
  | _ => false
  end.

End Redis.

Module Cache.

Definition ANALYSIS_RESULT_TTL : Z := 1800.

(** [CacheService._redis]: [None] while no connection was made. *)
Definition CacheService := option Redis.t.

Definition _analysis_key (session_id query_hash : string) : string :=
  "analysis:" +:+ session_id +:+ ":" +:+ query_hash.

(** [sorted(file_ids)] on integers: ascending order. *)
Fixpoint insert_sorted (x : Z) (l : list Z) : list Z :=
  match l with
  | [] => [x]
  | y :: l' => if x <=? y then x :: l else y :: insert_sorted x l'
  end.

Definition sorted (l : list Z) : list Z := fold_right insert_sorted [] l.

(** [str(l)] for a list of integers, as the f-string formats it. *)
Definition str_of_list (l : list Z) : string :=
  "[" +:+ join ", " (map str_of_Z l) +:+ "]".

(** [md5_hexdigest content] stands for
    [hashlib.md5(content.encode()).hexdigest()]. *)
Definition _hash_query (md5_hexdigest : string -> string)
    (query : string) (file_ids : list Z) : string :=
  let content := query +:+ ":" +:+ str_of_list (sorted file_ids) in
  String.substring 0 16 (md5_hexdigest content).

(** The key that [get_analysis_result] reads and that
    [set_analysis_result] writes: both compute it by these two calls. *)
Definition get_analysis_result_key (md5_hexdigest : string -> string)
    (session_id query : string) (file_ids : list Z) : string :=
  let query_hash := _hash_query md5_hexdigest query file_ids in
  _analysis_key session_id query_hash.

Definition set_analysis_result_key (md5_hexdigest : string -> string)
    (session_id query : string) (file_ids : list Z) : string :=
  let query_hash := _hash_query md5_hexdigest query file_ids in
  _analysis_key session_id query_hash.

(** [get_analysis_result]: the serialised value under the key, if any
    ([json.loads] of it is left to the caller of this model). *)
Definition get_analysis_result (md5_hexdigest : string -> string) (now : Z)
    (cs : CacheService) (session_id query : string) (file_ids : list Z)
  : option Redis.value * CacheService :=
  let key := get_analysis_result_key md5_hexdigest session_id query file_ids in
  match cs with
  | None => (None, None)
  | Some r => let '(v, r') := Redis.get now r key in (v, Some r')
  end.

(** [set_analysis_result], given the serialised result. *)
Definition set_analysis_result (md5_hexdigest : string -> string) (now : Z)
    (cs : CacheService) (session_id query : string) (file_ids : list Z)
    (serialized : string) : bool * CacheService :=
  let key := set_analysis_result_key md5_hexdigest session_id query file_ids in
  match cs with
  | None => (false, None)
  | Some r => (true, Some (Redis.setex now r key ANALYSIS_RESULT_TTL serialized))
  end.

Definition ratelimit_key (identifier : string) : string :=
  "ratelimit:" +:+ identifier.

(** [check_rate_limit], served at time [now]: the pair
    [(is_allowed, remaining)] and the service afterwards. *)
Definition check_rate_limit (now : Z) (cs : CacheService)
    (identifier : string) (limit window_seconds : Z)
  : (bool * Z) * CacheService :=
  match cs with
  | None => ((true, limit), None)
  | Some r =>
      let key := ratelimit_key identifier in
      match Redis.incr now r key with
      | (Some current, r1) =>
          let r2 :=
            if current =? 1 then Redis.expire now r1 key window_seconds else r1 in
          let remaining := Z.max 0 (limit - current) in
          let is_allowed := current <=? limit in
          ((is_allowed, remaining), Some r2)
      | (None, r1) => ((true, limit), Some r1)
      end
  end.

(** Calls for one identifier at the times of [times], in this order:
    the answers, and the service afterwards. *)
Fixpoint check_rate_limit_calls (times : list Z) (cs : CacheService)
    (identifier : string) (limit window_seconds : Z)
  : list (bool * Z) * CacheService :=
  match times with
  | [] => ([], cs)
  | now :: rest =>
      let '(answer, cs1) := check_rate_limit now cs identifier limit window_seconds in
      let '(answers, cs2) :=
        check_rate_limit_calls rest cs1 identifier limit window_seconds in
      (answer :: answers, cs2)
  end.

(** How many times the expiry of the counter of [identifier] has been
    set on the server. *)
Definition expiries_set (cs : CacheService) (identifier : string) : nat :=
  match cs with
  | None => 0%nat
  | Some r => length (List.filter (Redis.is_expire (ratelimit_key identifier)) (Redis.served r))
  end.

End Cache.

(** ** Vocabulary of the specification *)

Module Spec.

(** [pattern] appears in [code] up to the case of letters: some run of
    [code] has the lower-case form of [pattern]. *)
Definition occurs_ci (pattern code : string) : Prop :=
  exists pre mid post,
    code = pre +:+ mid +:+ post /\ lower mid = lower pattern.

(** [sub] appears in [code], letter for letter. *)
Definition occurs (sub code : string) : Prop :=
  exists pre post, code = pre +:+ sub +:+ post.

Definition is_ident_char (c : ascii) : bool :=
  let n := nat_of_ascii c in
  ((65 <=? n)%nat && (n <=? 90)%nat)
  || ((97 <=? n)%nat && (n <=? 122)%nat)
  || ((48 <=? n)%nat && (n <=? 57)%nat)
  || (n =? 95)%nat.

(** The maximal runs of letters, digits and underscores of a text;
    [cur] is the run being read. *)
Fixpoint ident_runs (cur : string) (s : string) : list string :=
  match s with
  | EmptyString => [cur]
  | String c s' =>
      if is_ident_char c then ident_runs (cur +:+ String c EmptyString) s'
      else cur :: ident_runs EmptyString s'
  end.

(** An identifier named [name] is present in [code]: one of the words
    of [code] is [name] (a word inside a comment or a string literal
    counts too, so this holds of more texts than the parser's notion). *)
Definition has_identifier (name code : string) : bool :=
  existsb (String.eqb name) (ident_runs EmptyString code).

(** The three reasons for which the specification has the validator
    reject a text. *)
Definition must_reject (py_compile : string -> option exn) (code : string) : Prop :=
  (exists pattern, In pattern Code.FORBIDDEN_PATTERNS /\ occurs_ci pattern code)
  \/ (exists msg, py_compile code = Some (SyntaxError msg))
  \/ ~ occurs "result" code.

(** The compile check comes to an end inside the validator: the text
    compiles, or the exception raised is a syntax error. *)
Definition compile_checked (py_compile : string -> option exn) (code : string) : Prop :=
  py_compile code = None \/ exists msg, py_compile code = Some (SyntaxError msg).

(** A state that holds a validated, non-empty code text. *)
Definition holds_validated (st : GraphState) (code : string) : Prop :=
  generated_code st = Some code /\ code <> EmptyString /\ code_valid st = true.

(** The run of [code] raises [e] inside the [try] block of
    [execute_code]: in the execution itself, or while the envelope of
    its result is built. *)
Definition raises_in_try
    (py_exec : string -> gmap string pyval -> Code.exec_outcome)
    (py_str : pyval -> outcome string) (code : string) (e : exn) : Prop :=
  py_exec code Code.initial_namespace = Code.Raised e
  \/ exists ns v,
       py_exec code Code.initial_namespace = Code.Completed ns
       /\ ns !! "result" = Some v /\ is_none v = false
       /\ Code.envelope py_str v = Raise e.

(** The entries that the error message lists: the first three of
    [errors] followed by [validation_errors], or the fallback entry. *)
Definition listed_errors (st : GraphState) : list string :=
  match errors st ++ validation_errors st with
  | [] => ["An unknown error occurred during analysis"]
  | all => firstn 3 all
  end.

Definition issues_list (es : list string) : string :=
  Explain.issues_header +:+ join nl (map (fun e => "- " +:+ e) es).


(** The final response before the summary line, as amended: the list of
    errors is used only when there are errors. *)
Definition base_response (st : GraphState) : string :=
  if truthy_opt_str (explanation st) then default EmptyString (explanation st)
  else match errors st with
       | [] => EmptyString
       | es => issues_list es
       end.

(** The rows of a tabular result. *)
Definition dataframe_rows (st : GraphState) : option (list pyval) :=
  match result_data st with
  | Some rd =>
      if String.eqb (rd_type rd) "dataframe"
      then match rd_data rd with PyList rows => Some rows | _ => None end
      else None
  | None => None
  end.

(** The state has no tabular result, or one whose data is a list (as
    the envelope that [execute_code] builds from a data frame is). *)
Definition result_well_formed (st : GraphState) : Prop :=
  forall rd, result_data st = Some rd ->
             rd_type rd = "dataframe" -> exists rows, rd_data rd = PyList rows.

Definition summary_line (st : GraphState) : string :=
  match dataframe_rows st with
  | Some (r :: rows) => Explain.rows_summary (length (r :: rows))
  | _ => EmptyString
  end.

(** The counter of [key] stands at [n] and expires at time [e]. *)
Definition counting (r : Redis.t) (key : string) (n e : Z) : Prop :=
  Redis.store r !! key
  = Some {| Redis.held := Redis.VInt n; Redis.expires_at := Some e |}.

(** Time [t] lies in the window of [w] seconds opened at [t0]. *)
Definition in_window (t0 w t : Z) : Prop := t0 <= t < t0 + w.

(** The answer to the call that brings the counter to [current]. *)
Definition answer (limit current : Z) : bool * Z :=
  (current <=? limit, Z.max 0 (limit - current)).

(** The answers to the [k] calls that bring the counter from [n + 1]
    to [n + k]. *)
Fixpoint answers_from (limit n : Z) (k : nat) : list (bool * Z) :=
  match k with
  | O => []
  | S k' => answer limit (n + 1) :: answers_from limit (n + 1) k'
  end.

(** The nodes that can run once [execute_code] has run. *)
Definition after_execution (n : Node.t) : Prop :=
  n = Node.trend_analysis \/ n = Node.explain_result
  \/ n = Node.handle_error \/ n = Node.return_chat.

(** What holds when node [n] is about to run after the nodes of [h], in
    a state whose retry counter is [rc]: [g] generation attempts were
    made.  Before the first attempt the counter is 0; from then on the
    attempts made and the counter go together, and the length of the
    history is bounded accordingly. *)
Definition position_ok (h : list Node.t) (n : Node.t) (rc : Z) : Prop :=
  let g := Z.of_nat (Graph.visits Node.generate_code h) in
  let len := Z.of_nat (length h) in
  0 <= rc <= 2 /\
  match n with
  | Node.ingest_query => g = 0 /\ rc = 0 /\ len <= 0
  | Node.parse_files => g = 0 /\ rc = 0 /\ len <= 1
  | Node.retrieve_context => g = 0 /\ rc = 0 /\ len <= 2
  | Node.analyze_intent => g = 0 /\ rc = 0 /\ len <= 3
  | Node.plan_analysis => g = 0 /\ rc = 0 /\ len <= 4
  | Node.align_timeseries => g = 0 /\ rc = 0 /\ len <= 5
  | Node.generate_code => g = rc /\ len <= 6 + 3 * rc
  | Node.validate_code => g = rc + 1 /\ len <= 7 + 3 * rc
  | Node.increment_retry => g = rc + 1 /\ rc < 2 /\ len <= 8 + 3 * rc
  | Node.execute_code => g = rc + 1 /\ len <= 8 + 3 * rc
  | Node.trend_analysis | Node.handle_error => g = rc + 1 /\ len <= 9 + 3 * rc
  | Node.explain_result => g = rc + 1 /\ len <= 10 + 3 * rc
  | Node.return_chat => g = rc + 1 /\ len <= 11 + 3 * rc
  end.

End Spec.

(** ** Sample inputs *)

Module Sample.

Definition fresh : GraphState :=
  create_initial_state "s1" "total revenue by region" [].

(** The dictionary that a node returned (nothing when it raised). *)
Definition updated (o : outcome update) : update :=
  match o with Ok u => u | Raise _ => [] end.

(** The state in which the model has just answered with the text
    [code]. *)
Definition state_with_code (code : string) : GraphState :=
  merge fresh (updated (Code.generate_code (Code.Generated code) fresh)).

(** The same state after a validation that found nothing to object. *)
Definition validated (code : string) : GraphState :=
  merge (state_with_code code)
        (updated (Code.validate_code (fun _ => None) (state_with_code code))).

(** An interpreter in which every text raises [ZeroDivisionError]. *)
Definition exec_raises : string -> gmap string pyval -> Code.exec_outcome :=
  fun _ _ => Code.Raised (OtherException "ZeroDivisionError" "division by zero").

(** An interpreter in which every text calls [sys.exit()]. *)
Definition exec_exits : string -> gmap string pyval -> Code.exec_outcome :=
  fun _ _ => Code.Raised (SystemExit EmptyString).

Definition format_exc : exn -> string :=
  fun _ => "Traceback (most recent call last): ...".

(** An interpreter in which every text binds [result] to [v] and
    nothing else. *)
Definition exec_binds (v : pyval) : string -> gmap string pyval -> Code.exec_outcome :=
  fun _ ns => Code.Completed (<["result" := v]> ns).

(** An interpreter in which every text completes without binding
    anything. *)
Definition exec_binds_nothing : string -> gmap string pyval -> Code.exec_outcome :=
  fun _ ns => Code.Completed ns.

Definition str_opaque : pyval -> outcome string := fun _ => Ok "<object>".

(** An object whose [to_dict] returns [None]. *)
Definition to_dict_none : pyval :=
  ToDictObject (Ok PyNone) (Ok (PyList [])) (Ok (PyList [PyInt 0; PyInt 0])).

(** A compile check that refuses a text with a null byte by a
    [ValueError], as the interpreter does. *)
Definition compile_no_null : string -> option exn :=
  fun code =>
    if contains (String (ascii_of_nat 0) EmptyString) code
    then Some (ValueError "source code string cannot contain null bytes")
    else None.

(** The identifier of one client in the per-minute limiter. *)
Definition client : string := "minute:10.0.0.1:s1".

(** A digest that is easy to read: the hashed text itself. *)
Definition digest_identity : string -> string := fun content => content.


(** A terminal state with an explanation and a tabular result of seven
    rows and one column. *)
Definition seven_regions : pyval :=
  DataFrame ["region"] (map (fun z => [("region", PyInt z)]) [1; 2; 3; 4; 5; 6; 7]).

Definition seven_rows : GraphState :=
  merge fresh
    ([ SetExplanation "Revenue grew in every region." ]
     ++ match Code.envelope str_opaque seven_regions with
        | Ok result_data => [ SetResultData result_data ]
        | Raise _ => []
        end).

(** A state that failed validation four times over. *)
Definition four_errors : GraphState :=
  merge fresh
    [ AppendErrors ["e1"; "e2"];
      SetValidationErrors ["v1"; "v2"] ].

End Sample.

(** ** More text operations *)

Module Text.

(** The ASCII characters that [str.isspace] accepts; the whitespace
    characters outside ASCII are not recognised. *)
Definition is_space (c : ascii) : bool :=
  let n := nat_of_ascii c in
  (n =? 32)%nat
  || ((9 <=? n)%nat && (n <=? 13)%nat)
  || ((28 <=? n)%nat && (n <=? 31)%nat).

Fixpoint lstrip (s : string) : string :=
  match s with
  | EmptyString => EmptyString
  | String c s' => if is_space c then lstrip s' else s
  end.

Fixpoint rstrip (s : string) : string :=
  match s with
  | EmptyString => EmptyString
  | String c s' =>
      match rstrip s' with
      | EmptyString => if is_space c then EmptyString else String c EmptyString
      | r => String c r
      end
  end.

(** [s.strip()]. *)
Definition strip (s : string) : string := rstrip (lstrip s).

(** [s[n:]]. *)
Fixpoint drop (n : nat) (s : string) : string :=
  match n, s with
  | O, _ => s
  | S n', String _ s' => drop n' s'
  | S _, EmptyString => EmptyString
  end.

(** The text before and the text after the leftmost occurrence of
    [sep] in [s]. *)
Fixpoint split_first (sep s : string) : option (string * string) :=
  if starts_with sep s then Some (EmptyString, drop (String.length sep) s)
  else
    match s with
    | EmptyString => None
    | String c s' =>
        match split_first sep s' with
        | Some (a, b) => Some (String c a, b)
        | None => None
        end
    end.

(** [s.split(sep)[0]] and [s.split(sep)[1]] for a text in which [sep]
    occurs: what stands before the first occurrence, and what stands
    between the first and the second (or the end). *)
Definition split_parts (sep s : string) : option (string * string) :=
  match split_first sep s with
  | Some (a, rest) =>
      match split_first sep rest with
      | Some (b, _) => Some (a, b)
      | None => Some (a, rest)
      end
  | None => None
  end.

(** [s.split("\n")]; [cur] is the line being read. *)
Fixpoint lines_from (cur : string) (s : string) : list string :=
  match s with
  | EmptyString => [cur]
  | String c s' =>
      if Ascii.eqb c (ascii_of_nat 10) then cur :: lines_from EmptyString s'
      else lines_from (cur +:+ String c EmptyString) s'
  end.

Definition lines (s : string) : list string := lines_from EmptyString s.

(** Every character of the text is whitespace. *)
Fixpoint all_space (s : string) : bool :=
  match s with
  | EmptyString => true
  | String c s' => is_space c && all_space s'
  end.

Definition first_char (s : string) : option ascii :=
  match s with
  | EmptyString => None
  | String c _ => Some c
  end.

Fixpoint last_char (s : string) : option ascii :=
  match s with
  | EmptyString => None
  | String c EmptyString => Some c
  | String _ s' => last_char s'
  end.

(** The text neither starts nor ends with whitespace. *)
Definition trimmed (s : string) : Prop :=
  (forall c, first_char s = Some c -> is_space c = false)
  /\ (forall c, last_char s = Some c -> is_space c = false).

End Text.

(** ** Query intake ([pipeline/nodes/ingest.py]) *)

Module Ingest.

Definition set_user_query (q : string) (st : GraphState) : GraphState :=
  let 'Build_GraphState sid _ af i ot pl ftu gc cv ve er rd ex rec fr cn nh es rc := st in
  Build_GraphState sid q af i ot pl ftu gc cv ve er rd ex rec fr cn nh es rc.

(** [ingest_query], as the state after its return value is merged: the
    returned dictionary rewrites [user_query], a key that no other node
    returns. *)
Definition ingest_query (st : GraphState) : GraphState :=
  let query := Text.strip (user_query st) in
  if negb (truthy_str query) then
    merge st [ AppendErrors ["Empty query provided"];
               SetCurrentNode "ingest_query";
               AppendNodeHistory ["ingest_query"] ]
  else
    set_user_query query
      (merge st [ SetCurrentNode "ingest_query";
                  AppendNodeHistory ["ingest_query"] ]).

(** [retrieve_context] returns, besides the file previews that the state
    record does not hold, the two bookkeeping keys. *)
Definition retrieve_context (st : GraphState) : update :=
  [ SetCurrentNode "retrieve_context";
    AppendNodeHistory ["retrieve_context"] ].

End Ingest.

(** ** Plans ([pipeline/nodes/planning.py]) *)

Module Plans.

(** What the [try] block of [plan_analysis] yields: the value that
    [json.loads] makes of the reply, which the node stores unchecked,
    or an exception: [None] for [null], a dictionary for a JSON object,
    and a value that is not a dictionary for every other JSON text.
    [LlmUnavailable e]: the [try] block is not reached, because
    [get_llm], which is called before it, raised [e]. *)
Inductive plan_reply :=
| PlanParsed (p : option plan_value)
| PlanFailed (msg : string)
| LlmUnavailable (e : exn).

Definition is_cross_table (operation_type : option string) : bool :=
  match operation_type with
  | Some ot => String.eqb ot "cross_table"
  | None => false
  end.

Definition plan_analysis (reply : plan_reply) (st : GraphState) : outcome update :=
  match reply with
  | PlanParsed p =>
      Ok [ SetPlan p;
           SetCurrentNode "plan_analysis";
           AppendNodeHistory ["plan_analysis"] ]
  | PlanFailed msg =>
      Ok [ SetPlan (Some (PlanDict {| time_alignment_needed :=
                                        is_cross_table (operation_type st) |}));
           SetCurrentNode "plan_analysis";
           AppendNodeHistory ["plan_analysis"] ]
  | LlmUnavailable e => Raise e
  end.

End Plans.

(** ** Alignment, trends and file parsing ([pipeline/nodes/timeseries.py]) *)

Module Timeseries.

(** [operation_type in ["cross_table", "temporal"]]. *)
Definition is_cross_or_temporal (operation_type : option string) : bool :=
  match operation_type with
  | Some ot => String.eqb ot "cross_table" || String.eqb ot "temporal"
  | None => false
  end.

(** [f.get("filename") in files_to_use]. *)
Definition is_selected (files_to_use : list string) (f : FileDict) : bool :=
  match filename f with
  | Some name => existsb (String.eqb name) files_to_use
  | None => false
  end.

Definition selected_files (st : GraphState) : list FileDict :=
  List.filter (is_selected (files_to_use st)) (default [] (available_files st)).

(** The reply of the language model to [align_timeseries], of which the
    state record keeps nothing, or the exception of the call. *)
Inductive align_reply :=
| Aligned
| AlignFailed (msg : string).

(** [align_timeseries] on the keys of the state record: it consults the
    language model only for a cross-table or temporal operation on at
    least two selected files. *)
Definition align_timeseries (reply : align_reply) (st : GraphState) : update :=
  if negb (is_cross_or_temporal (operation_type st)) then
    [ SetCurrentNode "align_timeseries"; AppendNodeHistory ["align_timeseries"] ]
  else if (length (selected_files st) <? 2)%nat then
    [ SetCurrentNode "align_timeseries"; AppendNodeHistory ["align_timeseries"] ]
  else
    match reply with
    | Aligned =>
        [ SetCurrentNode "align_timeseries";
          AppendNodeHistory ["align_timeseries"] ]
    | AlignFailed msg =>
        [ AppendErrors ["Alignment error: " +:+ msg];
          SetCurrentNode "align_timeseries";
          AppendNodeHistory ["align_timeseries"] ]
    end.

Definition trend_keywords : list string :=
  ["trend"; "growth"; "change"; "compare"; "anomal"; "pattern"; "season"].

Definition should_analyze (st : GraphState) : bool :=
  match intent st with
  | Some i => String.eqb i "trend" || String.eqb i "compare"
  | None => false
  end
  || existsb (fun kw => contains kw (lower (user_query st))) trend_keywords.

(** The reply to [trend_analysis]: the list under [recommended_actions]
    ([[]] when absent), or the exception of the call. *)
Inductive trend_reply :=
| Trends (recommended_actions : list string)
| TrendsFailed (msg : string).

(** [trend_analysis] on the keys of the state record. *)
Definition trend_analysis (reply : trend_reply) (st : GraphState) : update :=
  if negb (should_analyze st)
     || negb (match result_data st with Some _ => true | None => false end)
  then
    [ SetCurrentNode "trend_analysis"; AppendNodeHistory ["trend_analysis"] ]
  else
    match reply with
    | Trends new_recs =>
        let existing_recs := recommendations st in
        let combined_recs := existing_recs ++ new_recs in
        [ SetRecommendations (firstn 5 combined_recs);
          SetCurrentNode "trend_analysis";
          AppendNodeHistory ["trend_analysis"] ]
    | TrendsFailed msg =>
        [ SetCurrentNode "trend_analysis";
          AppendNodeHistory ["trend_analysis"] ]
    end.

(** [parse_files] on the keys of the state record: the error for an
    empty file list, and the bookkeeping keys. *)
Definition parse_files (st : GraphState) : update :=
  match default [] (available_files st) with
  | [] =>
      [ AppendErrors ["No files available for analysis"];
        SetCurrentNode "parse_files";
        AppendNodeHistory ["parse_files"] ]
  | _ :: _ =>
      [ SetCurrentNode "parse_files";
        AppendNodeHistory ["parse_files"] ]
  end.

(** The column computations of [parse_files], from the [columns],
    [numeric_columns] and [categorical_columns] of each file, in the
    order of the files.  The results are sets: the source builds its
    lists from Python sets, whose order is not determined. *)
Definition common_columns (columns : list (list string)) : gset string :=
  match columns with
  | [] => ∅
  | [c] => list_to_set c
  | c :: rest =>
      fold_left (fun acc c' => acc ∩ list_to_set c') rest (list_to_set c)
  end.

(** [list(set(all_numeric))], and the same for [all_categorical]. *)
Definition unique_columns (columns : list (list string)) : gset string :=
  list_to_set (concat columns).

End Timeseries.

(** ** The explanation node ([pipeline/nodes/explain.py]) *)

Module Explanation.

Definition RECOMMENDATIONS_HEADER : string := "**Recommendations:**".

(** The reply of the language model to [explain_result], or the
    exception of the call.  [LlmUnavailable e]: the [try] block is not
    reached, because [get_llm], which is called before it, raised [e]
    (a [ValueError] when no provider is configured). *)
Inductive explain_reply :=
| Explained (content : string)
| ExplainFailed (msg : string)
| LlmUnavailable (e : exn).

(** One line of the recommendations section: the text after a leading
    [- ] or [* ]. *)
Definition bullet_text (line : string) : list string :=
  let line := Text.strip line in
  if starts_with "- " line then [Text.drop 2 line]
  else if starts_with "* " line then [Text.drop 2 line]
  else [].

Definition extract_recommendations (rec_section : string) : list string :=
  flat_map bullet_text (Text.lines rec_section).

(** The explanation and the recommendations read from a reply. *)
Definition read_reply (content : string) : string * list string :=
  if contains RECOMMENDATIONS_HEADER content then
    match Text.split_parts RECOMMENDATIONS_HEADER content with
    | Some (before, rec_section) =>
        (Text.strip before, extract_recommendations rec_section)
    | None => (content, [])
    end
  else (content, []).

Definition explain_result (reply : explain_reply) (st : GraphState)
  : outcome update :=
  match execution_result st with
  | None => Raise (AttributeError "'NoneType' object has no attribute 'get'")
  | Some execution_result =>
      if negb (success execution_result) then
        let error := default "Unknown error" (error execution_result) in
        Ok [ SetExplanation
               ("I encountered an error while analyzing your data: " +:+ error);
             SetRecommendations
               [ "Please try rephrasing your question";
                 "Make sure the data contains the columns you're asking about" ];
             SetCurrentNode "explain_result";
             AppendNodeHistory ["explain_result"] ]
      else
        match result_data st with
        | None =>
            Ok [ SetExplanation "No results were generated from the analysis.";
                 SetRecommendations ["Please try a different query"];
                 SetCurrentNode "explain_result";
                 AppendNodeHistory ["explain_result"] ]
        | Some _ =>
            match reply with
            | Explained content =>
                let '(explanation, recommendations) := read_reply content in
                Ok [ SetExplanation explanation;
                     SetRecommendations
                       (match recommendations with
                        | [] => ["Consider exploring related metrics"]
                        | _ => recommendations
                        end);
                     SetCurrentNode "explain_result";
                     AppendNodeHistory ["explain_result"] ]
            | ExplainFailed msg =>
                Ok [ SetExplanation
                       "Analysis complete. Here are the results based on your query.";
                     SetRecommendations
                       ["Review the data table for detailed insights"];
                     AppendErrors ["Explanation generation error: " +:+ msg];
                     SetCurrentNode "explain_result";
                     AppendNodeHistory ["explain_result"] ]
            | LlmUnavailable e => Raise e
            end
        end
  end.

End Explanation.

(** ** The workflow, node by node *)

Module Flow.

Import Graph.

(** The name under which [build_graph] registers a node, which is also
    the name the node appends to [node_history]. *)
Definition name (n : Node.t) : string :=
  match n with
  | Node.ingest_query => "ingest_query"
  | Node.parse_files => "parse_files"
  | Node.retrieve_context => "retrieve_context"
  | Node.analyze_intent => "analyze_intent"
  | Node.plan_analysis => "plan_analysis"
  | Node.align_timeseries => "align_timeseries"
  | Node.generate_code => "generate_code"
  | Node.increment_retry => "increment_retry"
  | Node.validate_code => "validate_code"
  | Node.execute_code => "execute_code"
  | Node.trend_analysis => "trend_analysis"
  | Node.explain_result => "explain_result"
  | Node.return_chat => "return_chat"
  | Node.handle_error => "handle_error"
  end.

(** [step n st st']: node [n], run in state [st], returns, and [st'] is
    the state after the merge of its return value.  Every node is
    followed through its own function, for some behaviour of the
    interpreter, the clock and the language model; of the nodes that also
    return keys the state record does not hold, the keys it holds are
    followed. *)
Inductive step : Node.t -> GraphState -> GraphState -> Prop :=
| step_ingest_query st :
    step Node.ingest_query st (Ingest.ingest_query st)
| step_parse_files st :
    step Node.parse_files st (merge st (Timeseries.parse_files st))
| step_retrieve_context st :
    step Node.retrieve_context st (merge st (Ingest.retrieve_context st))
| step_analyze_intent st reply u :
    Planning.analyze_intent reply st = Ok u ->
    step Node.analyze_intent st (merge st u)
| step_plan_analysis st reply u :
    Plans.plan_analysis reply st = Ok u ->
    step Node.plan_analysis st (merge st u)
| step_align_timeseries st reply :
    step Node.align_timeseries st (merge st (Timeseries.align_timeseries reply st))
| step_generate_code st reply u :
    Code.generate_code reply st = Ok u ->
    step Node.generate_code st (merge st u)
| step_increment_retry st :
    step Node.increment_retry st (merge st (increment_retry st))
| step_validate_code st py_compile u :
    Code.validate_code py_compile st = Ok u ->
    step Node.validate_code st (merge st u)
| step_execute_code st py_exec py_str format_exc t0 t1 u :
    Code.execute_code py_exec py_str format_exc t0 t1 st = Ok u ->
    step Node.execute_code st (merge st u)
| step_trend_analysis st reply :
    step Node.trend_analysis st (merge st (Timeseries.trend_analysis reply st))
| step_explain_result st reply u :
    Explanation.explain_result reply st = Ok u ->
    step Node.explain_result st (merge st u)
| step_return_chat st u :
    Explain.return_chat st = Ok u ->
    step Node.return_chat st (merge st u)
| step_handle_error st :
    step Node.handle_error st (merge st (Explain.handle_error st)).

(** [trace_from st0 h n st]: from the entry point and the state [st0]
    the nodes of [h] have run, in this order; node [n] is about to run
    in state [st]. *)
Inductive trace_from (st0 : GraphState)
  : list Node.t -> Node.t -> GraphState -> Prop :=
| trace_start :
    trace_from st0 [] entry_point st0
| trace_step h n st st' n' :
    trace_from st0 h n st ->
    step n st st' ->
    next n st' = Ok (Goto n') ->
    trace_from st0 (h ++ [n]) n' st'.

(** [trace h n st]: the same, from the start of some run. *)
Definition trace (h : list Node.t) (n : Node.t) (st : GraphState) : Prop :=
  exists st0, starts st0 /\ trace_from st0 h n st.

(** [finished_from st0 h st]: the workflow, started in [st0], has ended
    in state [st] after the nodes of [h]. *)
Inductive finished_from (st0 : GraphState) : list Node.t -> GraphState -> Prop :=
| finished_at h n st st' :
    trace_from st0 h n st ->
    step n st st' ->
    next n st' = Ok END ->
    finished_from st0 (h ++ [n]) st'.

Definition finished (h : list Node.t) (st : GraphState) : Prop :=
  exists st0, starts st0 /\ finished_from st0 h st.

(** Consecutive nodes of a list are joined by edges of the graph. *)
Fixpoint is_path (h : list Node.t) : Prop :=
  match h with
  | a :: ((b :: _) as rest) => In b (successors a) /\ is_path rest
  | _ => True
  end.

(** [rd] is an envelope that [execute_code] can build: that of a value
    that is not [None]. *)
Definition is_envelope (rd : ResultData) : Prop :=
  exists py_str v, is_none v = false /\ Code.envelope py_str v = Ok rd.

Definition envelope_or_none (st : GraphState) : Prop :=
  result_data st = None
  \/ exists rd, result_data st = Some rd /\ is_envelope rd.

Definition succeeded (st : GraphState) : Prop :=
  exists r, execution_result st = Some r /\ success r = true.

(** What the position in the graph says about the result keys of the
    state: nothing has been executed or explained before [execute_code]
    has run; an execution that succeeded has left an envelope; an
    explanation is in place when [return_chat] starts. *)
Definition position_facts (n : Node.t) (st : GraphState) : Prop :=
  match n with
  | Node.trend_analysis | Node.explain_result =>
      succeeded st
      /\ (exists rd, result_data st = Some rd /\ is_envelope rd)
      /\ explanation st = None
  | Node.handle_error =>
      result_data st = None /\ explanation st = None
  | Node.return_chat =>
      explanation st <> None
      /\ envelope_or_none st
      /\ (result_data st <> None -> succeeded st)
  | _ =>
      result_data st = None /\ execution_result st = None
      /\ explanation st = None
  end.

(** The names a return value appends to [node_history]. *)
Definition appended_history (u : update) : list string :=
  flat_map (fun a => match a with AppendNodeHistory v => v | _ => [] end) u.

(** The return value has none of the keys [result_data],
    [execution_result], [explanation]. *)
Definition leaves_result_keys (u : update) : bool :=
  forallb (fun a => match a with
                    | SetResultData _ | SetExecutionResult _ | SetExplanation _ => false
                    | _ => true
                    end) u.

End Flow.

(** ** A sample trace *)

Module SampleFlow.

Definition files : list FileDict := [ {| filename := Some "sales_nov_2024.csv" |} ].

Definition table : pyval :=
  DataFrame ["region"] [ [("region", PyStr "north")]; [("region", PyStr "south")] ].

Definition reply_text : string :=
  "Revenue is up in both regions. **Recommendations:**" +:+ nl
  +:+ "- Keep the current pricing" +:+ nl
  +:+ "* Review the southern stock".

Definition s0 : GraphState :=
  start_state [] [] "s1" "  total revenue by region " files.
Definition s1 : GraphState := Ingest.ingest_query s0.
Definition s2 : GraphState := merge s1 (Timeseries.parse_files s1).
Definition s3 : GraphState := merge s2 (Ingest.retrieve_context s2).
Definition s4 : GraphState :=
  merge s3 (Sample.updated (Planning.analyze_intent
                       (Planning.Parsed (Some "aggregate") (Some "single_table")
                                        (Some ["sales_nov_2024.csv"])) s3)).
Definition s5 : GraphState :=
  merge s4 (Sample.updated
              (Plans.plan_analysis
                 (Plans.PlanParsed
                    (Some (PlanDict {| time_alignment_needed := false |}))) s4)).
Definition s6 : GraphState :=
  merge s5 (Sample.updated
              (Code.generate_code
                 (Code.Generated "result = pd.read_csv(path).groupby('region').sum()")
                 s5)).
Definition s7 : GraphState :=
  merge s6 (Sample.updated (Code.validate_code (fun _ => None) s6)).
Definition s8 : GraphState :=
  merge s7 (Sample.updated
              (Code.execute_code (Sample.exec_binds table) Sample.str_opaque
                 Sample.format_exc 10 (21 # 2) s7)).
Definition s9 : GraphState :=
  merge s8 (Timeseries.trend_analysis (Timeseries.Trends ["Watch the trend"]) s8).
Definition s10 : GraphState :=
  merge s9 (Sample.updated (Explanation.explain_result
                              (Explanation.Explained reply_text) s9)).
Definition s11 : GraphState := merge s10 (Sample.updated (Explain.return_chat s10)).

Definition path_to_executor : list Node.t :=
  [ Node.ingest_query; Node.parse_files; Node.retrieve_context;
    Node.analyze_intent; Node.plan_analysis; Node.generate_code;
    Node.validate_code ].

Definition path : list Node.t :=
  path_to_executor
  ++ [ Node.execute_code; Node.trend_analysis; Node.explain_result ].

(** The same run when the code leaves in [result] an object whose
    [to_dict] returns the number 3. *)
Definition to_dict_number : pyval :=
  ToDictObject (Ok (PyInt 3)) (Ok (PyList [])) (Ok (PyList [])).

Definition q8 : GraphState :=
  merge s7 (Sample.updated
              (Code.execute_code (Sample.exec_binds to_dict_number)
                 Sample.str_opaque Sample.format_exc 10 (21 # 2) s7)).
Definition q9 : GraphState :=
  merge q8 (Timeseries.trend_analysis (Timeseries.Trends ["Watch the trend"]) q8).
Definition q10 : GraphState :=
  merge q9 (Sample.updated (Explanation.explain_result
                              (Explanation.Explained reply_text) q9)).

End SampleFlow.

(** ** The second run of a session *)

Module SampleResumed.

Definition b0 : GraphState :=
  start_state (node_history SampleFlow.s11) (errors SampleFlow.s11)
    "s1" "and by month" SampleFlow.files.
Definition b1 : GraphState := Ingest.ingest_query b0.

End SampleResumed.

(** ** A sample trace that reaches the alignment node *)

Module SampleAlign.

Definition files : list FileDict :=
  [ {| filename := Some "sales_nov_2024.csv" |};
    {| filename := Some "sales_dec_2024.csv" |} ].

Definition a0 : GraphState :=
  start_state [] [] "s1" "compare november with december" files.
Definition a1 : GraphState := Ingest.ingest_query a0.
Definition a2 : GraphState := merge a1 (Timeseries.parse_files a1).
Definition a3 : GraphState := merge a2 (Ingest.retrieve_context a2).
Definition a4 : GraphState :=
  merge a3 (Sample.updated
              (Planning.analyze_intent
                 (Planning.Parsed (Some "compare") (Some "cross_table")
                    (Some ["sales_nov_2024.csv"; "sales_dec_2024.csv"])) a3)).
Definition a5 : GraphState :=
  merge a4 (Sample.updated
              (Plans.plan_analysis
                 (Plans.PlanParsed
                    (Some (PlanDict {| time_alignment_needed := true |}))) a4)).

(** The state when the model replies with a JSON list instead. *)
Definition a5_list : GraphState :=
  merge a4 (Sample.updated
              (Plans.plan_analysis
                 (Plans.PlanParsed (Some (NotADict "list"))) a4)).

Definition path : list Node.t :=
  [ Node.ingest_query; Node.parse_files; Node.retrieve_context;
    Node.analyze_intent; Node.plan_analysis ].

End SampleAlign.

(** ** A sample run up to the executor *)

Module SampleRun.

Definition r0 : GraphState :=
  start_state [] [] "s1" "total revenue by region" SampleFlow.files.
Definition r4 : GraphState :=
  merge r0 (Sample.updated
              (Planning.analyze_intent (Planning.Parsed None None None) r0)).
Definition r6 : GraphState :=
  merge r4 (Sample.updated
              (Code.generate_code (Code.Generated "result = pd.DataFrame()") r4)).
Definition r7 : GraphState :=
  merge r6 (Sample.updated (Code.validate_code (fun _ => None) r6)).

Definition path : list Node.t :=
  [ Node.ingest_query; Node.parse_files; Node.retrieve_context;
    Node.analyze_intent; Node.plan_analysis; Node.generate_code;
    Node.validate_code ].

End SampleRun.

(** ** Code extraction ([generate_code] in [pipeline/nodes/code.py]) *)

Module Generation.

Definition FENCE : string := "```".
Definition PYTHON_FENCE : string := "```python".

(** [content.split(sep)[1].split("```")[0]]: the index 1 is out of
    range when [sep] does not occur. *)
Definition fenced (sep content : string) : outcome string :=
  match Text.split_parts sep content with
  | Some (_, part) =>
      match Text.split_first FENCE part with
      | Some (block, _) => Ok block
      | None => Ok part
      end
  | None => Raise (IndexError "list index out of range")
  end.

(** The code cut out of the reply of the language model. *)
Definition extract_code (content : string) : outcome string :=
  let code :=
    if contains PYTHON_FENCE content then fenced PYTHON_FENCE content
    else if contains FENCE content then fenced FENCE content
    else Ok content in
  match code with
  | Ok code => Ok (Text.strip code)
  | Raise e => Raise e
  end.

(** The reply of the language model to [generate_code], or the
    exception of the call; [LlmUnavailable e] when [get_llm] raised [e]
    before the [try] block. *)
Inductive model_reply :=
| Replied (content : string)
| CallFailed (msg : string)
| LlmUnavailable (e : exn).

(** [generate_code]: the extraction runs inside the [try] block, whose
    handler catches the exceptions of the extraction. *)
Definition generate_code (reply : model_reply) (st : GraphState) : outcome update :=
  match reply with
  | Replied content =>
      match extract_code content with
      | Ok code => Code.generate_code (Code.Generated code) st
      | Raise e => Code.generate_code (Code.GenerationFailed (exn_str e)) st
      end
  | CallFailed msg => Code.generate_code (Code.GenerationFailed msg) st
  | LlmUnavailable e => Code.generate_code (Code.LlmUnavailable e) st
  end.

End Generation.

(** ** The rate limiting middleware ([backend/app/core/middleware.py]) *)

Module Middleware.

(** What [dispatch] reads of a request: the path, the host of the
    client when the connection has one, and the [X-Session-ID] header
    when it is sent. *)
Record Request := {
  path : string;
  client_host : option string;
  x_session_id : option string
}.

Record RateLimitMiddleware := {
  requests_per_minute : Z;
  requests_per_hour : Z;
  exclude_paths : list string
}.

(** The middleware as [main.py] installs it. *)
Definition installed : RateLimitMiddleware :=
  {| requests_per_minute := 60;
     requests_per_hour := 1000;
     exclude_paths := ["/health"; "/docs"; "/openapi.json"; "/redoc"; "/"] |}.

(** The request is passed on to the application, or answered with
    status 429 and these values in the body and the headers. *)
Inductive verdict :=
| Forwarded
| TooManyRequests (retry_after remaining_minute remaining_hour : Z).

Definition identifier (request : Request) : string :=
  let client_ip := default "unknown" (client_host request) in
  let session_id := default client_ip (x_session_id request) in
  client_ip +:+ ":" +:+ session_id.

(** [dispatch], with both commands of a request served at time [now]. *)
Definition dispatch (self : RateLimitMiddleware) (now : Z)
    (cache_service : Cache.CacheService) (request : Request)
  : verdict * Cache.CacheService :=
  if existsb (String.eqb (path request)) (exclude_paths self) then
    (Forwarded, cache_service)
  else
    match cache_service with
    | None => (Forwarded, cache_service)
    | Some _ =>
        let '((allowed_minute, remaining_minute), cs1) :=
          Cache.check_rate_limit now cache_service
            ("minute:" +:+ identifier request) (requests_per_minute self) 60 in
        let '((allowed_hour, remaining_hour), cs2) :=
          Cache.check_rate_limit now cs1
            ("hour:" +:+ identifier request) (requests_per_hour self) 3600 in
        if negb allowed_minute || negb allowed_hour then
          (TooManyRequests (if negb allowed_minute then 60 else 3600)
                           remaining_minute remaining_hour, cs2)
        else (Forwarded, cs2)
    end.

(** The requests of [requests], each with the time at which it is
    served, in this order. *)
Fixpoint dispatch_all (self : RateLimitMiddleware)
    (cache_service : Cache.CacheService) (requests : list (Z * Request))
  : list verdict * Cache.CacheService :=
  match requests with
  | [] => ([], cache_service)
  | (now, request) :: rest =>
      let '(v, cs1) := dispatch self now cache_service request in
      let '(vs, cs2) := dispatch_all self cs1 rest in
      (v :: vs, cs2)
  end.

(** The value of the counter of [identifier], 0 when there is none. *)
Definition counter (now : Z) (cache_service : Cache.CacheService)
    (identifier : string) : Z :=
  match cache_service with
  | Some r =>
      match Redis.live now r (Cache.ratelimit_key identifier) with
      | Some {| Redis.held := Redis.VInt n |} => n
      | _ => 0
      end
  | None => 0
  end.

Definition is_forwarded (v : verdict) : bool :=
  match v with Forwarded => true | TooManyRequests _ _ _ => false end.

(** The verdict on a request that brings the counter of the minute to
    [m] and the counter of the hour to [h]. *)
Definition verdict_at (self : RateLimitMiddleware) (m h : Z) : verdict :=
  if (m <=? requests_per_minute self) && (h <=? requests_per_hour self)
  then Forwarded
  else TooManyRequests
         (if m <=? requests_per_minute self then 3600 else 60)
         (Z.max 0 (requests_per_minute self - m))
         (Z.max 0 (requests_per_hour self - h)).

(** A request that [dispatch] counts. *)
Definition counted (self : RateLimitMiddleware) (request : Request) : bool :=
  negb (existsb (String.eqb (path request)) (exclude_paths self)).

End Middleware.

(** ** The chat service ([backend/app/services/chat_service.py]) *)

Module Chat.

Definition valid_intents : list string :=
  ["query"; "aggregate"; "compare"; "trend"; "forecast"; "anomaly"; "correlation"].

(** [_parse_intent] on a value that is [None] or a text. *)
Definition _parse_intent (intent_value : option string) : option string :=
  if negb (truthy_opt_str intent_value) then None
  else
    let intent_str := default EmptyString intent_value in
    let intent_str :=
      if contains "|" intent_str then
        match Text.split_first "|" intent_str with
        | Some (first, _) => Text.strip first
        | None => Text.strip intent_str
        end
      else intent_str in
    if existsb (String.eqb (lower intent_str)) valid_intents
    then Some (lower intent_str)
    else None.

(** A [float]: a finite number, [nan] or an infinity. *)
Inductive float :=
| Finite (q : Q)
| NaN
| Infinity (negative : bool).

(** The values [_sanitize_json_data] tells apart: [None], dictionaries
    (in insertion order), lists, floats, and the others, which it hands
    back as they are, tuples included. *)
#[local] Set Warnings "-register-all".
Inductive data :=
| DNone
| DDict (items : list (string * data))
| DList (items : list data)
| DFloat (x : float)
| DBool (b : bool)
| DInt (z : Z)
| DStr (s : string)
| DTuple (items : list data).

(** [math.isnan(x) or math.isinf(x)]. *)
Definition is_nan_or_inf (x : float) : bool :=
  match x with
  | Finite _ => false
  | NaN | Infinity _ => true
  end.

Fixpoint _sanitize_json_data (d : data) : data :=
  match d with
  | DNone => DNone
  | DDict items =>
      DDict (map (fun '(key, value) => (key, _sanitize_json_data value)) items)
  | DList items => DList (map _sanitize_json_data items)
  | DFloat x => if is_nan_or_inf x then DNone else d
  | _ => d
  end.

(** No [nan] and no infinity is reached from the value through
    dictionaries and lists. *)
Fixpoint json_safe (d : data) : bool :=
  match d with
  | DDict items => forallb (fun '(_, value) => json_safe value) items
  | DList items => forallb json_safe items
  | DFloat x => negb (is_nan_or_inf x)
  | _ => true
  end.

(** The value with every float replaced by [None]: two values with the
    same image differ in their floats only. *)
Fixpoint shape (d : data) : data :=
  match d with
  | DDict items => DDict (map (fun '(key, value) => (key, shape value)) items)
  | DList items => DList (map shape items)
  | DFloat _ => DNone
  | _ => d
  end.

End Chat.

(** * Properties *)

(** ** Texts *)

Section Texts.

#[local] Arguments String.append !_ _ / : simpl nomatch.

Lemma append_nil_r (s : string) : s +:+ EmptyString = s.
Proof. induction s as [|c s IH]; simpl; [reflexivity | now rewrite IH]. Qed.

Lemma append_assoc (a b c : string) : (a +:+ b) +:+ c = a +:+ (b +:+ c).
Proof. induction a as [|x a IH]; simpl; [reflexivity | now rewrite IH]. Qed.

Lemma lower_app (a b : string) : lower (a +:+ b) = lower a +:+ lower b.
Proof. induction a as [|x a IH]; simpl; [reflexivity | now rewrite IH]. Qed.

Lemma prefix_app (p s : string) : starts_with p (p +:+ s) = true.
Proof.
  induction p as [|c p IH]; simpl; [reflexivity |].
  now rewrite Ascii.eqb_refl, IH.
Qed.

Lemma prefix_inv (p s : string) :
  starts_with p s = true -> exists post, s = p +:+ post.
Proof.
  revert s; induction p as [|c p IH]; intros s H; simpl in *.
  - now exists s.
  - destruct s as [|d s]; [discriminate |].
    apply andb_true_iff in H as [Hc H].
    apply Ascii.eqb_eq in Hc as ->.
    destruct (IH _ H) as [post ->]. now exists post.
Qed.

Lemma contains_here (sub post : string) : contains sub (sub +:+ post) = true.
Proof.
  destruct (sub +:+ post) as [|c r] eqn:E.
  - destruct sub; [reflexivity | discriminate].
  - simpl. rewrite <- E, prefix_app. reflexivity.
Qed.

Lemma contains_app (pre sub post : string) :
  contains sub (pre +:+ sub +:+ post) = true.
Proof.
  induction pre as [|c pre IH]; simpl.
  - apply contains_here.
  - rewrite IH. apply orb_true_r.
Qed.

Lemma contains_inv (sub s : string) :
  contains sub s = true -> Spec.occurs sub s.
Proof.
  induction s as [|c s IH]; simpl; intros H.
  - destruct (prefix_inv _ _ H) as [post E]. now exists EmptyString, post.
  - apply orb_true_iff in H as [H | H].
    + destruct (prefix_inv _ _ H) as [post E]. now exists EmptyString, post.
    + destruct (IH H) as (pre & post & ->). now exists (String c pre), post.
Qed.

Lemma contains_occurs (sub s : string) :
  contains sub s = true <-> Spec.occurs sub s.
Proof.
  split; [apply contains_inv |].
  intros (pre & post & ->). apply contains_app.
Qed.

Lemma contains_lower (pattern code : string) :
  Spec.occurs_ci pattern code -> contains (lower pattern) (lower code) = true.
Proof.
  intros (pre & mid & post & -> & E).
  rewrite !lower_app, E. apply contains_app.
Qed.

Lemma length_append (a b : string) :
  String.length (a +:+ b) = (String.length a + String.length b)%nat.
Proof. induction a as [|c a IH]; simpl; [reflexivity | now rewrite IH]. Qed.

Lemma append_length_inj (a b c d : string) :
  a +:+ b = c +:+ d -> String.length b = String.length d -> a = c /\ b = d.
Proof.
  revert c. induction a as [|x a IH]; intros [|y c] E Hl; simpl in E.
  - now split.
  - exfalso. rewrite E in Hl. simpl in Hl. rewrite length_append in Hl. lia.
  - exfalso. rewrite <- E in Hl. simpl in Hl. rewrite length_append in Hl. lia.
  - injection E as -> E. destruct (IH c E Hl) as [-> ->]. now split.
Qed.

Lemma append_inj_l (a x y : string) : a +:+ x = a +:+ y -> x = y.
Proof.
  induction a as [|c a IH]; simpl; [tauto |].
  intros H. injection H as H. now apply IH.
Qed.

End Texts.

(** ** The validator *)

Section Validator.

Variable py_compile : string -> option exn.

Lemma occurs_ci_of_occurs (sub code : string) :
  Spec.occurs sub code -> Spec.occurs_ci sub code.
Proof. intros (pre & post & ->). now exists pre, sub, post. Qed.

Lemma occurs_ci_empty (pattern : string) :
  Spec.occurs_ci pattern EmptyString -> pattern = EmptyString.
Proof.
  intros (pre & mid & post & E & L).
  destruct pre; [| discriminate]. destruct mid; [| discriminate].
  destruct pattern; [reflexivity | discriminate].
Qed.

Lemma forbidden_patterns_nonempty :
  ~ In EmptyString Code.FORBIDDEN_PATTERNS.
Proof. simpl. intuition discriminate. Qed.

Lemma forbidden_errors_In (pattern code : string) :
  In pattern Code.FORBIDDEN_PATTERNS ->
  Spec.occurs_ci pattern code ->
  In ("Forbidden pattern detected: " +:+ pattern) (Code.forbidden_errors code).
Proof.
  intros Hin Hocc. unfold Code.forbidden_errors.
  apply in_flat_map. exists pattern. split; [exact Hin |].
  rewrite (contains_lower _ _ Hocc). now left.
Qed.

Lemma result_errors_absent (code : string) :
  ~ Spec.occurs "result" code ->
  Code.result_errors code = ["Code must define a 'result' variable"].
Proof.
  intros H. unfold Code.result_errors.
  destruct (contains "result" code) eqn:E; [| reflexivity].
  apply contains_occurs in E. contradiction.
Qed.

Lemma collect_errors_checked (code : string) :
  Spec.compile_checked py_compile code ->
  exists syntax,
    Code.syntax_errors py_compile code = Ok syntax
    /\ Code.collect_errors py_compile code
       = Ok (Code.forbidden_errors code ++ syntax ++ Code.result_errors code)
    /\ (forall msg, py_compile code = Some (SyntaxError msg) ->
                    syntax = ["Syntax error: " +:+ msg]).
Proof.
  unfold Code.collect_errors, Code.syntax_errors.
  intros [H | [msg H]]; rewrite H.
  - exists []. repeat split. discriminate.
  - exists ["Syntax error: " +:+ msg]. repeat split.
    intros msg' E. now injection E as <-.
Qed.

Lemma validate_code_nonempty (st : GraphState) (c : ascii) (code : string)
      (errs : list string) :
  generated_code st = Some (String c code) ->
  Code.collect_errors py_compile (String c code) = Ok errs ->
  errs <> [] ->
  Code.validate_code py_compile st
  = Ok [ SetCodeValid false;
         SetValidationErrors errs;
         SetCurrentNode "validate_code";
         AppendNodeHistory ["validate_code"] ].
Proof.
  intros Hgc Hc Hne. unfold Code.validate_code. rewrite Hgc.
  change (truthy_opt_str (Some (String c code))) with true.
  cbv beta iota zeta delta [negb default from_option id].
  rewrite Hc. destruct errs as [|e errs]; [now destruct Hne | reflexivity].
Qed.

Lemma must_reject_collected (code : string) (syntax : list string) :
  Spec.must_reject py_compile code ->
  Code.syntax_errors py_compile code = Ok syntax ->
  Code.forbidden_errors code ++ syntax ++ Code.result_errors code <> [].
Proof.
  intros [(pattern & Hin & Hocc) | [(msg & Hmsg) | Hres]] Hs E.
  - pose proof (forbidden_errors_In _ _ Hin Hocc) as H.
    apply app_eq_nil in E as [E _]. rewrite E in H. exact H.
  - apply app_eq_nil in E as [_ E]. apply app_eq_nil in E as [E _].
    unfold Code.syntax_errors in Hs. rewrite Hmsg in Hs.
    injection Hs as <-. discriminate.
  - apply app_eq_nil in E as [_ E]. apply app_eq_nil in E as [_ E].
    rewrite (result_errors_absent _ Hres) in E. discriminate.
Qed.

(** The compile check lets every exception but a syntax error through:
    the node then returns nothing. *)
Lemma validate_code_compile_escapes (st : GraphState) (code : string) (e : exn) :
  generated_code st = Some code ->
  code <> EmptyString ->
  py_compile code = Some e ->
  (forall msg, e <> SyntaxError msg) ->
  Code.validate_code py_compile st = Raise e.
Proof.
  intros Hgc Hne He Hns. unfold Code.validate_code. rewrite Hgc.
  destruct code as [|c code]; [now destruct Hne |].
  change (truthy_opt_str (Some (String c code))) with true.
  cbv beta iota zeta delta [negb default from_option id].
  unfold Code.collect_errors, Code.syntax_errors. rewrite He.
  destruct e; try reflexivity. now destruct (Hns msg).
Qed.

(** C2, as amended.  For every code text that is empty or on which the
    compile check comes to an end (the text compiles or a syntax error
    is raised), [validate_code] returns [code_valid = False] together with the error
    naming the cause when a pattern of the denylist appears in the text
    up to the case of letters, when the compile check raises a syntax
    error, or when the text [result] appears nowhere in the code; an
    empty text is answered by the single error [No code generated].  In
    particular a text in which [os.system] appears is rejected with the
    error [Forbidden pattern detected: os.system]. *)
Theorem validate_code_rejects (st : GraphState) (code : string) :
  generated_code st = Some code ->
  (code <> EmptyString -> Spec.compile_checked py_compile code) ->
  Spec.must_reject py_compile code ->
  exists u errs,
    Code.validate_code py_compile st = Ok u
    /\ get_code_valid u = Some false
    /\ get_validation_errors u = Some errs
    /\ (code = EmptyString -> errs = ["No code generated"])
    /\ (forall pattern,
           In pattern Code.FORBIDDEN_PATTERNS ->
           Spec.occurs_ci pattern code ->
           In ("Forbidden pattern detected: " +:+ pattern) errs)
    /\ (forall msg,
           code <> EmptyString ->
           py_compile code = Some (SyntaxError msg) ->
           In ("Syntax error: " +:+ msg) errs)
    /\ (code <> EmptyString ->
        ~ Spec.occurs "result" code ->
        In "Code must define a 'result' variable" errs)
    /\ (Spec.occurs "os.system" code ->
        In "Forbidden pattern detected: os.system" errs).
Proof.
  intros Hgc Hchk Hrej.
  destruct code as [|c code].
  - eexists. exists ["No code generated"].
    unfold Code.validate_code. rewrite Hgc.
    split; [reflexivity |]. split; [reflexivity |]. split; [reflexivity |].
    split; [reflexivity |].
    split.
    { intros pattern Hin Hocc. apply occurs_ci_empty in Hocc. subst.
      now destruct (forbidden_patterns_nonempty Hin). }
    split; [intros msg Hne; now destruct Hne |].
    split; [intros Hne; now destruct Hne |].
    intros Hocc. apply occurs_ci_of_occurs, occurs_ci_empty in Hocc.
    discriminate.
  - assert (Hchk' : Spec.compile_checked py_compile (String c code))
      by (apply Hchk; discriminate).
    destruct (collect_errors_checked _ Hchk') as (syntax & Hs & Hc & Hmsg).
    pose proof (must_reject_collected _ _ Hrej Hs) as Hne.
    eexists. eexists.
    split; [exact (validate_code_nonempty st c code _ Hgc Hc Hne) |].
    split; [reflexivity |]. split; [reflexivity |].
    split; [discriminate |].
    split.
    { intros pattern Hin Hocc. apply in_or_app. left.
      now apply forbidden_errors_In. }
    split.
    { intros msg _ E. apply in_or_app. right.
      apply in_or_app. left. rewrite (Hmsg msg E). now left. }
    split.
    { intros _ Hres. apply in_or_app. right.
      apply in_or_app. right. rewrite (result_errors_absent _ Hres). now left. }
    intros Hocc. apply in_or_app. left.
    apply (forbidden_errors_In "os.system").
    + simpl. tauto.
    + now apply occurs_ci_of_occurs.
Qed.

End Validator.

Lemma validate_code_rejects_witness :
  exists u errs,
    Code.validate_code (fun _ => None) (Sample.state_with_code "os.system('ls')")
    = Ok u
    /\ get_code_valid u = Some false
    /\ get_validation_errors u = Some errs
    /\ In "Forbidden pattern detected: os.system" errs.
Proof.
  destruct (validate_code_rejects (fun _ => None)
              (Sample.state_with_code "os.system('ls')") "os.system('ls')")
    as (u & errs & Hu & Hv & He & _ & _ & _ & _ & Hos).
  - reflexivity.
  - intros _. left. reflexivity.
  - left. exists "os.system". split; [simpl; tauto |].
    exists EmptyString, "os.system", "('ls')". split; reflexivity.
  - exists u, errs. split; [exact Hu |]. split; [exact Hv |].
    split; [exact He |].
    apply Hos. exists EmptyString, "('ls')". reflexivity.
Defined.

(** C2, as stated, fails: the text [results = 1] compiles and has no
    identifier named [result], yet [validate_code] accepts it, because the
    letters of [result] appear inside [results].  And the text
    [import os] followed by a null byte, in which a pattern of the
    denylist appears, is not answered at all: the compile check raises a
    [ValueError], which the node does not catch. *)
Lemma validate_code_accepts_results_word :
  Spec.has_identifier "result" "results = 1" = false
  /\ Code.forbidden_errors "results = 1" = []
  /\ (exists u,
         Code.validate_code (fun _ => None) (Sample.state_with_code "results = 1")
         = Ok u
         /\ get_code_valid u = Some true)
  /\ Code.forbidden_errors ("import os" +:+ String (ascii_of_nat 0) EmptyString)
     = ["Forbidden pattern detected: import os"]
  /\ Code.validate_code Sample.compile_no_null
       (Sample.state_with_code ("import os" +:+ String (ascii_of_nat 0) EmptyString))
     = Raise (ValueError "source code string cannot contain null bytes").
Proof.
  split; [vm_compute; reflexivity |]. split; [vm_compute; reflexivity |].
  split; [eexists; split; vm_compute; reflexivity |].
  split; vm_compute; reflexivity.
Qed.

(** ** The executor *)

Section Executor.

Variable py_exec : string -> gmap string pyval -> Code.exec_outcome.
Variable py_str : pyval -> outcome string.
Variable format_exc : exn -> string.
Variables start_time end_time : Q.

(** [execute_code] on a state that holds validated code. *)
Lemma execute_code_validated (st : GraphState) (code : string) :
  Spec.holds_validated st code ->
  Code.execute_code py_exec py_str format_exc start_time end_time st
  = match py_exec code Code.initial_namespace with
    | Code.Completed ns =>
        if is_none (default PyNone (ns !! "result")) then
          Ok [ SetExecutionResult
                 {| success := false; error := Some "No result variable defined";
                    traceback := None;
                    execution_time_ms := Some (Code.elapsed_ms start_time end_time) |};
               SetCurrentNode "execute_code";
               AppendNodeHistory ["execute_code"] ]
        else
          match Code.envelope py_str (default PyNone (ns !! "result")) with
          | Ok result_data =>
              Ok [ SetExecutionResult
                     {| success := true; error := None; traceback := None;
                        execution_time_ms :=
                          Some (Code.elapsed_ms start_time end_time) |};
                   SetResultData result_data;
                   SetCurrentNode "execute_code";
                   AppendNodeHistory ["execute_code"] ]
          | Raise e => Code.handle_exception format_exc start_time end_time e
          end
    | Code.Raised e => Code.handle_exception format_exc start_time end_time e
    end.
Proof.
  intros (Hgc & Hne & Hcv). unfold Code.execute_code.
  rewrite Hgc, Hcv. destruct code as [|c code]; [now destruct Hne |].
  reflexivity.
Qed.

Lemma handle_exception_caught (e : exn) :
  is_Exception e = true ->
  Code.handle_exception format_exc start_time end_time e
  = Ok [ SetExecutionResult
           {| success := false; error := Some (exn_str e);
              traceback := Some (format_exc e);
              execution_time_ms := Some (Code.elapsed_ms start_time end_time) |};
         AppendErrors ["Execution error: " +:+ exn_str e];
         SetCurrentNode "execute_code";
         AppendNodeHistory ["execute_code"] ].
Proof. unfold Code.handle_exception. now intros ->. Qed.

Lemma handle_exception_cases (e : exn) :
  (is_Exception e = true
   /\ Code.handle_exception format_exc start_time end_time e
      = Ok [ SetExecutionResult
               {| success := false; error := Some (exn_str e);
                  traceback := Some (format_exc e);
                  execution_time_ms := Some (Code.elapsed_ms start_time end_time) |};
             AppendErrors ["Execution error: " +:+ exn_str e];
             SetCurrentNode "execute_code";
             AppendNodeHistory ["execute_code"] ])
  \/ (is_Exception e = false
      /\ Code.handle_exception format_exc start_time end_time e = Raise e).
Proof.
  unfold Code.handle_exception. destruct (is_Exception e); [left | right];
    now split.
Qed.

(** C5, as amended.  For a validated code text: an exception of class
    [Exception] raised by the execution, or by the building of the
    envelope of its result, is caught and recorded as [success = False]
    with its text and the traceback; a run that completes without
    binding [result] is recorded as [success = False] with the error
    [No result variable defined]; and every [execution_result] that
    [execute_code] returns carries [execution_time_ms], a thousand times
    the difference of the two clock readings.  [execute_code] returns
    nothing exactly when the execution, or the building of the envelope
    of its result, raises an exception that is not of class
    [Exception]: that exception leaves the node. *)
Theorem execute_code_outcomes (st : GraphState) (code : string) :
  Spec.holds_validated st code ->
  (forall e,
      Spec.raises_in_try py_exec py_str code e ->
      is_Exception e = true ->
      exists u r,
        Code.execute_code py_exec py_str format_exc start_time end_time st = Ok u
        /\ get_execution_result u = Some r
        /\ success r = false
        /\ error r = Some (exn_str e)
        /\ traceback r = Some (format_exc e)
        /\ get_errors u = ["Execution error: " +:+ exn_str e])
  /\ (forall ns,
         py_exec code Code.initial_namespace = Code.Completed ns ->
         ns !! "result" = None ->
         exists u r,
           Code.execute_code py_exec py_str format_exc start_time end_time st = Ok u
           /\ get_execution_result u = Some r
           /\ success r = false
           /\ error r = Some "No result variable defined")
  /\ (forall u,
         Code.execute_code py_exec py_str format_exc start_time end_time st = Ok u ->
         exists r,
           get_execution_result u = Some r
           /\ execution_time_ms r = Some ((end_time - start_time) * 1000)%Q)
  /\ (forall e,
         Code.execute_code py_exec py_str format_exc start_time end_time st = Raise e
         <-> is_Exception e = false /\ Spec.raises_in_try py_exec py_str code e).
Proof.
  intros Hv. rewrite (execute_code_validated st code Hv).
  unfold Spec.raises_in_try.
  split.
  { intros e [-> | (ns & v & -> & Hres & Hn & Henv)] He.
    - rewrite (handle_exception_caught e He).
      eexists. eexists. split; [reflexivity |]. now repeat split.
    - rewrite Hres. cbn [default from_option id]. rewrite Hn, Henv.
      rewrite (handle_exception_caught e He).
      eexists. eexists. split; [reflexivity |]. now repeat split. }
  split.
  { intros ns -> Hres. rewrite Hres. cbn [default from_option id is_none].
    eexists. eexists. split; [reflexivity |]. now repeat split. }
  split.
  { intros u.
    destruct (py_exec code Code.initial_namespace) as [ns | e].
    - destruct (is_none (default PyNone (ns !! "result"))).
      + intros H. injection H as <-. eexists. split; reflexivity.
      + destruct (Code.envelope py_str (default PyNone (ns !! "result")))
          as [rd | e].
        * intros H. injection H as <-. eexists. split; reflexivity.
        * destruct (handle_exception_cases e) as [[_ ->] | [_ ->]];
            [| discriminate].
          intros H. injection H as <-. eexists. split; reflexivity.
    - destruct (handle_exception_cases e) as [[_ ->] | [_ ->]];
        [| discriminate].
      intros H. injection H as <-. eexists. split; reflexivity. }
  intros e.
  destruct (py_exec code Code.initial_namespace) as [ns | e0].
  - destruct (ns !! "result") as [v|] eqn:Hres; cbn [default from_option id].
    + destruct (is_none v) eqn:Hn.
      * split; [discriminate |].
        intros [_ [H | (ns' & v' & H & Hv' & Hn' & _)]]; [discriminate |].
        injection H as <-. rewrite Hres in Hv'. injection Hv' as <-.
        congruence.
      * destruct (Code.envelope py_str v) as [rd | e1] eqn:Henv.
        { split; [discriminate |].
          intros [_ [H | (ns' & v' & H & Hv' & _ & He')]]; [discriminate |].
          injection H as <-. rewrite Hres in Hv'. injection Hv' as <-.
          congruence. }
        destruct (handle_exception_cases e1) as [[He1 ->] | [He1 ->]].
        { split; [discriminate |].
          intros [He [H | (ns' & v' & H & Hv' & _ & He')]]; [discriminate |].
          injection H as <-. rewrite Hres in Hv'. injection Hv' as <-.
          congruence. }
        split.
        { intros H. injection H as <-. split; [exact He1 |].
          right. now exists ns, v. }
        intros [_ [H | (ns' & v' & H & Hv' & _ & He')]]; [discriminate |].
        injection H as <-. rewrite Hres in Hv'. injection Hv' as <-.
        congruence.
    + cbn [is_none]. split; [discriminate |].
      intros [_ [H | (ns' & v' & H & Hv' & _)]]; [discriminate |].
      injection H as <-. congruence.
  - destruct (handle_exception_cases e0) as [[He0 ->] | [He0 ->]].
    + split; [discriminate |].
      intros [He [H | (ns' & v' & H & _)]]; [| discriminate].
      injection H as <-. congruence.
    + split.
      * intros H. injection H as <-. split; [exact He0 | now left].
      * intros [_ [H | (ns' & v' & H & _)]]; [| discriminate].
        now injection H as <-.
Qed.

Lemma convert_none (v : pyval) :
  is_none (Code.convert_to_serializable v) = is_none v.
Proof. destruct v; reflexivity. Qed.

(** The data of an envelope is [None] only for an object whose
    [to_dict] returns [None]. *)
Lemma envelope_data_none (v : pyval) (rd : ResultData) :
  is_none v = false ->
  Code.envelope py_str v = Ok rd ->
  (is_none (rd_data rd) = true
   <-> exists columns shape, v = ToDictObject (Ok PyNone) columns shape).
Proof.
  intros Hn. destruct v; try discriminate; cbn [Code.envelope].
  all: try (cbn [Code.convert_to_serializable Code.is_primitive];
            first [ intros H; injection H as <-
                  | destruct (py_str _); [| discriminate];
                    intros H; injection H as <- ];
            cbn [rd_data is_none Code.convert_to_serializable];
            split; [discriminate | intros (c & sh & E); discriminate]).
  (* an object with to_dict *)
  -
    destruct to_dict as [records | e]; [| discriminate].
    destruct columns_tolist as [columns | e]; [| discriminate].
    destruct shape_list as [shape | e]; [| discriminate].
    intros H; injection H as <-. cbn [rd_data]. rewrite convert_none.
    split.
    + intros H. destruct records; try discriminate. now exists (Ok columns), (Ok shape).
    + intros (c & sh & E). injection E as -> _ _. reflexivity.
Qed.

(** C10, as amended.  For a validated code text whose execution
    completes with [result] bound to [None], [execute_code] returns
    [success = False] with the error [No result variable defined] and
    no [result_data]: exactly what it returns when the execution leaves
    [result] unbound.  Hence an [execution_result] with
    [success = True] always comes with a [result] that is not [None];
    the data of its envelope is [None] only when [result] is an object
    with a [to_dict] attribute whose [to_dict] returns [None]. *)
Theorem execute_code_result_none (st : GraphState) (code : string) :
  Spec.holds_validated st code ->
  (forall ns,
      py_exec code Code.initial_namespace = Code.Completed ns ->
      ns !! "result" = Some PyNone ->
      (exists u r,
          Code.execute_code py_exec py_str format_exc start_time end_time st = Ok u
          /\ get_execution_result u = Some r
          /\ success r = false
          /\ error r = Some "No result variable defined"
          /\ get_result_data u = None)
      /\ Code.execute_code py_exec py_str format_exc start_time end_time st
         = Code.execute_code (fun _ _ => Code.Completed (delete "result" ns))
                             py_str format_exc start_time end_time st)
  /\ (forall u r,
         Code.execute_code py_exec py_str format_exc start_time end_time st = Ok u ->
         get_execution_result u = Some r ->
         success r = true ->
         exists ns v rd,
           py_exec code Code.initial_namespace = Code.Completed ns
           /\ ns !! "result" = Some v
           /\ is_none v = false
           /\ Code.envelope py_str v = Ok rd
           /\ get_result_data u = Some rd
           /\ (is_none (rd_data rd) = true
               <-> exists columns shape,
                     v = ToDictObject (Ok PyNone) columns shape)).
Proof.
  intros Hv. split.
  - intros ns Hex Hres.
    rewrite (execute_code_validated st code Hv), Hex, Hres.
    cbn [default from_option id is_none].
    split; [eexists; eexists; split; [reflexivity | now repeat split] |].
    destruct Hv as (Hgc & Hne & Hcv). unfold Code.execute_code.
    rewrite Hgc, Hcv. destruct code as [|c code]; [now destruct Hne |].
    cbn [truthy_opt_str truthy_str negb orb default from_option id].
    now rewrite lookup_delete_eq.
  - intros u r. rewrite (execute_code_validated st code Hv).
    destruct (py_exec code Code.initial_namespace) as [ns | e] eqn:Hex.
    + destruct (ns !! "result") as [v|] eqn:Hres; cbn [default from_option id].
      * destruct (is_none v) eqn:Hn.
        { intros H; injection H as <-. intros Hr; injection Hr as <-. discriminate. }
        destruct (Code.envelope py_str v) as [rd | e] eqn:Henv.
        { intros H; injection H as <-. intros _ _.
          exists ns, v, rd. split; [reflexivity |]. split; [exact Hres |].
          split; [exact Hn |]. split; [exact Henv |]. split; [reflexivity |].
          exact (envelope_data_none v rd Hn Henv). }
        destruct (handle_exception_cases e) as [[_ ->] | [_ ->]]; [| discriminate].
        intros H; injection H as <-. intros Hr; injection Hr as <-. discriminate.
      * cbn [is_none]. intros H; injection H as <-.
        intros Hr; injection Hr as <-. discriminate.
    + destruct (handle_exception_cases e) as [[_ ->] | [_ ->]]; [| discriminate].
      intros H; injection H as <-. intros Hr; injection Hr as <-. discriminate.
Qed.

End Executor.

(** A text that binds nothing is answered like one that binds [result]
    to [None]. *)
Example execute_code_unbound_result :
  Code.execute_code Sample.exec_binds_nothing Sample.str_opaque Sample.format_exc
    10 (21 # 2) (Sample.validated "results = 1")
  = Code.execute_code (Sample.exec_binds PyNone) Sample.str_opaque Sample.format_exc
      10 (21 # 2) (Sample.validated "results = 1").
Proof. reflexivity. Qed.

Lemma execute_code_outcomes_witness :
  exists u r,
    Code.execute_code Sample.exec_raises Sample.str_opaque Sample.format_exc
      10 (21 # 2) (Sample.validated "result = 1 / 0")
    = Ok u
    /\ get_execution_result u = Some r
    /\ success r = false
    /\ error r = Some "division by zero"
    /\ execution_time_ms r = Some (((21 # 2) - 10) * 1000)%Q.
Proof.
  destruct (execute_code_outcomes Sample.exec_raises Sample.str_opaque
              Sample.format_exc 10 (21 # 2)
              (Sample.validated "result = 1 / 0") "result = 1 / 0")
    as (Hraise & _ & Htime & _).
  - repeat split; [discriminate].
  - destruct (Hraise _ (or_introl eq_refl) eq_refl)
      as (u & r & Hu & Hr & Hs & He & _).
    destruct (Htime u Hu) as (r' & Hr' & Ht).
    exists u, r. split; [exact Hu |]. split; [exact Hr |].
    split; [exact Hs |]. split; [exact He |].
    rewrite Hr in Hr'. injection Hr' as <-. exact Ht.
Defined.

(** C5, as stated, fails: validated code that leaves through
    [SystemExit] is not caught by [except Exception]; [execute_code]
    returns nothing, and no [execution_result] records the failure or
    the time. *)
Lemma execute_code_system_exit_escapes :
  Spec.holds_validated (Sample.validated "result = exit()") "result = exit()"
  /\ Code.execute_code Sample.exec_exits Sample.str_opaque Sample.format_exc
       10 (21 # 2) (Sample.validated "result = exit()")
     = Raise (SystemExit EmptyString)
  /\ returns (Code.execute_code Sample.exec_exits Sample.str_opaque
                Sample.format_exc 10 (21 # 2)
                (Sample.validated "result = exit()"))
     = false.
Proof.
  split; [repeat split; vm_compute; congruence |].
  split; vm_compute; reflexivity.
Qed.

Lemma execute_code_result_none_witness :
  exists u r,
    Code.execute_code (Sample.exec_binds PyNone) Sample.str_opaque Sample.format_exc
      10 (21 # 2) (Sample.validated "result = None")
    = Ok u
    /\ get_execution_result u = Some r
    /\ success r = false
    /\ error r = Some "No result variable defined".
Proof.
  destruct (execute_code_result_none (Sample.exec_binds PyNone) Sample.str_opaque
              Sample.format_exc 10 (21 # 2)
              (Sample.validated "result = None") "result = None")
    as [Hnone _].
  - repeat split; [discriminate].
  - destruct (Hnone _ eq_refl) as [(u & r & Hu & Hr & Hs & He & _) _];
      [reflexivity |].
    exists u, r. now repeat split.
Defined.

(** C10, as stated, fails: a result that is not [None] but whose
    [to_dict] returns [None] takes the data frame branch, and the
    execution is recorded as a success whose envelope carries [None]. *)
Lemma execute_code_to_dict_none :
  exists u r rd,
    Code.execute_code (Sample.exec_binds Sample.to_dict_none) Sample.str_opaque
      Sample.format_exc 10 (21 # 2) (Sample.validated "result = Table()")
    = Ok u
    /\ get_execution_result u = Some r
    /\ success r = true
    /\ get_result_data u = Some rd
    /\ rd_type rd = "dataframe"
    /\ rd_data rd = PyNone.
Proof.
  eexists. eexists. eexists.
  split; [vm_compute; reflexivity |].
  split; [vm_compute; reflexivity |].
  split; [reflexivity |].
  split; [vm_compute; reflexivity |].
  split; reflexivity.
Qed.

(** ** Intent analysis *)

Section IntentAnalysis.

(** The fallback on a failure of the language model, for a state that
    has at least one file: the three defaults, and the failure appended
    to [errors]. *)
Lemma analyze_intent_fallback (msg : string) (st : GraphState)
      (f0 : FileDict) (fs : list FileDict) :
  available_files st = Some (f0 :: fs) ->
  exists u,
    Planning.analyze_intent (Planning.Failed msg) st = Ok u
    /\ get_intent u = Some "query"
    /\ get_operation_type u = Some "single_table"
    /\ get_files_to_use u
       = Some (match filename f0 with
               | Some (String c name) => [String c name]
               | _ => []
               end)
    /\ get_errors u = ["Intent analysis error: " +:+ msg].
Proof.
  intros Hf. unfold Planning.analyze_intent. rewrite Hf.
  cbn [default from_option id].
  eexists. split; [reflexivity |].
  destruct (filename f0) as [[|c name]|]; repeat split; reflexivity.
Qed.

(** C3, at the input on which the code departs from it: with an empty
    list of available files, a failure of the language model makes
    [analyze_intent] raise [IndexError] from inside its handler, so
    that the node returns nothing. *)
Theorem analyze_intent_no_files_raises (msg sid query : string) :
  Planning.analyze_intent (Planning.Failed msg) (create_initial_state sid query [])
  = Raise (IndexError "list index out of range")
  /\ returns (Planning.analyze_intent (Planning.Failed msg)
                (create_initial_state sid query [])) = false.
Proof. split; reflexivity. Qed.

End IntentAnalysis.

(** ** Output nodes *)

Section OutputNodes.

(** C6.  [handle_error] builds its message, which is both the
    explanation and the final response, from [errors] followed by
    [validation_errors]: the fixed opening, one bullet line for each of
    the first three entries in their order, and the fixed closing.
    When both lists are empty the only line is the entry
    [An unknown error occurred during analysis]; the message is never
    empty. *)
Theorem handle_error_message (st : GraphState) :
  exists message,
    get_final_response (Explain.handle_error st) = Some (Some message)
    /\ get_explanation (Explain.handle_error st) = Some message
    /\ message
       = Explain.unable_header
         +:+ join nl (map (fun e => Explain.BULLET +:+ " " +:+ e)
                          (Spec.listed_errors st))
         +:+ Explain.rephrase_footer
    /\ message <> EmptyString
    /\ (errors st ++ validation_errors st <> [] ->
        Spec.listed_errors st = firstn 3 (errors st ++ validation_errors st))
    /\ (errors st = [] -> validation_errors st = [] ->
        Spec.listed_errors st = ["An unknown error occurred during analysis"])
    /\ (length (Spec.listed_errors st) <= 3)%nat
    /\ (1 <= length (Spec.listed_errors st))%nat.
Proof.
  unfold Explain.handle_error, Spec.listed_errors.
  destruct (errors st ++ validation_errors st) as [|e all] eqn:E.
  - eexists. split; [reflexivity |]. split; [reflexivity |].
    split; [reflexivity |]. split; [discriminate |].
    split; [intros H; now destruct H |].
    split; [reflexivity |]. simpl. lia.
  - eexists. split; [reflexivity |]. split; [reflexivity |].
    split; [reflexivity |]. split; [discriminate |].
    split; [reflexivity |].
    split.
    { intros H1 H2. rewrite H1, H2 in E. discriminate. }
    split.
    + apply firstn_le_length.
    + simpl. lia.
Qed.

Lemma response_before_summary (st : GraphState) :
  explanation st <> None \/ errors st <> [] ->
  (if (match errors st with [] => false | _ => true end)
      && negb (truthy_opt_str (explanation st))
   then Some (Explain.issues_header
              +:+ join nl (map (fun e => "- " +:+ e) (errors st)))
   else explanation st)
  = Some (Spec.base_response st).
Proof.
  unfold Spec.base_response, Spec.issues_list. intros H.
  destruct (explanation st) as [[|c e]|]; destruct (errors st) as [|x es];
    try reflexivity.
  destruct H as [H | H]; now destruct H.
Qed.


(** Of four recorded errors the message lists the first three. *)
Example handle_error_four_errors :
  get_final_response (Explain.handle_error Sample.four_errors)
  = Some (Some (Explain.unable_header
                +:+ Explain.BULLET +:+ " e1" +:+ nl
                +:+ Explain.BULLET +:+ " e2" +:+ nl
                +:+ Explain.BULLET +:+ " v1"
                +:+ Explain.rephrase_footer)).
Proof. reflexivity. Qed.

(** With no explanation at all and no error, a tabular result makes
    [return_chat] raise: the summary line is added to [None]. *)
Lemma return_chat_none_explanation_raises :
  exists e,
    Explain.return_chat
      (merge Sample.fresh
         [SetResultData
            {| rd_type := "dataframe";
               rd_data := PyList [PyDict [("region", PyInt 1)]];
               rd_columns := Some (PyList [PyStr "region"]);
               rd_shape := Some (PyList [PyInt 1; PyInt 1]) |}])
    = Raise e.
Proof. eexists. reflexivity. Qed.

End OutputNodes.



(** ** The workflow *)

Section Workflow.

Import Graph.

Lemma apply_assign_retry_count (st : GraphState) (a : assign) :
  (match a with SetRetryCount _ => false | _ => true end) = true ->
  retry_count (apply_assign st a) = retry_count st.
Proof. destruct st, a; simpl; intros H; (reflexivity || discriminate). Qed.

Lemma merge_retry_count (u : update) (st : GraphState) :
  writes_retry_count u = false ->
  retry_count (merge st u) = retry_count st.
Proof.
  unfold merge, writes_retry_count. revert st.
  induction u as [|a u IH]; intros st H; simpl in *; [reflexivity |].
  apply orb_false_iff in H as [Ha Hu].
  rewrite (IH _ Hu). apply apply_assign_retry_count.
  destruct a; (reflexivity || discriminate).
Qed.

Lemma merge_increment_retry (st : GraphState) :
  retry_count (merge st (increment_retry st)) = retry_count st + 1.
Proof. destruct st; reflexivity. Qed.

Lemma validate_code_keeps_retry (py_compile : string -> option exn)
      (st : GraphState) (u : update) :
  Code.validate_code py_compile st = Ok u -> writes_retry_count u = false.
Proof.
  unfold Code.validate_code.
  destruct (negb (truthy_opt_str (generated_code st)));
    [intros H; injection H as <-; reflexivity |].
  destruct (Code.collect_errors py_compile _) as [[|e errs]|]; [| | discriminate];
    intros H; injection H as <-; reflexivity.
Qed.

Lemma handle_exception_keeps_retry format_exc t0 t1 (e : exn) (u : update) :
  Code.handle_exception format_exc t0 t1 e = Ok u -> writes_retry_count u = false.
Proof.
  unfold Code.handle_exception. destruct (is_Exception e); [| discriminate].
  intros H; injection H as <-; reflexivity.
Qed.

Lemma execute_code_keeps_retry py_exec py_str format_exc t0 t1
      (st : GraphState) (u : update) :
  Code.execute_code py_exec py_str format_exc t0 t1 st = Ok u ->
  writes_retry_count u = false.
Proof.
  unfold Code.execute_code.
  destruct (negb (truthy_opt_str (generated_code st)) || negb (code_valid st));
    [intros H; injection H as <-; reflexivity |].
  destruct (py_exec _ _); [| apply handle_exception_keeps_retry].
  destruct (is_none _); [intros H; injection H as <-; reflexivity |].
  destruct (Code.envelope _ _); [| apply handle_exception_keeps_retry].
  intros H; injection H as <-; reflexivity.
Qed.

Lemma analyze_intent_keeps_retry reply (st : GraphState) (u : update) :
  Planning.analyze_intent reply st = Ok u -> writes_retry_count u = false.
Proof.
  unfold Planning.analyze_intent. destruct reply as [i o f | msg | e].
  - intros H. injection H as <-. reflexivity.
  - destruct (default _ (available_files st)) as [|f0 fs]; [discriminate |].
    intros H. injection H as <-. reflexivity.
  - discriminate.
Qed.

Lemma return_chat_keeps_retry (st : GraphState) (u : update) :
  Explain.return_chat st = Ok u -> writes_retry_count u = false.
Proof.
  unfold Explain.return_chat.
  destruct (result_data st) as [rd|].
  - destruct (String.eqb (rd_type rd) "dataframe").
    + destruct (py_truthy (rd_data rd)) as [[|]|]; try discriminate.
      * destruct (py_len (rd_data rd)); [| discriminate].
        destruct (Explain.add_summary _ _); [| discriminate].
        intros H. injection H as <-. reflexivity.
      * intros H. injection H as <-. reflexivity.
    + intros H. injection H as <-. reflexivity.
  - intros H. injection H as <-. reflexivity.
Qed.

(** Only [increment_retry] changes the retry counter. *)
Lemma node_returns_retry_count (n : Node.t) (st : GraphState) (u : update) :
  node_returns n st u ->
  retry_count (merge st u)
  = if Node.eqb n Node.increment_retry then retry_count st + 1 else retry_count st.
Proof.
  destruct n; simpl; intros H;
    try (apply merge_retry_count; exact H).
  - destruct H as [reply H]. apply merge_retry_count.
    eapply analyze_intent_keeps_retry; exact H.
  - destruct H as [reply H]. apply merge_retry_count.
    destruct reply; try discriminate; now injection H as <-.
  - subst u. apply merge_increment_retry.
  - destruct H as [py_compile H]. apply merge_retry_count.
    eapply validate_code_keeps_retry; exact H.
  - destruct H as (py_exec & py_str & format_exc & t0 & t1 & H).
    apply merge_retry_count. eapply execute_code_keeps_retry; exact H.
  - apply merge_retry_count. eapply return_chat_keeps_retry; exact H.
  - subst u. apply merge_retry_count. reflexivity.
Qed.

Lemma next_validate_code (st : GraphState) :
  next Node.validate_code st
  = Ok (Goto (if code_valid st then Node.execute_code
              else if retry_count st <? 2 then Node.increment_retry
                   else Node.handle_error)).
Proof.
  unfold next. simpl. unfold check_code_validity.
  destruct (code_valid st); [reflexivity |].
  destruct (retry_count st <? 2); reflexivity.
Qed.

Lemma next_execute_code (st : GraphState) (n' : Node.t) :
  next Node.execute_code st = Ok (Goto n') ->
  exists r, execution_result st = Some r
            /\ n' = if success r then Node.trend_analysis else Node.handle_error.
Proof.
  unfold next. simpl. unfold check_execution_success.
  destruct (execution_result st) as [r|]; [| discriminate].
  exists r. split; [reflexivity |].
  destruct (success r); simpl in H; now injection H as <-.
Qed.

Lemma next_plan_analysis (st : GraphState) (n' : Node.t) :
  next Node.plan_analysis st = Ok (Goto n') ->
  n' = Node.align_timeseries \/ n' = Node.generate_code.
Proof.
  unfold next. simpl. unfold should_align_timeseries.
  destruct (operation_type st) as [ot|].
  - destruct (String.eqb ot "cross_table" || String.eqb ot "temporal").
    + destruct (plan st) as [[p | type_name]|]; try discriminate.
      destruct (time_alignment_needed p); simpl; intros H; injection H as <-; tauto.
    + simpl; intros H; injection H as <-; tauto.
  - simpl; intros H; injection H as <-; tauto.
Qed.

Lemma visits_snoc (n m : Node.t) (h : list Node.t) :
  visits n (h ++ [m]) = (visits n h + if Node.eqb m n then 1 else 0)%nat.
Proof.
  unfold visits. rewrite List.filter_app, length_app. simpl.
  destruct (Node.eqb m n); reflexivity.
Qed.

(** The invariant of the retry loop. *)
Lemma run_position_ok (h : list Node.t) (n : Node.t) (st : GraphState) :
  run h n st -> Spec.position_ok h n (retry_count st).
Proof.
  induction 1 as [ph pe sid query files | h n st u n' Hrun IH Hret Hnext].
  - unfold Spec.position_ok, visits. simpl. lia.
  - pose proof (node_returns_retry_count n st u Hret) as Hrc.
    unfold Spec.position_ok in *.
    rewrite visits_snoc, length_app, !Nat2Z.inj_add. simpl length.
    destruct IH as [Hb IH].
    destruct n; simpl in Hrc, IH; rewrite Hrc;
      try (unfold next in Hnext; simpl in Hnext; discriminate);
      try (unfold next in Hnext; simpl in Hnext; injection Hnext as <-;
           simpl; lia).
    + apply next_plan_analysis in Hnext as [-> | ->]; simpl; lia.
    + rewrite next_validate_code in Hnext. injection Hnext as <-.
      rewrite Hrc.
      destruct (code_valid (merge st u)); [simpl; lia |].
      destruct (retry_count st <? 2) eqn:E;
        [apply Z.ltb_lt in E | apply Z.ltb_ge in E]; simpl; lia.
    + apply next_execute_code in Hnext as (r & _ & ->).
      destruct (success r); simpl; lia.
Qed.

Lemma run_snoc_inv (h : list Node.t) (m n : Node.t) (st : GraphState) :
  run (h ++ [m]) n st ->
  exists st0 u,
    run h m st0 /\ node_returns m st0 u /\ st = merge st0 u
    /\ next m (merge st0 u) = Ok (Goto n).
Proof.
  intros H.
  inversion H as [ph pe sid query files E | h0 m0 st0 u n0 Hrun Hret Hnext E].
  - now destruct h.
  - apply app_inj_tail in E as [-> ->]. now exists st0, u.
Qed.

(** C1.  After [validate_code] the workflow goes to [execute_code] when
    [code_valid] is true; otherwise to [increment_retry] when
    [retry_count < 2], which adds exactly 1 to [retry_count] and leads
    back to [generate_code] whatever the state; otherwise to
    [handle_error].  Consequently, in every run the retry counter stays
    between 0 and 2, it is 2 when [handle_error] is reached from
    [validate_code], [generate_code] runs at most 3 times, and no run
    is longer than 17 nodes before [return_chat]. *)
Theorem retry_loop_bounded :
  (forall st,
      next Node.validate_code st
      = Ok (Goto (if code_valid st then Node.execute_code
                  else if retry_count st <? 2 then Node.increment_retry
                       else Node.handle_error)))
  /\ (forall st, retry_count (merge st (increment_retry st)) = retry_count st + 1)
  /\ (forall st, next Node.increment_retry st = Ok (Goto Node.generate_code))
  /\ (forall h n st, run h n st -> 0 <= retry_count st <= 2)
  /\ (forall h st,
         run (h ++ [Node.validate_code]) Node.handle_error st ->
         retry_count st = 2)
  /\ (forall h n st,
         run h n st -> (visits Node.generate_code (h ++ [n]) <= 3)%nat)
  /\ (forall h n st, run h n st -> (length h <= 17)%nat).
Proof.
  split; [exact next_validate_code |].
  split; [exact merge_increment_retry |].
  split; [reflexivity |].
  split.
  { intros h n st H. apply run_position_ok in H. exact (proj1 H). }
  split.
  { intros h st H.
    pose proof (run_position_ok _ _ _ H) as [Hb _].
    apply run_snoc_inv in H as (st0 & u & _ & _ & -> & Hnext).
    rewrite next_validate_code in Hnext. injection Hnext as Hn.
    destruct (code_valid (merge st0 u)); [discriminate |].
    destruct (retry_count (merge st0 u) <? 2) eqn:E; [discriminate |].
    apply Z.ltb_ge in E. lia. }
  split.
  { intros h n st H. apply run_position_ok in H.
    unfold Spec.position_ok in H. rewrite visits_snoc.
    destruct n; simpl in *; lia. }
  intros h n st H. apply run_position_ok in H.
  unfold Spec.position_ok in H. destruct n; simpl in *; lia.
Qed.

(** Taking one step of a run: [tac] shows that the node can return
    [u]. *)
Ltac advance R u tac :=
  lazymatch type of R with
  | run ?h ?n ?st =>
      let R' := fresh "R" in
      eassert (R' : run (h ++ [n]) _ (merge st u))
        by (apply (run_step h n st u); [exact R | tac | vm_compute; reflexivity]);
      clear R; rename R' into R
  end.

(** A run in which the model answers three times with a text that the
    validator rejects: it makes three attempts, then reaches
    [handle_error] from [validate_code] with a retry counter of 2. *)
Lemma run_three_attempts :
  exists h st,
    run (h ++ [Node.validate_code]) Node.handle_error st
    /\ visits Node.generate_code h = 3%nat
    /\ retry_count st = 2.
Proof.
  pose proof (run_start [] [] "s1" "total revenue by region" []) as R.
  advance R (@nil assign) ltac:(reflexivity).
  advance R (@nil assign) ltac:(reflexivity).
  advance R (@nil assign) ltac:(reflexivity).
  advance R [ SetIntent "query"; SetOperationType "single_table";
              SetFilesToUse []; SetCurrentNode "analyze_intent";
              AppendNodeHistory ["analyze_intent"] ]
          ltac:(exists (Planning.Parsed None None None); reflexivity).
  advance R (@nil assign) ltac:(reflexivity).
  do 2 (
    advance R [ SetGeneratedCode (Some "import os");
                SetCurrentNode "generate_code";
                AppendNodeHistory ["generate_code"] ]
            ltac:(exists (Code.Generated "import os"); reflexivity);
    advance R [ SetCodeValid false;
                SetValidationErrors
                  [ "Forbidden pattern detected: import os";
                    "Code must define a 'result' variable" ];
                SetCurrentNode "validate_code";
                AppendNodeHistory ["validate_code"] ]
            ltac:(exists (fun _ => None); vm_compute; reflexivity);
    lazymatch type of R with
    | run _ _ ?st =>
        advance R [ SetRetryCount (retry_count st + 1);
                    AppendNodeHistory ["increment_retry"] ]
                ltac:(reflexivity)
    end).
  advance R [ SetGeneratedCode (Some "import os");
              SetCurrentNode "generate_code";
              AppendNodeHistory ["generate_code"] ]
          ltac:(exists (Code.Generated "import os"); reflexivity).
  advance R [ SetCodeValid false;
              SetValidationErrors
                [ "Forbidden pattern detected: import os";
                  "Code must define a 'result' variable" ];
              SetCurrentNode "validate_code";
              AppendNodeHistory ["validate_code"] ]
          ltac:(exists (fun _ => None); vm_compute; reflexivity).
  eexists. eexists. split; [exact R |]. split; vm_compute; reflexivity.
Qed.

Lemma successors_after_execution (n m : Node.t) :
  n = Node.execute_code \/ Spec.after_execution n ->
  In m (successors n) ->
  Spec.after_execution m.
Proof.
  unfold Spec.after_execution.
  intros [-> | [-> | [-> | [-> | ->]]]]; simpl; intuition congruence.
Qed.

Lemma reachable_after_execution (n k : Node.t) :
  reachable n k ->
  n = Node.execute_code \/ Spec.after_execution n ->
  k = Node.execute_code \/ Spec.after_execution k.
Proof.
  induction 1 as [n | n m k Hin Hreach IH]; intros Hn; [exact Hn |].
  apply IH. right. exact (successors_after_execution n m Hn Hin).
Qed.

Lemma run_after_execution (h : list Node.t) (n : Node.t) (st : GraphState) :
  run h n st -> In Node.execute_code h -> Spec.after_execution n.
Proof.
  induction 1 as [sid query files | h n st u n' Hrun IH Hret Hnext];
    intros Hin; [now destruct Hin |].
  apply in_app_or in Hin as [Hin | [-> | []]].
  - apply (successors_after_execution n n'); [right; exact (IH Hin) |].
    destruct (IH Hin) as [-> | [-> | [-> | ->]]];
      unfold next in Hnext; simpl in Hnext;
      (discriminate || (injection Hnext as <-; simpl; tauto)).
  - apply next_execute_code in Hnext as (r & _ & ->).
    unfold Spec.after_execution. destruct (success r); tauto.
Qed.

(** C4.  After [execute_code] the workflow goes to [trend_analysis]
    when [execution_result.success] is true, and from there to
    [explain_result] whatever the state; when it is false it goes
    straight to [handle_error], and from there to [return_chat].
    Code is never generated again after an execution: no path of the
    graph leads from [execute_code] to [generate_code], whose only
    predecessors are [plan_analysis], [align_timeseries] and
    [increment_retry], itself entered from [validate_code] only; and in
    every run, once [execute_code] has run, the only nodes that run are
    [trend_analysis], [explain_result], [handle_error] and
    [return_chat]. *)
Theorem execution_routing :
  (forall st r,
      execution_result st = Some r ->
      next Node.execute_code st
      = Ok (Goto (if success r then Node.trend_analysis else Node.handle_error)))
  /\ (forall st, next Node.trend_analysis st = Ok (Goto Node.explain_result))
  /\ (forall st, next Node.handle_error st = Ok (Goto Node.return_chat))
  /\ (forall h n st,
         run (h ++ [Node.execute_code]) n st ->
         exists r,
           execution_result st = Some r
           /\ n = if success r then Node.trend_analysis else Node.handle_error)
  /\ (reachable Node.execute_code Node.generate_code -> False)
  /\ (forall n,
         In Node.generate_code (successors n) ->
         n = Node.plan_analysis \/ n = Node.align_timeseries
         \/ n = Node.increment_retry)
  /\ (forall n, In Node.increment_retry (successors n) -> n = Node.validate_code)
  /\ (forall h n st,
         run h n st ->
         In Node.execute_code h ->
         Spec.after_execution n).
Proof.
  split.
  { intros st r Hr. unfold next. simpl. unfold check_execution_success.
    rewrite Hr. destruct (success r); reflexivity. }
  split; [reflexivity |]. split; [reflexivity |].
  split.
  { intros h n st H.
    apply run_snoc_inv in H as (st0 & u & _ & _ & -> & Hnext).
    exact (next_execute_code _ _ Hnext). }
  split.
  { intros H. apply reachable_after_execution in H; [| now left].
    unfold Spec.after_execution in H. intuition discriminate. }
  split.
  { intros n. destruct n; simpl; intuition discriminate. }
  split.
  { intros n. destruct n; simpl; intuition discriminate. }
  exact run_after_execution.
Qed.

End Workflow.

(** ** The analysis cache key *)

Section Rendering.

#[local] Arguments String.append !_ _ / : simpl nomatch.

(** What [str] makes of an integer is not empty and has no comma. *)
Lemma pretty_N_char_no_comma (n : N) :
  Ascii.eqb ","%char (pretty_N_char n) = false.
Proof. unfold pretty_N_char. repeat case_match; reflexivity. Qed.

Lemma pretty_N_go_plain (x : N) (s : string) :
  contains "," s = false ->
  contains "," (pretty_N_go x s) = false
  /\ (s <> EmptyString \/ (0 < x)%N -> pretty_N_go x s <> EmptyString).
Proof.
  revert s. induction (N.lt_wf_0 x) as [x _ IH]; intros s Hs.
  destruct (N.eq_dec x 0%N) as [-> | Hx].
  - rewrite pretty_N_go_0. split; [exact Hs |].
    intros [H | H]; [exact H | lia].
  - rewrite pretty_N_go_step by lia.
    destruct (IH (x `div` 10)%N) with (s := String (pretty_N_char (x `mod` 10)) s)
      as [Hc Hne].
    + apply N.div_lt; lia.
    + cbn [contains starts_with]. rewrite pretty_N_char_no_comma. exact Hs.
    + split; [exact Hc |]. intros _. apply Hne. left. discriminate.
Qed.

Lemma pretty_Z_plain (z : Z) :
  contains "," (pretty z) = false /\ pretty z <> EmptyString.
Proof.
  assert (HN : forall p, contains "," (pretty (Npos p)) = false
                         /\ pretty (Npos p) <> EmptyString).
  { intros p. unfold pretty, pretty_N.
    destruct (decide (N.pos p = 0%N)); [discriminate |].
    destruct (pretty_N_go_plain (N.pos p) EmptyString eq_refl) as [Hc Hne].
    split; [exact Hc | apply Hne; right; lia]. }
  destruct z as [|p|p].
  - split; [reflexivity | discriminate].
  - exact (HN p).
  - unfold pretty, pretty_Z. destruct (HN p) as [Hc _].
    change (pretty_positive p) with (pretty (Npos p)).
    split; [| discriminate].
    simpl. exact Hc.
Qed.

Lemma no_comma_inside (a b y : string) :
  contains "," a = false -> a = b +:+ "," +:+ y -> False.
Proof.
  intros Hc ->. rewrite contains_app in Hc. discriminate.
Qed.

Lemma split_at_comma (a b x y : string) :
  contains "," a = false -> contains "," b = false ->
  a +:+ "," +:+ x = b +:+ "," +:+ y -> a = b /\ x = y.
Proof.
  revert b. induction a as [|c a IH]; intros [|d b] Ha Hb E.
  - simpl in E. injection E as E. now split.
  - exfalso. simpl in E. injection E as <- _.
    simpl in Hb. discriminate.
  - exfalso. simpl in E. injection E as -> _.
    simpl in Ha. discriminate.
  - simpl in E. injection E as <- E.
    simpl in Ha, Hb.
    apply orb_false_iff in Ha as [_ Ha]. apply orb_false_iff in Hb as [_ Hb].
    destruct (IH b Ha Hb E) as [-> ->]. now split.
Qed.

Lemma join_plain_inj (l1 l2 : list string) :
  Forall (fun s => contains "," s = false /\ s <> EmptyString) l1 ->
  Forall (fun s => contains "," s = false /\ s <> EmptyString) l2 ->
  join ", " l1 = join ", " l2 -> l1 = l2.
Proof.
  assert (Hnil : forall l,
             Forall (fun s => contains "," s = false /\ s <> EmptyString) l ->
             join ", " l = EmptyString -> l = []).
  { intros [|p [|q r]] H E; [reflexivity | |].
    - apply Forall_cons_iff in H as [[_ Hp] _]. simpl in E. contradiction.
    - apply Forall_cons_iff in H as [[_ Hp] _].
      cbn [join] in E. destruct p; [now destruct Hp | discriminate]. }
  intros H1. revert l2. induction H1 as [|p r1 [Hp Hpn] H1 IH]; intros l2 H2 E.
  - symmetry. apply Hnil; [exact H2 | now rewrite <- E].
  - destruct H2 as [|q r2 [Hq Hqn] H2].
    + exfalso. assert (Hx : p :: r1 = []) by
        (apply Hnil; [constructor; [now split | exact H1] | exact E]).
      discriminate.
    + destruct r1 as [|p' r1], r2 as [|q' r2]; cbn [join] in E.
      * now subst.
      * exfalso. exact (no_comma_inside _ _ _ Hp E).
      * exfalso. symmetry in E. exact (no_comma_inside _ _ _ Hq E).
      * change (", " +:+ join ", " (p' :: r1))
          with ("," +:+ (" " +:+ join ", " (p' :: r1))) in E.
        change (", " +:+ join ", " (q' :: r2))
          with ("," +:+ (" " +:+ join ", " (q' :: r2))) in E.
        destruct (split_at_comma _ _ _ _ Hp Hq E) as [-> E'].
        simpl in E'. injection E' as E'.
        f_equal. exact (IH _ H2 E').
Qed.

(** [str] of a list of integers determines the list. *)
Lemma str_of_list_inj (l1 l2 : list Z) :
  Cache.str_of_list l1 = Cache.str_of_list l2 -> l1 = l2.
Proof.
  unfold Cache.str_of_list. intros E. simpl in E. injection E as E.
  apply append_length_inj in E as [E _]; [| reflexivity].
  apply join_plain_inj in E.
  - revert l2 E. induction l1 as [|x l1 IH]; intros [|y l2] E;
      try discriminate; [reflexivity |].
    simpl in E. injection E as Hx E.
    apply (inj pretty) in Hx. subst. f_equal. now apply IH.
  - apply List.Forall_forall. intros s Hin. apply in_map_iff in Hin as (z & <- & _).
    apply pretty_Z_plain.
  - apply List.Forall_forall. intros s Hin. apply in_map_iff in Hin as (z & <- & _).
    apply pretty_Z_plain.
Qed.

End Rendering.

Section CacheKey.

Variable md5_hexdigest : string -> string.

Lemma insert_sorted_comm (x y : Z) (l : list Z) :
  Cache.insert_sorted x (Cache.insert_sorted y l)
  = Cache.insert_sorted y (Cache.insert_sorted x l).
Proof.
  induction l as [|a l IH]; simpl.
  - destruct (Z.leb_spec x y), (Z.leb_spec y x); try reflexivity;
      [f_equal; [lia | f_equal; lia] | lia].
  - destruct (Z.leb_spec y a), (Z.leb_spec x a); simpl;
      repeat match goal with
             | |- context [?u <=? ?v] => destruct (Z.leb_spec u v); simpl
             end;
      try lia; try reflexivity.
    + f_equal; [lia | f_equal; lia].
    + now rewrite IH.
Qed.

(** The order of the file ids does not matter to [sorted]. *)
Lemma sorted_permutation (l1 l2 : list Z) :
  Permutation l1 l2 -> Cache.sorted l1 = Cache.sorted l2.
Proof.
  induction 1 as [| x l1 l2 _ IH | x y l | l1 l2 l3 _ IH1 _ IH2]; simpl.
  - reflexivity.
  - now rewrite IH.
  - apply insert_sorted_comm.
  - now rewrite IH1.
Qed.

Lemma insert_sorted_Permutation (x : Z) (l : list Z) :
  Permutation (x :: l) (Cache.insert_sorted x l).
Proof.
  induction l as [|a l IH]; simpl; [reflexivity |].
  destruct (x <=? a); [reflexivity |].
  rewrite perm_swap. now apply perm_skip.
Qed.

Lemma insert_sorted_Sorted (x : Z) (l : list Z) :
  Sorted Z.le l -> Sorted Z.le (Cache.insert_sorted x l).
Proof.
  induction 1 as [|a l Hs IH Hhd]; simpl.
  - repeat constructor.
  - destruct (Z.leb_spec x a).
    + constructor; [now constructor | now constructor].
    + constructor; [exact IH |].
      destruct Hhd as [|b l Hab]; simpl.
      * constructor; lia.
      * destruct (x <=? b); constructor; lia.
Qed.

Lemma sorted_Sorted (l : list Z) :
  Sorted Z.le (Cache.sorted l) /\ Permutation l (Cache.sorted l).
Proof.
  induction l as [|x l [IHs IHp]]; simpl; [split; constructor |].
  split; [now apply insert_sorted_Sorted |].
  rewrite <- insert_sorted_Permutation. now apply perm_skip.
Qed.

(** C8, as amended.  The key under which an analysis result is cached
    is the text [analysis:], the session id in clear, a colon, and the
    first 16 characters of the digest of the query text as it was
    given, a colon and the list of the file ids in ascending order, as
    [str] renders it.  For file-id lists that are permutations of each
    other [get_analysis_result] and [set_analysis_result] therefore
    compute, and send to the server, one and the same key; for one
    query, lists that are not permutations of each other are digested
    from different texts. *)
Theorem analysis_key_permutation (session_id query : string)
        (ids1 ids2 : list Z) :
  Permutation ids1 ids2 ->
  Cache.get_analysis_result_key md5_hexdigest session_id query ids1
  = Cache.set_analysis_result_key md5_hexdigest session_id query ids2
  /\ Cache.get_analysis_result_key md5_hexdigest session_id query ids1
     = Cache.get_analysis_result_key md5_hexdigest session_id query ids2
  /\ Cache.set_analysis_result_key md5_hexdigest session_id query ids1
     = Cache.set_analysis_result_key md5_hexdigest session_id query ids2
  /\ Cache.get_analysis_result_key md5_hexdigest session_id query ids1
     = "analysis:" +:+ session_id +:+ ":"
       +:+ String.substring 0 16
             (md5_hexdigest
                (query +:+ ":"
                 +:+ "[" +:+ join ", " (map (fun z : Z => pretty z) (Cache.sorted ids1))
                 +:+ "]"))
  /\ Sorted Z.le (Cache.sorted ids1)
  /\ Permutation ids1 (Cache.sorted ids1)
  /\ (forall ids3,
         query +:+ ":" +:+ Cache.str_of_list (Cache.sorted ids1)
         = query +:+ ":" +:+ Cache.str_of_list (Cache.sorted ids3) ->
         Permutation ids1 ids3)
  /\ (forall now r serialized,
         Redis.served
           (default Redis.empty
              (snd (Cache.get_analysis_result md5_hexdigest now (Some r)
                      session_id query ids1)))
         = Redis.served r
           ++ [Redis.GET (Cache.get_analysis_result_key md5_hexdigest
                            session_id query ids2)]
         /\ Redis.served
              (default Redis.empty
                 (snd (Cache.set_analysis_result md5_hexdigest now (Some r)
                         session_id query ids2 serialized)))
            = Redis.served r
              ++ [Redis.SETEX (Cache.get_analysis_result_key md5_hexdigest
                                 session_id query ids1)
                              Cache.ANALYSIS_RESULT_TTL serialized]).
Proof.
  intros Hperm.
  assert (Hkey : Cache.get_analysis_result_key md5_hexdigest session_id query ids1
                 = Cache.get_analysis_result_key md5_hexdigest session_id query ids2).
  { unfold Cache.get_analysis_result_key, Cache._hash_query.
    now rewrite (sorted_permutation _ _ Hperm). }
  split; [exact Hkey |]. split; [exact Hkey |]. split; [exact Hkey |].
  split; [reflexivity |].
  split; [apply sorted_Sorted |]. split; [apply sorted_Sorted |].
  split.
  { intros ids3 E. apply append_inj_l in E. apply (append_inj_l ":") in E.
    apply str_of_list_inj in E.
    rewrite (proj2 (sorted_Sorted ids1)), E.
    symmetry. apply sorted_Sorted. }
  intros now r serialized. split.
  - unfold Cache.get_analysis_result. simpl. now rewrite Hkey.
  - unfold Cache.set_analysis_result. simpl.
    unfold Cache.set_analysis_result_key.
    fold (Cache.get_analysis_result_key md5_hexdigest session_id query ids2).
    now rewrite Hkey.
Qed.

End CacheKey.

Lemma analysis_key_permutation_witness :
  Cache.get_analysis_result_key Sample.digest_identity "s1" "total revenue" [3; 1; 2]
  = Cache.set_analysis_result_key Sample.digest_identity "s1" "total revenue" [2; 3; 1]
  /\ Cache.get_analysis_result_key Sample.digest_identity "s1" "total revenue" [3; 1; 2]
     = "analysis:s1:total revenue:[1".
Proof.
  destruct (analysis_key_permutation Sample.digest_identity "s1" "total revenue"
              [3; 1; 2] [2; 3; 1]) as (H1 & _ & _ & H4 & _).
  - apply Permutation_sym, perm_trans with (l' := [3; 2; 1]).
    + apply perm_swap.
    + apply perm_skip, perm_swap.
  - split; [exact H1 |]. rewrite H4. vm_compute. reflexivity.
Defined.

(** C8, as stated, fails: the session id is not digested but stands in
    the key in clear, and the query is digested as it was given, not in
    a normal form: two queries that differ only in the case of a letter
    are digested from different texts, and have different keys under a
    digest that tells these texts apart. *)
Lemma analysis_key_query_as_given :
  Cache.get_analysis_result_key Sample.digest_identity "s1" "Revenue" [2; 1]
  = "analysis:s1:Revenue:[1, 2]"
  /\ Cache.get_analysis_result_key Sample.digest_identity "s1" "revenue" [2; 1]
     = "analysis:s1:revenue:[1, 2]"
  /\ lower "Revenue" = lower "revenue"
  /\ (forall md5_hexdigest session_id query,
         Cache.get_analysis_result_key md5_hexdigest session_id query [2; 1]
         = "analysis:" +:+ session_id +:+ ":"
           +:+ String.substring 0 16 (md5_hexdigest (query +:+ ":[1, 2]"))).
Proof.
  split; [vm_compute; reflexivity |]. split; [vm_compute; reflexivity |].
  split; [reflexivity |].
  intros md5_hexdigest session_id query. reflexivity.
Qed.

(** ** The rate limiter *)

Section RateLimiter.

Variable identifier : string.
Variables limit window_seconds : Z.

Let key := Cache.ratelimit_key identifier.

Lemma incr_counting (now : Z) (r : Redis.t) (n e : Z) :
  Spec.counting r key n e ->
  now < e ->
  Redis.incr now r key
  = (Some (n + 1),
     {| Redis.store :=
          <[key := {| Redis.held := Redis.VInt (n + 1);
                      Redis.expires_at := Some e |}]> (Redis.store r);
        Redis.served := Redis.served r ++ [Redis.INCR key] |}).
Proof.
  unfold Spec.counting, Redis.incr, Redis.live, Redis.expired. intros H Hlt.
  rewrite H. simpl.
  destruct (Z.leb_spec e now); [lia | reflexivity].
Qed.

Lemma incr_fresh (now : Z) (r : Redis.t) :
  Redis.live now r key = None ->
  Redis.incr now r key
  = (Some 1,
     {| Redis.store :=
          <[key := {| Redis.held := Redis.VInt 1;
                      Redis.expires_at := None |}]> (Redis.store r);
        Redis.served := Redis.served r ++ [Redis.INCR key] |}).
Proof. unfold Redis.incr. now intros ->. Qed.

(** A call that opens a window: the counter starts at 1 and its expiry
    is set. *)
Lemma check_rate_limit_fresh (now : Z) (r : Redis.t) :
  0 < window_seconds ->
  Redis.live now r key = None ->
  exists r',
    Cache.check_rate_limit now (Some r) identifier limit window_seconds
    = (Spec.answer limit 1, Some r')
    /\ Spec.counting r' key 1 (now + window_seconds)
    /\ Redis.served r'
       = Redis.served r ++ [Redis.INCR key; Redis.EXPIRE key window_seconds].
Proof.
  intros Hw Hfresh. unfold Cache.check_rate_limit. fold key.
  rewrite (incr_fresh now r Hfresh).
  change (1 =? 1) with true. cbv iota.
  eexists. split; [reflexivity |].
  unfold Spec.counting, Redis.expire, Redis.live. simpl.
  rewrite lookup_insert_eq. simpl.
  destruct (Z.leb_spec window_seconds 0); [lia |].
  split; [now rewrite lookup_insert_eq |].
  now rewrite <- app_assoc.
Qed.

(** A call inside the window: the counter goes up by one and the
    expiry is left alone. *)
Lemma check_rate_limit_counting (now : Z) (r : Redis.t) (n e : Z) :
  1 <= n ->
  Spec.counting r key n e ->
  now < e ->
  exists r',
    Cache.check_rate_limit now (Some r) identifier limit window_seconds
    = (Spec.answer limit (n + 1), Some r')
    /\ Spec.counting r' key (n + 1) e
    /\ Redis.served r' = Redis.served r ++ [Redis.INCR key].
Proof.
  intros Hn Hc Hlt. unfold Cache.check_rate_limit. fold key.
  rewrite (incr_counting now r n e Hc Hlt).
  destruct (Z.eqb_spec (n + 1) 1); [lia |].
  eexists. split; [reflexivity |].
  split; [| reflexivity].
  unfold Spec.counting. simpl. now rewrite lookup_insert_eq.
Qed.

Lemma check_rate_limit_calls_counting (ts : list Z) (r : Redis.t) (n e : Z) :
  1 <= n ->
  Spec.counting r key n e ->
  Forall (fun t => t < e) ts ->
  exists r',
    Cache.check_rate_limit_calls ts (Some r) identifier limit window_seconds
    = (Spec.answers_from limit n (length ts), Some r')
    /\ Spec.counting r' key (n + Z.of_nat (length ts)) e
    /\ Redis.served r'
       = Redis.served r ++ repeat (Redis.INCR key) (length ts).
Proof.
  revert r n. induction ts as [|t ts IH]; intros r n Hn Hc Hts.
  - exists r. simpl. rewrite Z.add_0_r, app_nil_r. now repeat split.
  - apply Forall_cons_iff in Hts as [Ht Hts].
    destruct (check_rate_limit_counting t r n e Hn Hc Ht) as (r1 & E1 & Hc1 & Hs1).
    destruct (IH r1 (n + 1) ltac:(lia) Hc1 Hts) as (r2 & E2 & Hc2 & Hs2).
    exists r2. cbn [Cache.check_rate_limit_calls length Spec.answers_from].
    rewrite E1, E2. split; [reflexivity |].
    split.
    + replace (n + Z.of_nat (S (length ts))) with (n + 1 + Z.of_nat (length ts)) by lia.
      exact Hc2.
    + rewrite Hs2, Hs1, <- app_assoc. reflexivity.
Qed.

Lemma answers_from_nth (k : nat) (n : Z) (i : nat) :
  (i < k)%nat ->
  nth i (Spec.answers_from limit n k) (true, 0) = Spec.answer limit (n + 1 + Z.of_nat i).
Proof.
  revert n i. induction k as [|k IH]; intros n i Hi; [lia |].
  destruct i as [|i]; cbn [Spec.answers_from nth].
  - now rewrite Z.add_0_r.
  - rewrite IH by lia. f_equal. lia.
Qed.

Lemma answers_from_length (k : nat) (n : Z) :
  length (Spec.answers_from limit n k) = k.
Proof. revert n; induction k as [|k IH]; intros n; simpl; auto. Qed.

Lemma filter_is_expire_incr (k : nat) :
  List.filter (Redis.is_expire key) (repeat (Redis.INCR key) k) = [].
Proof. induction k; simpl; auto. Qed.

Lemma incr_served (now : Z) (r r1 : Redis.t) (current : option Z) :
  Redis.incr now r key = (current, r1) ->
  Redis.served r1 = Redis.served r ++ [Redis.INCR key].
Proof.
  unfold Redis.incr.
  destruct (Redis.live now r key) as [[[n|s] x]|]; intros H;
    injection H as _ <-; reflexivity.
Qed.

Lemma expiries_set_app (r : Redis.t) (cmds : list Redis.command) (r' : Redis.t) :
  Redis.served r' = Redis.served r ++ cmds ->
  Cache.expiries_set (Some r') identifier
  = (Cache.expiries_set (Some r) identifier
     + length (List.filter (Redis.is_expire key) cmds))%nat.
Proof.
  unfold Cache.expiries_set. fold key. intros ->.
  now rewrite List.filter_app, length_app.
Qed.

(** C9.  With the counter store available, [limit + 1] calls for one
    identifier, the first of which opens a window and the others fall
    inside it: the calls before the last are allowed, with the
    remaining count going down from [limit - 1] to 0, and the last,
    the [(limit + 1)]-th, is answered [allowed = False] and
    [remaining = 0].  The expiry of the counter is set exactly once in
    the window, by the first call, right after the increment that
    returned 1; in general a call sets the expiry if and only if its
    increment returns 1.  A call made once the window has elapsed
    opens a new window: it sets the expiry again and is answered with
    the counter at 1, that is [remaining = limit - 1] for a limit of
    at least 1. *)
Theorem rate_limit_window (t0 : Z) (ts : list Z) (r : Redis.t) :
  0 <= limit ->
  0 < window_seconds ->
  Redis.live t0 r key = None ->
  length ts = Z.to_nat limit ->
  Forall (Spec.in_window t0 window_seconds) ts ->
  exists answers r',
    Cache.check_rate_limit_calls (t0 :: ts) (Some r) identifier limit window_seconds
    = (answers, Some r')
    /\ length answers = S (Z.to_nat limit)
    /\ nth (Z.to_nat limit) answers (true, 0) = (false, 0)
    /\ (forall i, (i < Z.to_nat limit)%nat ->
                  nth i answers (true, 0) = (true, limit - 1 - Z.of_nat i))
    /\ Redis.served r'
       = Redis.served r
         ++ [Redis.INCR key; Redis.EXPIRE key window_seconds]
         ++ repeat (Redis.INCR key) (length ts)
    /\ Cache.expiries_set (Some r') identifier
       = S (Cache.expiries_set (Some r) identifier)
    /\ (forall now r0 current r1,
           Redis.incr now r0 key = (Some current, r1) ->
           Cache.expiries_set
             (snd (Cache.check_rate_limit now (Some r0) identifier limit
                     window_seconds)) identifier
           = (Cache.expiries_set (Some r0) identifier
              + if (current =? 1)%Z then 1 else 0)%nat)
    /\ (forall t,
           t0 + window_seconds <= t ->
           exists r'',
             Cache.check_rate_limit t (Some r') identifier limit window_seconds
             = ((1 <=? limit, Z.max 0 (limit - 1)), Some r'')
             /\ (1 <= limit ->
                 Cache.check_rate_limit t (Some r') identifier limit window_seconds
                 = ((true, limit - 1), Some r''))
             /\ Spec.counting r'' key 1 (t + window_seconds)
             /\ Cache.expiries_set (Some r'') identifier
                = S (Cache.expiries_set (Some r') identifier)).
Proof.
  intros Hlimit Hw Hfresh Hlen Hts.
  destruct (check_rate_limit_fresh t0 r Hw Hfresh) as (r1 & E1 & Hc1 & Hs1).
  assert (Hts' : Forall (fun t => t < t0 + window_seconds) ts).
  { eapply List.Forall_impl; [| exact Hts]. unfold Spec.in_window. simpl. lia. }
  destruct (check_rate_limit_calls_counting ts r1 1 _ ltac:(lia) Hc1 Hts')
    as (r2 & E2 & Hc2 & Hs2).
  exists (Spec.answer limit 1 :: Spec.answers_from limit 1 (length ts)), r2.
  split.
  { cbn [Cache.check_rate_limit_calls]. now rewrite E1, E2. }
  assert (Hans : forall k, (k <= length ts)%nat ->
            nth k (Spec.answer limit 1 :: Spec.answers_from limit 1 (length ts))
                (true, 0)
            = Spec.answer limit (1 + Z.of_nat k)).
  { intros [|k] Hk; cbn [nth]; [now rewrite Z.add_0_r |].
    rewrite answers_from_nth by lia. f_equal. lia. }
  split.
  { cbn [length]. now rewrite answers_from_length, Hlen. }
  split.
  { rewrite Hans by lia. unfold Spec.answer. rewrite Z2Nat.id by lia.
    destruct (Z.leb_spec (1 + limit) limit); [lia |]. f_equal. lia. }
  split.
  { intros i Hi. rewrite Hans by lia. unfold Spec.answer.
    destruct (Z.leb_spec (1 + Z.of_nat i) limit); [| lia]. f_equal. lia. }
  assert (Hserved : Redis.served r2
            = Redis.served r
              ++ [Redis.INCR key; Redis.EXPIRE key window_seconds]
              ++ repeat (Redis.INCR key) (length ts)).
  { rewrite Hs2, Hs1, <- app_assoc. reflexivity. }
  split; [exact Hserved |].
  assert (Hexp : Cache.expiries_set (Some r2) identifier
                 = S (Cache.expiries_set (Some r) identifier)).
  { rewrite (expiries_set_app r _ r2 Hserved).
    rewrite List.filter_app, length_app, filter_is_expire_incr.
    cbn [List.filter Redis.is_expire]. rewrite String.eqb_refl. simpl. lia. }
  split; [exact Hexp |].
  split.
  { intros now r0 current r1' Hincr. unfold Cache.check_rate_limit. fold key.
    rewrite Hincr. pose proof (incr_served _ _ _ _ Hincr) as Hs.
    destruct (current =? 1); cbn [snd].
    - rewrite (expiries_set_app r0 [Redis.INCR key; Redis.EXPIRE key window_seconds]).
      + cbn [List.filter Redis.is_expire]. now rewrite String.eqb_refl.
      + unfold Redis.expire. simpl. rewrite Hs, <- app_assoc. reflexivity.
    - rewrite (expiries_set_app r0 [Redis.INCR key]); [reflexivity | exact Hs]. }
  intros t Ht.
  assert (Hgone : Redis.live t r2 key = None).
  { unfold Redis.live, Redis.expired. unfold Spec.counting in Hc2.
    rewrite Hc2. simpl. destruct (Z.leb_spec (t0 + window_seconds) t); [reflexivity | lia]. }
  destruct (check_rate_limit_fresh t r2 Hw Hgone) as (r3 & E3 & Hc3 & Hs3).
  exists r3. split; [exact E3 |].
  split.
  { intros H1. rewrite E3. unfold Spec.answer.
    destruct (Z.leb_spec 1 limit); [| lia]. do 2 f_equal. lia. }
  split; [exact Hc3 |].
  rewrite (expiries_set_app r2 _ r3 Hs3).
  cbn [List.filter Redis.is_expire]. rewrite String.eqb_refl. simpl. lia.
Qed.

End RateLimiter.

Lemma rate_limit_window_witness :
  exists answers r',
    Cache.check_rate_limit_calls [100; 101; 130] (Some Redis.empty)
      Sample.client 2 60
    = (answers, Some r')
    /\ nth 2 answers (true, 0) = (false, 0)
    /\ Cache.expiries_set (Some r') Sample.client = 1%nat.
Proof.
  destruct (rate_limit_window Sample.client 2 60 100 [101; 130] Redis.empty)
    as (answers & r' & Hcalls & _ & Hlast & _ & _ & Hexp & _).
  - lia.
  - lia.
  - reflexivity.
  - reflexivity.
  - repeat constructor; unfold Spec.in_window; lia.
  - exists answers, r'. split; [exact Hcalls |]. split; [exact Hlast | exact Hexp].
Defined.

(** * Further properties of the embedded code *)

(** ** What the validator accepts *)

Section ValidatorAccepts.

#[local] Arguments String.append !_ _ / : simpl nomatch.

Variable py_compile : string -> option exn.

Lemma lower_split (s a b : string) :
  lower s = a +:+ b ->
  exists s1 s2, s = s1 +:+ s2 /\ lower s1 = a /\ lower s2 = b.
Proof.
  revert s. induction a as [|c a IH]; intros s H; simpl in H.
  - now exists EmptyString, s.
  - destruct s as [|d s]; [discriminate |].
    simpl in H. injection H as Hc H.
    destruct (IH _ H) as (s1 & s2 & -> & <- & <-).
    exists (String d s1), s2. simpl. now rewrite Hc.
Qed.

Lemma contains_lower_inv (pattern code : string) :
  contains (lower pattern) (lower code) = true -> Spec.occurs_ci pattern code.
Proof.
  intros H. apply contains_inv in H as (pre & post & H).
  apply lower_split in H as (s1 & s23 & -> & _ & H).
  apply lower_split in H as (s2 & s3 & -> & H2 & _).
  now exists s1, s2, s3.
Qed.

Lemma forbidden_errors_nil (code : string) :
  Code.forbidden_errors code = [] <->
  forall pattern, In pattern Code.FORBIDDEN_PATTERNS -> ~ Spec.occurs_ci pattern code.
Proof.
  split.
  - intros E pattern Hin Hocc.
    pose proof (forbidden_errors_In pattern code Hin Hocc) as H.
    rewrite E in H. exact H.
  - intros H. unfold Code.forbidden_errors.
    induction Code.FORBIDDEN_PATTERNS as [|p ps IH]; [reflexivity |].
    cbn [flat_map].
    destruct (contains (lower p) (lower code)) eqn:E.
    + apply contains_lower_inv in E. destruct (H p (or_introl eq_refl) E).
    + apply IH. intros q Hq. apply H. now right.
Qed.

Lemma collect_errors_nil (code : string) :
  Code.collect_errors py_compile code = Ok [] <->
  (forall pattern, In pattern Code.FORBIDDEN_PATTERNS -> ~ Spec.occurs_ci pattern code)
  /\ py_compile code = None
  /\ Spec.occurs "result" code.
Proof.
  unfold Code.collect_errors, Code.syntax_errors. split.
  - destruct (py_compile code) as [e|] eqn:Hc.
    + destruct e; try discriminate.
      intros E. injection E as E.
      apply app_eq_nil in E as [_ E]. discriminate.
    + intros E. injection E as E.
      apply app_eq_nil in E as [E1 E]. simpl in E.
      split; [now apply forbidden_errors_nil |].
      split; [reflexivity |].
      unfold Code.result_errors in E.
      destruct (contains "result" code) eqn:Hr; [| discriminate].
      now apply contains_occurs.
  - intros (H1 & H2 & H3).
    apply forbidden_errors_nil in H1. rewrite H1, H2.
    unfold Code.result_errors.
    apply contains_occurs in H3. now rewrite H3.
Qed.

(** What [validate_code] returns, by cases on the text in the state. *)
Lemma validate_code_cases (st : GraphState) :
  (truthy_opt_str (generated_code st) = false
   /\ Code.validate_code py_compile st
      = Ok [ SetCodeValid false; SetValidationErrors ["No code generated"];
             SetCurrentNode "validate_code"; AppendNodeHistory ["validate_code"] ])
  \/ (exists code e errs,
         generated_code st = Some code /\ code <> EmptyString
         /\ Code.collect_errors py_compile code = Ok (e :: errs)
         /\ Code.validate_code py_compile st
            = Ok [ SetCodeValid false; SetValidationErrors (e :: errs);
                   SetCurrentNode "validate_code";
                   AppendNodeHistory ["validate_code"] ])
  \/ (exists code,
         generated_code st = Some code /\ code <> EmptyString
         /\ Code.collect_errors py_compile code = Ok []
         /\ Code.validate_code py_compile st
            = Ok [ SetCodeValid true; SetValidationErrors [];
                   SetGeneratedCode (Some (Code.add_pandas_import code));
                   SetCurrentNode "validate_code";
                   AppendNodeHistory ["validate_code"] ])
  \/ (exists code e,
         generated_code st = Some code /\ code <> EmptyString
         /\ Code.collect_errors py_compile code = Raise e
         /\ Code.validate_code py_compile st = Raise e).
Proof.
  unfold Code.validate_code.
  destruct (generated_code st) as [[|c code]|]; try (left; split; reflexivity).
  right. cbn [truthy_opt_str truthy_str negb default from_option id].
  destruct (Code.collect_errors py_compile (String c code)) as [[|e errs]|e] eqn:E.
  - right. left. exists (String c code). repeat split; [discriminate | exact E].
  - left. exists (String c code), e, errs. repeat split; [discriminate | exact E].
  - right. right. exists (String c code), e. repeat split; [discriminate | exact E].
Qed.

(** X1.  [validate_code] answers [code_valid = True] exactly for a
    non-empty text in which no pattern of the denylist appears up to
    the case of letters, which compiles, and in which the text [result]
    appears. *)
Theorem validate_code_accepts_iff (st : GraphState) :
  (exists u, Code.validate_code py_compile st = Ok u
             /\ get_code_valid u = Some true)
  <-> exists code,
        generated_code st = Some code
        /\ code <> EmptyString
        /\ (forall pattern,
               In pattern Code.FORBIDDEN_PATTERNS -> ~ Spec.occurs_ci pattern code)
        /\ py_compile code = None
        /\ Spec.occurs "result" code.
Proof.
  destruct (validate_code_cases st)
    as [[Ht ->] | [(code & e & errs & Hgc & Hne & E & ->)
                  | [(code & Hgc & Hne & E & ->) | (code & e & Hgc & Hne & E & ->)]]].
  - split; [intros (u & [= <-] & Hv); discriminate |].
    intros (code & Hgc & Hne & _). rewrite Hgc in Ht.
    destruct code; [now destruct Hne | discriminate].
  - split; [intros (u & [= <-] & Hv); discriminate |].
    intros (code' & Hgc' & _ & H). rewrite Hgc in Hgc'. injection Hgc' as <-.
    apply collect_errors_nil in H. rewrite H in E. discriminate.
  - split; [| intros _; eexists; split; reflexivity].
    intros _. exists code. split; [exact Hgc |]. split; [exact Hne |].
    now apply collect_errors_nil.
  - split; [intros (u & [=] & _) |].
    intros (code' & Hgc' & _ & H). rewrite Hgc in Hgc'. injection Hgc' as <-.
    apply collect_errors_nil in H. rewrite H in E. discriminate.
Qed.

Lemma add_pandas_import_cases (code : string) :
  (contains "import pandas" code = false /\ contains "pd." code = true
   /\ Code.add_pandas_import code = "import pandas as pd" +:+ nl +:+ code)
  \/ ((contains "import pandas" code = true \/ contains "pd." code = false)
      /\ Code.add_pandas_import code = code).
Proof.
  unfold Code.add_pandas_import.
  destruct (contains "import pandas" code), (contains "pd." code); simpl; auto.
Qed.

Lemma contains_import_prefix (code : string) :
  contains "import pandas" ("import pandas as pd" +:+ nl +:+ code) = true.
Proof. exact (contains_app EmptyString "import pandas" (" as pd" +:+ nl +:+ code)). Qed.

(** X2.  The repair of a missing pandas import only ever puts the line
    [import pandas as pd] in front of the text; it does so exactly when
    the text uses [pd.] without containing [import pandas]; the
    repaired text contains [import pandas] whenever it uses [pd.]; and
    repairing twice changes nothing more. *)
Theorem add_pandas_import_repairs (code : string) :
  (Code.add_pandas_import code = code
   \/ Code.add_pandas_import code = "import pandas as pd" +:+ nl +:+ code)
  /\ (Code.add_pandas_import code = code
      <-> (Spec.occurs "pd." code -> Spec.occurs "import pandas" code))
  /\ (Spec.occurs "pd." (Code.add_pandas_import code) ->
      Spec.occurs "import pandas" (Code.add_pandas_import code))
  /\ Code.add_pandas_import (Code.add_pandas_import code)
     = Code.add_pandas_import code.
Proof.
  destruct (add_pandas_import_cases code) as [(Hi & Hp & E) | (H & E)]; rewrite E.
  - split; [now right |].
    split.
    { split.
      - intros Habs. exfalso.
        assert (L : String.length ("import pandas as pd" +:+ nl +:+ code)
                    = String.length code) by now rewrite Habs.
        simpl in L. lia.
      - intros Himp. apply contains_occurs in Hp. apply Himp in Hp.
        apply contains_occurs in Hp. congruence. }
    split.
    { intros _. apply contains_occurs, contains_import_prefix. }
    unfold Code.add_pandas_import at 1. now rewrite contains_import_prefix.
  - split; [now left |].
    split.
    { split; [| reflexivity]. intros _ Hp. apply contains_occurs in Hp.
      destruct H as [H | H]; [now apply contains_occurs | congruence]. }
    split; [| exact E].
    intros Hp. apply contains_occurs in Hp.
    destruct H as [H | H]; [now apply contains_occurs | congruence].
Qed.

Lemma forbidden_errors_import_prefix (code : string) :
  Code.forbidden_errors ("import pandas as pd" +:+ nl +:+ code)
  = Code.forbidden_errors code.
Proof. vm_compute. reflexivity. Qed.

Lemma occurs_prefixed (sub pre code : string) :
  Spec.occurs sub code -> Spec.occurs sub (pre +:+ code).
Proof.
  intros (a & b & ->). exists (pre +:+ a), b. now rewrite append_assoc.
Qed.

Lemma validate_code_stores_checked_code_aux (st : GraphState) (u : update) :
  Code.validate_code py_compile st = Ok u ->
  code_valid (merge st u) = true ->
  exists code,
    generated_code st = Some code
    /\ generated_code (merge st u) = Some (Code.add_pandas_import code)
    /\ Code.add_pandas_import code <> EmptyString
    /\ (forall pattern,
           In pattern Code.FORBIDDEN_PATTERNS ->
           ~ Spec.occurs_ci pattern (Code.add_pandas_import code))
    /\ Spec.occurs "result" (Code.add_pandas_import code).
Proof.
  destruct (validate_code_cases st)
    as [[Ht ->] | [(code & e & errs & Hgc & Hne & E & ->)
                  | [(code & Hgc & Hne & E & ->) | (code & e & Hgc & Hne & E & ->)]]];
    intros [= <-].
  - destruct st; discriminate.
  - destruct st; discriminate.
  - intros _. exists code. split; [exact Hgc |].
    split; [destruct st; reflexivity |].
    apply collect_errors_nil in E as (Hf & _ & Hr).
    destruct (add_pandas_import_cases code) as [(_ & _ & ->) | (_ & ->)].
    + split; [discriminate |]. split.
      * apply forbidden_errors_nil. rewrite forbidden_errors_import_prefix.
        now apply forbidden_errors_nil.
      * rewrite <- append_assoc. now apply occurs_prefixed.
    + now repeat split.
Qed.

(** X3.  The text that a successful validation stores in the state is
    the repaired text, and the repair does not undo the checks: no
    pattern of the denylist appears in the stored text, and the text
    [result] appears in it. *)
Theorem validate_code_stores_checked_code (st : GraphState) (u : update) :
  Code.validate_code py_compile st = Ok u ->
  code_valid (merge st u) = true ->
  exists code,
    generated_code st = Some code
    /\ generated_code (merge st u) = Some (Code.add_pandas_import code)
    /\ Code.add_pandas_import code <> EmptyString
    /\ (forall pattern,
           In pattern Code.FORBIDDEN_PATTERNS ->
           ~ Spec.occurs_ci pattern (Code.add_pandas_import code))
    /\ Spec.occurs "result" (Code.add_pandas_import code).
Proof. exact (validate_code_stores_checked_code_aux st u). Qed.

End ValidatorAccepts.

Lemma validate_code_stores_checked_code_witness :
  exists u code,
    Code.validate_code (fun _ => None)
      (Sample.state_with_code "result = pd.DataFrame()") = Ok u
    /\ generated_code
         (merge (Sample.state_with_code "result = pd.DataFrame()") u)
       = Some code
    /\ code = "import pandas as pd" +:+ nl +:+ "result = pd.DataFrame()"
    /\ Spec.occurs "result" code.
Proof.
  eexists.
  destruct (validate_code_stores_checked_code (fun _ => None)
              (Sample.state_with_code "result = pd.DataFrame()") _ eq_refl)
    as (code & Hgc & Hst & _ & _ & Hres).
  - reflexivity.
  - injection Hgc as <-. eexists. split; [reflexivity |].
    split; [exact Hst |].
    split; [reflexivity | exact Hres].
Defined.

(** ** What the executor returns *)

Section ExecutorShape.

Variable py_exec : string -> gmap string pyval -> Code.exec_outcome.
Variable py_str : pyval -> outcome string.
Variable format_exc : exn -> string.
Variables start_time end_time : Q.

(** The four dictionaries [execute_code] can return, and the exception
    that can leave it. *)
Lemma execute_code_cases (st : GraphState) :
  let o := Code.execute_code py_exec py_str format_exc start_time end_time st in
  ((truthy_opt_str (generated_code st) = false \/ code_valid st = false)
   /\ o = Ok [ SetExecutionResult
                 {| success := false; error := Some "No valid code to execute";
                    traceback := None; execution_time_ms := None |};
               SetCurrentNode "execute_code";
               AppendNodeHistory ["execute_code"] ])
  \/ (exists code, Spec.holds_validated st code /\
      ((exists e,
           Spec.raises_in_try py_exec py_str code e
           /\ is_Exception e = true
           /\ o = Ok [ SetExecutionResult
                         {| success := false; error := Some (exn_str e);
                            traceback := Some (format_exc e);
                            execution_time_ms :=
                              Some (Code.elapsed_ms start_time end_time) |};
                       AppendErrors ["Execution error: " +:+ exn_str e];
                       SetCurrentNode "execute_code";
                       AppendNodeHistory ["execute_code"] ])
       \/ (exists e,
              Spec.raises_in_try py_exec py_str code e
              /\ is_Exception e = false
              /\ o = Raise e)
       \/ (exists ns,
              py_exec code Code.initial_namespace = Code.Completed ns
              /\ is_none (default PyNone (ns !! "result")) = true
              /\ o = Ok [ SetExecutionResult
                            {| success := false;
                               error := Some "No result variable defined";
                               traceback := None;
                               execution_time_ms :=
                                 Some (Code.elapsed_ms start_time end_time) |};
                          SetCurrentNode "execute_code";
                          AppendNodeHistory ["execute_code"] ])
       \/ (exists ns v rd,
              py_exec code Code.initial_namespace = Code.Completed ns
              /\ ns !! "result" = Some v /\ is_none v = false
              /\ Code.envelope py_str v = Ok rd
              /\ o = Ok [ SetExecutionResult
                            {| success := true; error := None; traceback := None;
                               execution_time_ms :=
                                 Some (Code.elapsed_ms start_time end_time) |};
                          SetResultData rd;
                          SetCurrentNode "execute_code";
                          AppendNodeHistory ["execute_code"] ]))).
Proof.
  cbv zeta.
  destruct (generated_code st) as [[|c code]|] eqn:Hgc;
    try (left; split; [now left |]; unfold Code.execute_code; now rewrite Hgc).
  destruct (code_valid st) eqn:Hcv;
    [| left; split; [now right |]; unfold Code.execute_code; now rewrite Hgc, Hcv].
  right. exists (String c code).
  assert (Hv : Spec.holds_validated st (String c code))
    by (repeat split; [exact Hgc | discriminate | exact Hcv]).
  split; [exact Hv |].
  rewrite (execute_code_validated py_exec py_str format_exc _ _ st _ Hv).
  unfold Spec.raises_in_try.
  destruct (py_exec (String c code) Code.initial_namespace) as [ns | e] eqn:Hex.
  - destruct (ns !! "result") as [v|] eqn:Hres; cbn [default from_option id].
    + destruct (is_none v) eqn:Hn.
      * right. right. left. exists ns. rewrite Hres. now repeat split.
      * destruct (Code.envelope py_str v) as [rd | e] eqn:Henv.
        -- right. right. right. exists ns, v, rd. now repeat split.
        -- destruct (handle_exception_cases format_exc start_time end_time e)
             as [[He ->] | [He ->]].
           ++ left. exists e. split; [right; exists ns, v; now repeat split |].
              now split.
           ++ right. left. exists e.
              split; [right; exists ns, v; now repeat split |]. now split.
    + right. right. left. exists ns. rewrite Hres. now repeat split.
  - destruct (handle_exception_cases format_exc start_time end_time e)
      as [[He ->] | [He ->]].
    + left. exists e. split; [now left |]. now split.
    + right. left. exists e. split; [now left |]. now split.
Qed.

(** X4.  [execute_code] raises exactly when the code is validated and
    its run raises, inside the [try] block, an exception that is not of
    class [Exception]; the exception raised is that one.  Otherwise it
    returns a dictionary with an [execution_result], and the keys of
    every dictionary it returns go together: [result_data] is returned
    exactly when [success] is true; a failure always carries an error
    text; an entry is appended to [errors] exactly when a traceback is
    recorded; and the time is missing exactly when the error is
    [No valid code to execute], the answer for a state whose code is
    empty or not validated. *)
Theorem execute_code_keys_go_together (st : GraphState) :
  (forall e,
      Code.execute_code py_exec py_str format_exc start_time end_time st = Raise e
      <-> is_Exception e = false
          /\ exists code, Spec.holds_validated st code
                          /\ Spec.raises_in_try py_exec py_str code e)
  /\ ((forall code e, Spec.holds_validated st code ->
                      Spec.raises_in_try py_exec py_str code e ->
                      is_Exception e = true) ->
      exists u,
        Code.execute_code py_exec py_str format_exc start_time end_time st = Ok u)
  /\ (forall u,
        Code.execute_code py_exec py_str format_exc start_time end_time st = Ok u ->
        exists r,
          get_execution_result u = Some r
          /\ (success r = true <-> is_Some (get_result_data u))
          /\ (success r = false <-> is_Some (error r))
          /\ (is_Some (traceback r) <-> get_errors u <> [])
          /\ (execution_time_ms r = None
              <-> error r = Some "No valid code to execute"
                  /\ (truthy_opt_str (generated_code st) = false
                      \/ code_valid st = false))
          /\ (truthy_opt_str (generated_code st) = false \/ code_valid st = false ->
              error r = Some "No valid code to execute")).
Proof.
  assert (Hone : forall code code', Spec.holds_validated st code ->
                                    Spec.holds_validated st code' -> code = code').
  { intros code code' (H & _) (H' & _). congruence. }
  assert (Hthrown : forall code e e',
             Spec.raises_in_try py_exec py_str code e ->
             Spec.raises_in_try py_exec py_str code e' -> e = e').
  { intros code e e' [H | (ns & v & H1 & H2 & _ & H3)]
                     [H' | (ns' & v' & H1' & H2' & _ & H3')]; congruence. }
  assert (Hgood : forall code, Spec.holds_validated st code ->
                    ~ (truthy_opt_str (generated_code st) = false
                       \/ code_valid st = false)).
  { intros code (Hgc & Hne & Hcv). rewrite Hgc, Hcv.
    destruct code; [now destruct Hne | intros [H | H]; discriminate]. }
  pose proof (execute_code_cases st) as Hc. cbv zeta in Hc.
  split; [| split].
  - intros e0.
    destruct Hc as [[Hnot ->] | (code & Hv & [(e & Ht & He & ->) | [(e & Ht & He & ->)
                     | [(ns & Hex & Hn & ->) | (ns & v & rd & Hex & Hres & Hn & Henv & ->)]]])].
    + split; [discriminate |].
      intros (_ & code & Hv & _). now destruct (Hgood _ Hv).
    + split; [discriminate |].
      intros (He0 & code' & Hv' & Ht').
      rewrite <- (Hone _ _ Hv Hv') in Ht'.
      rewrite (Hthrown _ _ _ Ht Ht') in He. congruence.
    + split.
      * intros [= <-]. split; [exact He |]. now exists code.
      * intros (He0 & code' & Hv' & Ht').
        rewrite <- (Hone _ _ Hv Hv') in Ht'.
        now rewrite (Hthrown _ _ _ Ht Ht').
    + split; [discriminate |].
      intros (He0 & code' & Hv' & Ht').
      rewrite <- (Hone _ _ Hv Hv') in Ht'.
      destruct Ht' as [H | (ns' & v' & H1 & H2 & H3 & _)]; [congruence |].
      rewrite Hex in H1. injection H1 as <-. rewrite H2 in Hn.
      cbn [default from_option id] in Hn. congruence.
    + split; [discriminate |].
      intros (He0 & code' & Hv' & Ht').
      rewrite <- (Hone _ _ Hv Hv') in Ht'.
      destruct Ht' as [H | (ns' & v' & H1 & H2 & _ & H3)]; [congruence |].
      rewrite Hex in H1. injection H1 as <-. congruence.
  - intros Hall.
    destruct Hc as [[Hnot ->] | (code & Hv & [(e & Ht & He & ->) | [(e & Ht & He & ->)
                     | [(ns & Hex & Hn & ->) | (ns & v & rd & Hex & Hres & Hn & Henv & ->)]]])];
      try (eexists; reflexivity).
    rewrite (Hall _ _ Hv Ht) in He. discriminate.
  - intros u Hu.
    destruct Hc as [[Hnot E] | (code & Hv & [(e & Ht & He & E) | [(e & Ht & He & E)
                     | [(ns & Hex & Hn & E) | (ns & v & rd & Hex & Hres & Hn & Henv & E)]]])];
      rewrite E in Hu; try discriminate; injection Hu as <-;
      eexists; (split; [reflexivity |]); cbn;
      try (pose proof (Hgood _ Hv) as Hg).
    + repeat split; try discriminate; try tauto; eauto;
        try (intros [x Hx]; discriminate); try (intros H; now destruct H).
    + repeat split; try discriminate; try tauto; eauto;
        try (intros [x Hx]; discriminate); try (intros H; now destruct H);
        try (intros [_ H]; tauto).
    + repeat split; try discriminate; try tauto; eauto;
        try (intros [x Hx]; discriminate); try (intros H; now destruct H);
        try (intros [_ H]; tauto).
    + repeat split; try discriminate; try tauto; eauto;
        try (intros [x Hx]; discriminate); try (intros H; now destruct H);
        try (intros [_ H]; tauto).
Qed.

End ExecutorShape.

(** ** From the executor's envelope to the final response *)

Section EnvelopeToResponse.

#[local] Arguments String.append !_ _ / : simpl nomatch.

Variable py_str : pyval -> outcome string.

(** The envelope has the type [dataframe] exactly for the values that
    have an attribute [to_dict]. *)
Lemma envelope_dataframe (v : pyval) (rd : ResultData) :
  Code.envelope py_str v = Ok rd ->
  rd_type rd = "dataframe" ->
  (exists cols recs,
      v = DataFrame cols recs
      /\ rd_data rd = PyList (map Code.convert_to_serializable (map PyDict recs)))
  \/ (exists records columns_tolist shape_list,
         v = ToDictObject (Ok records) columns_tolist shape_list
         /\ rd_data rd = Code.convert_to_serializable records).
Proof.
  destruct v; simpl;
    try (intros [= <-]; simpl; intros H; discriminate);
    try (destruct (py_str _); [| discriminate];
         intros [= <-]; simpl; intros H; discriminate).
  - intros [= <-] _. left. now exists columns, records.
  - destruct to_dict as [records |]; [| discriminate].
    destruct columns_tolist as [columns |]; [| discriminate].
    destruct shape_list as [shape |]; [| discriminate].
    intros [= <-] _. right. now exists records, (Ok columns), (Ok shape).
Qed.

Lemma envelope_well_formed (st : GraphState) (v : pyval) (rd : ResultData) :
  Code.envelope py_str v = Ok rd ->
  (forall to_dict columns_tolist shape_list,
      v <> ToDictObject to_dict columns_tolist shape_list) ->
  result_data st = Some rd -> Spec.result_well_formed st.
Proof.
  intros Henv Hnot Hrd rd' Hrd' Ht. rewrite Hrd in Hrd'. injection Hrd' as <-.
  destruct (envelope_dataframe v rd Henv Ht)
    as [(cols & recs & _ & Hd) | (records & c & s & -> & _)].
  - eexists. exact Hd.
  - now destruct (Hnot (Ok records) c s).
Qed.

Lemma return_chat_returns (st : GraphState) :
  explanation st <> None \/ errors st <> [] ->
  Spec.result_well_formed st ->
  exists u,
    Explain.return_chat st = Ok u
    /\ get_final_response u
       = Some (Some (Spec.base_response st +:+ Spec.summary_line st)).
Proof.
  intros Hbase Hwf. unfold Explain.return_chat.
  rewrite (response_before_summary st Hbase).
  unfold Spec.summary_line, Spec.dataframe_rows.
  unfold Spec.result_well_formed in Hwf.
  destruct (result_data st) as [rd|].
  - destruct (String.eqb (rd_type rd) "dataframe") eqn:Ht.
    + apply String.eqb_eq in Ht. destruct (Hwf rd eq_refl Ht) as [rows Hd].
      rewrite Hd. destruct rows as [|r rows].
      * eexists. split; [reflexivity |]. now rewrite append_nil_r.
      * eexists. split; reflexivity.
    + eexists. split; [reflexivity |]. now rewrite append_nil_r.
  - eexists. split; [reflexivity |]. now rewrite append_nil_r.
Qed.

(** On a tabular envelope, [return_chat] returns exactly when the data
    is false, or true and with a length. *)
Lemma return_chat_dataframe (st : GraphState) (rd : ResultData) :
  explanation st <> None \/ errors st <> [] ->
  result_data st = Some rd ->
  rd_type rd = "dataframe" ->
  Explain.return_chat st
  = match py_truthy (rd_data rd) with
    | Raise e => Raise e
    | Ok false =>
        Ok [ SetFinalResponse (Some (Spec.base_response st));
             SetCurrentNode "return_chat"; AppendNodeHistory ["return_chat"] ]
    | Ok true =>
        match py_len (rd_data rd) with
        | Raise e => Raise e
        | Ok n =>
            Ok [ SetFinalResponse
                   (Some (Spec.base_response st +:+ Explain.rows_summary n));
                 SetCurrentNode "return_chat"; AppendNodeHistory ["return_chat"] ]
        end
    end.
Proof.
  intros Hbase Hrd Ht. unfold Explain.return_chat.
  rewrite (response_before_summary st Hbase), Hrd, Ht.
  change ("dataframe" =? "dataframe")%string with true. cbv iota.
  now destruct (py_truthy (rd_data rd)) as [[|]|].
Qed.

Lemma return_chat_raises (st : GraphState) (e : exn) :
  explanation st <> None \/ errors st <> [] ->
  Explain.return_chat st = Raise e ->
  exists rd,
    result_data st = Some rd /\ rd_type rd = "dataframe"
    /\ (py_truthy (rd_data rd) = Raise e
        \/ (py_truthy (rd_data rd) = Ok true /\ py_len (rd_data rd) = Raise e)).
Proof.
  intros Hbase. destruct (result_data st) as [rd|] eqn:Hrd.
  - destruct (String.eqb (rd_type rd) "dataframe") eqn:Ht.
    + apply String.eqb_eq in Ht.
      rewrite (return_chat_dataframe st rd Hbase Hrd Ht).
      intros H. exists rd. split; [reflexivity |]. split; [exact Ht |].
      destruct (py_truthy (rd_data rd)) as [[|]|e0].
      * destruct (py_len (rd_data rd)); [discriminate |].
        injection H as <-. right. now split.
      * discriminate.
      * injection H as <-. now left.
    + unfold Explain.return_chat.
      rewrite (response_before_summary st Hbase), Hrd, Ht. discriminate.
  - unfold Explain.return_chat.
    rewrite (response_before_summary st Hbase), Hrd. discriminate.
Qed.

(** X5.  Take a state whose [result_data] is the envelope that
    [execute_code] built from the value [v], and whose explanation is a
    text (or whose [errors] are not empty).  When [v] is a data frame,
    [return_chat] returns a final response; the row summary is appended
    exactly when the frame has at least one record, and the number it
    states is the number of records, which is also the first entry of
    the envelope's [shape].  When [v] has no attribute [to_dict],
    [return_chat] returns the response without a summary.  When [v] is
    another object with a [to_dict], the envelope is tabular too, its
    data is whatever [to_dict] returned, and [return_chat] returns
    exactly when that data is false, or true and with a length:
    otherwise the exception of [bool()] or [len()] leaves the node. *)
Theorem return_chat_reports_rows (st : GraphState) (v : pyval) (rd : ResultData) :
  Code.envelope py_str v = Ok rd ->
  result_data st = Some rd ->
  explanation st <> None \/ errors st <> [] ->
  (forall cols recs,
      v = DataFrame cols recs ->
      rd_shape rd = Some (PyList [ PyInt (Z.of_nat (length recs));
                                   PyInt (Z.of_nat (length cols)) ])
      /\ Spec.summary_line st
         = match recs with
           | [] => EmptyString
           | _ => Explain.rows_summary (length recs)
           end
      /\ exists u,
          Explain.return_chat st = Ok u
          /\ get_final_response u
             = Some (Some (Spec.base_response st +:+ Spec.summary_line st)))
  /\ ((forall cols recs, v <> DataFrame cols recs) ->
      (forall to_dict columns_tolist shape_list,
          v <> ToDictObject to_dict columns_tolist shape_list) ->
      rd_type rd <> "dataframe"
      /\ Spec.summary_line st = EmptyString
      /\ exists u,
          Explain.return_chat st = Ok u
          /\ get_final_response u = Some (Some (Spec.base_response st)))
  /\ (forall to_dict columns_tolist shape_list,
         v = ToDictObject to_dict columns_tolist shape_list ->
         exists records,
           to_dict = Ok records
           /\ rd_type rd = "dataframe"
           /\ rd_data rd = Code.convert_to_serializable records
           /\ ((exists u, Explain.return_chat st = Ok u)
               <-> py_truthy (rd_data rd) = Ok false
                   \/ (py_truthy (rd_data rd) = Ok true
                       /\ exists n, py_len (rd_data rd) = Ok n))
           /\ (forall e,
                  Explain.return_chat st = Raise e
                  <-> py_truthy (rd_data rd) = Raise e
                      \/ (py_truthy (rd_data rd) = Ok true
                          /\ py_len (rd_data rd) = Raise e))).
Proof.
  intros Henv Hrd Hbase. split; [| split].
  - intros cols recs ->. injection Henv as <-.
    split; [reflexivity |].
    assert (Hs : Spec.summary_line st
                 = match recs with
                   | [] => EmptyString
                   | _ => Explain.rows_summary (length recs)
                   end).
    { unfold Spec.summary_line, Spec.dataframe_rows. rewrite Hrd. simpl.
      destruct recs as [|r recs]; [reflexivity |].
      simpl. now rewrite !length_map. }
    split; [exact Hs |].
    apply (return_chat_returns st Hbase).
    apply (envelope_well_formed st (DataFrame cols recs) _ eq_refl);
      [discriminate | exact Hrd].
  - intros Hnd Hnt.
    assert (Ht : rd_type rd <> "dataframe").
    { intros Ht.
      destruct (envelope_dataframe v rd Henv Ht)
        as [(cols & recs & -> & _) | (records & c & s & -> & _)].
      - now destruct (Hnd cols recs).
      - now destruct (Hnt (Ok records) c s). }
    assert (Hs : Spec.summary_line st = EmptyString).
    { unfold Spec.summary_line, Spec.dataframe_rows. rewrite Hrd.
      destruct (String.eqb (rd_type rd) "dataframe") eqn:E; [| reflexivity].
      apply String.eqb_eq in E. now destruct Ht. }
    split; [exact Ht |]. split; [exact Hs |].
    destruct (return_chat_returns st Hbase
                (envelope_well_formed st v rd Henv Hnt Hrd)) as (u & Hu & Hf).
    exists u. split; [exact Hu |].
    rewrite Hf, Hs. now rewrite append_nil_r.
  - intros to_dict columns_tolist shape_list ->. simpl in Henv.
    destruct to_dict as [records |]; [| discriminate].
    destruct columns_tolist as [columns |]; [| discriminate].
    destruct shape_list as [shape |]; [| discriminate].
    injection Henv as <-. exists records.
    split; [reflexivity |]. split; [reflexivity |]. split; [reflexivity |].
    rewrite (return_chat_dataframe st _ Hbase Hrd eq_refl).
    cbn [rd_data].
    destruct (py_truthy (Code.convert_to_serializable records)) as [[|]|e0].
    + destruct (py_len (Code.convert_to_serializable records)) as [n|e0].
      * split.
        -- split; [intros _; right; split; [reflexivity | now exists n]
                  | intros _; eexists; reflexivity].
        -- intros e. split; [discriminate |].
           intros [H | [_ H]]; discriminate.
      * split.
        -- split; [intros [u H]; discriminate |].
           intros [H | [_ [n H]]]; discriminate.
        -- intros e. split.
           ++ intros [= <-]. right. now split.
           ++ intros [H | [_ H]]; [discriminate | now injection H as <-].
    + split.
      * split; [intros _; now left | intros _; eexists; reflexivity].
      * intros e. split; [discriminate |].
        intros [H | [H _]]; discriminate.
    + split.
      * split; [intros [u H]; discriminate |].
        intros [H | [H _]]; discriminate.
      * intros e. split.
        -- intros [= <-]. now left.
        -- intros [H | [H _]]; [now injection H as <- | discriminate].
Qed.

End EnvelopeToResponse.

Lemma return_chat_reports_rows_witness :
  exists u,
    Explain.return_chat Sample.seven_rows = Ok u
    /\ get_final_response u
       = Some (Some (Spec.base_response Sample.seven_rows
                     +:+ Explain.rows_summary 7)).
Proof.
  destruct (return_chat_reports_rows Sample.str_opaque Sample.seven_rows
              Sample.seven_regions _ eq_refl)
    as (Hframe & _).
  - reflexivity.
  - left. discriminate.
  - destruct (Hframe _ _ eq_refl) as (_ & _ & u & Hu & Hf).
    exists u. split; [exact Hu | exact Hf].
Defined.

(** ** What reaches the executor in a run *)

Section RunsValidatedCode.

Import Graph.

Lemma next_to_execute_code (n : Node.t) (st : GraphState) :
  next n st = Ok (Goto Node.execute_code) ->
  n = Node.validate_code /\ code_valid st = true.
Proof.
  destruct n; try (unfold next; simpl; intros H; discriminate).
  - intros H. apply next_plan_analysis in H as [H | H]; discriminate.
  - rewrite next_validate_code. intros H.
    destruct (code_valid st); [now split |].
    destruct (retry_count st <? 2); discriminate.
  - intros H. apply next_execute_code in H as (r & _ & H).
    destruct (success r); discriminate.
Qed.

Lemma run_at_execute_code (h : list Node.t) (st : GraphState) :
  run h Node.execute_code st ->
  exists h0 st0 py_compile u,
    h = h0 ++ [Node.validate_code]
    /\ run h0 Node.validate_code st0
    /\ Code.validate_code py_compile st0 = Ok u
    /\ st = merge st0 u
    /\ code_valid st = true.
Proof.
  intros H.
  inversion H as [ph pe sid query files E1 E2
                 | h0 n st0 u n' Hrun Hret Hnext E1 E2 E3].
  subst. destruct (next_to_execute_code _ _ Hnext) as [-> Hcv].
  destruct Hret as [py_compile Hu].
  now exists h0, st0, py_compile, u.
Qed.

(** X6.  In every run of the workflow, [execute_code] starts only
    right after a validation that succeeded: the state then holds a
    non-empty text with [code_valid = True], in which no pattern of
    the denylist appears up to the case of letters and in which the
    text [result] appears.  So the executor never answers
    [No valid code to execute] in a run: it returns an
    [execution_result] that carries the measured time, unless the run
    of the code raises, inside the [try] block, an exception that is
    not of class [Exception], which then leaves the node. *)
Theorem run_executes_checked_code (h : list Node.t) (st : GraphState) :
  run h Node.execute_code st ->
  exists code,
    Spec.holds_validated st code
    /\ (forall pattern,
           In pattern Code.FORBIDDEN_PATTERNS -> ~ Spec.occurs_ci pattern code)
    /\ Spec.occurs "result" code
    /\ last h = Some Node.validate_code
    /\ (forall py_exec py_str format_exc t0 t1,
           (exists u r,
               Code.execute_code py_exec py_str format_exc t0 t1 st = Ok u
               /\ get_execution_result u = Some r
               /\ execution_time_ms r = Some (Code.elapsed_ms t0 t1))
           \/ (exists e,
                  Code.execute_code py_exec py_str format_exc t0 t1 st = Raise e
                  /\ is_Exception e = false
                  /\ Spec.raises_in_try py_exec py_str code e)).
Proof.
  intros H.
  destruct (run_at_execute_code h st H)
    as (h0 & st0 & py_compile & u & -> & _ & Hu & -> & Hcv).
  destruct (validate_code_stores_checked_code_aux py_compile st0 u Hu Hcv)
    as (code & Hgc & Hst & Hne & Hf & Hr).
  exists (Code.add_pandas_import code).
  assert (Hv : Spec.holds_validated (merge st0 u) (Code.add_pandas_import code))
    by now repeat split.
  split; [exact Hv |]. split; [exact Hf |]. split; [exact Hr |].
  split; [apply last_snoc |].
  intros py_exec py_str format_exc t0 t1.
  destruct (execute_code_cases py_exec py_str format_exc t0 t1 (merge st0 u))
    as [[Hnot _] | (code' & Hv' & [(e & _ & _ & E) | [(e & Ht & He & E)
                   | [(ns & _ & _ & E) | (ns & v & rd & _ & _ & _ & _ & E)]]])];
    cbv zeta in *.
  - destruct Hv as (Hgc' & Hne' & Hcv'). rewrite Hgc', Hcv' in Hnot.
    destruct (Code.add_pandas_import code); [now destruct Hne' |].
    destruct Hnot; discriminate.
  - left. rewrite E. do 2 eexists. split; [reflexivity |]. split; reflexivity.
  - right. exists e. split; [exact E |]. split; [exact He |].
    destruct Hv as (Hgc' & _), Hv' as (Hgc'' & _).
    rewrite Hgc' in Hgc''. injection Hgc'' as ->. exact Ht.
  - left. rewrite E. do 2 eexists. split; [reflexivity |]. split; reflexivity.
  - left. rewrite E. do 2 eexists. split; [reflexivity |]. split; reflexivity.
Qed.

End RunsValidatedCode.

Lemma sample_run : Graph.run SampleRun.path Node.execute_code SampleRun.r7.
Proof.
  pose proof (Graph.run_start [] [] "s1" "total revenue by region"
                SampleFlow.files) as R.
  apply (Graph.run_step _ _ SampleRun.r0 [] Node.parse_files) in R;
    [| reflexivity | vm_compute; reflexivity].
  apply (Graph.run_step _ _ SampleRun.r0 [] Node.retrieve_context) in R;
    [| reflexivity | vm_compute; reflexivity].
  apply (Graph.run_step _ _ SampleRun.r0 [] Node.analyze_intent) in R;
    [| reflexivity | vm_compute; reflexivity].
  apply (Graph.run_step _ _ SampleRun.r0
           (Sample.updated
              (Planning.analyze_intent (Planning.Parsed None None None)
                 SampleRun.r0))
           Node.plan_analysis) in R;
    [| exists (Planning.Parsed None None None); reflexivity
     | vm_compute; reflexivity].
  apply (Graph.run_step _ _ SampleRun.r4 [] Node.generate_code) in R;
    [| reflexivity | vm_compute; reflexivity].
  apply (Graph.run_step _ _ SampleRun.r4
           (Sample.updated
              (Code.generate_code (Code.Generated "result = pd.DataFrame()")
                 SampleRun.r4))
           Node.validate_code) in R;
    [| exists (Code.Generated "result = pd.DataFrame()"); reflexivity
     | vm_compute; reflexivity].
  apply (Graph.run_step _ _ SampleRun.r6
           (Sample.updated (Code.validate_code (fun _ => None) SampleRun.r6))
           Node.execute_code) in R;
    [| exists (fun _ => None); reflexivity | vm_compute; reflexivity].
  exact R.
Qed.

Lemma run_executes_checked_code_witness :
  exists code,
    Spec.holds_validated SampleRun.r7 code
    /\ Spec.occurs "result" code
    /\ last SampleRun.path = Some Node.validate_code.
Proof.
  destruct (run_executes_checked_code SampleRun.path SampleRun.r7 sample_run)
    as (code & Hv & _ & Hr & Hl & _).
  exists code. split; [exact Hv |]. split; [exact Hr | exact Hl].
Defined.

(** ** The workflow, node by node *)

Section WorkflowTraces.

Import Graph.
Import Flow.

Lemma merge_app (st : GraphState) (u1 u2 : update) :
  merge st (u1 ++ u2) = merge (merge st u1) u2.
Proof. unfold merge. apply fold_left_app. Qed.

Lemma merge_errors (u : update) (st : GraphState) :
  errors (merge st u) = errors st ++ get_errors u.
Proof.
  unfold merge, get_errors. revert st.
  induction u as [|a u IH]; intros st; simpl; [now rewrite app_nil_r |].
  rewrite IH. destruct st, a; simpl; rewrite ?app_nil_r, <- ?app_assoc; reflexivity.
Qed.

Lemma merge_node_history (u : update) (st : GraphState) :
  node_history (merge st u) = node_history st ++ appended_history u.
Proof.
  unfold merge, appended_history. revert st.
  induction u as [|a u IH]; intros st; simpl; [now rewrite app_nil_r |].
  rewrite IH. destruct st, a; simpl; rewrite ?app_nil_r, <- ?app_assoc; reflexivity.
Qed.

Lemma merge_leaves_result_keys (u : update) (st : GraphState) :
  leaves_result_keys u = true ->
  result_data (merge st u) = result_data st
  /\ execution_result (merge st u) = execution_result st
  /\ explanation (merge st u) = explanation st.
Proof.
  unfold merge, leaves_result_keys. revert st.
  induction u as [|a u IH]; intros st H; simpl in *; [now repeat split |].
  apply andb_true_iff in H as [Ha Hu].
  destruct (IH (apply_assign st a) Hu) as (-> & -> & ->).
  destruct st, a; simpl; try discriminate; now repeat split.
Qed.

Lemma ingest_query_fields (st : GraphState) :
  result_data (Ingest.ingest_query st) = result_data st
  /\ execution_result (Ingest.ingest_query st) = execution_result st
  /\ explanation (Ingest.ingest_query st) = explanation st
  /\ node_history (Ingest.ingest_query st) = node_history st ++ ["ingest_query"]
  /\ exists more, errors (Ingest.ingest_query st) = errors st ++ more.
Proof.
  unfold Ingest.ingest_query.
  destruct (negb (truthy_str (Text.strip (user_query st)))); destruct st; simpl.
  - repeat split. now eexists.
  - repeat split. exists []. now rewrite app_nil_r.
Qed.

(** What one step does to the keys followed below: nothing, for the
    nodes that leave the three result keys alone. *)
Lemma step_quiet (n : Node.t) (st st' : GraphState) :
  step n st st' ->
  n <> Node.execute_code -> n <> Node.explain_result -> n <> Node.handle_error ->
  n <> Node.return_chat ->
  result_data st' = result_data st
  /\ execution_result st' = execution_result st
  /\ explanation st' = explanation st.
Proof.
  intros Hstep H1 H2 H3 H4.
  destruct Hstep as [st | st | st | st reply u Hu | st reply u Hu | st reply
                     | st reply u Hu | st | st py_compile u Hu
                     | st py_exec py_str format_exc t0 t1 u Hu | st reply
                     | st reply u Hu | st u Hu | st];
    try congruence.
  - destruct (ingest_query_fields st) as (? & ? & ? & _). now repeat split.
  - apply merge_leaves_result_keys. unfold Timeseries.parse_files.
    now destruct (default [] (available_files st)).
  - now apply merge_leaves_result_keys.
  - apply merge_leaves_result_keys. unfold Planning.analyze_intent in Hu.
    destruct reply as [i o f | msg | e];
      [injection Hu as <-; reflexivity | | discriminate].
    destruct (default _ (available_files st)); [discriminate |].
    injection Hu as <-. reflexivity.
  - apply merge_leaves_result_keys.
    destruct reply; try discriminate; injection Hu as <-; reflexivity.
  - apply merge_leaves_result_keys. unfold Timeseries.align_timeseries.
    destruct (negb _); [reflexivity |]. destruct (_ <? _)%nat; [reflexivity |].
    now destruct reply.
  - apply merge_leaves_result_keys.
    destruct reply; try discriminate; injection Hu as <-; reflexivity.
  - now apply merge_leaves_result_keys.
  - apply merge_leaves_result_keys.
    destruct (validate_code_cases py_compile st)
      as [[_ E] | [(c & e & errs & _ & _ & _ & E)
                  | [(c & _ & _ & _ & E) | (c & e & _ & _ & _ & E)]]];
      rewrite E in Hu; try discriminate; injection Hu as <-; reflexivity.
  - apply merge_leaves_result_keys. unfold Timeseries.trend_analysis.
    destruct (_ || _); [reflexivity |]. now destruct reply.
Qed.

Lemma next_targets (n n' : Node.t) (st : GraphState) :
  next n st = Ok (Goto n') -> In n' (successors n).
Proof.
  destruct n; try (unfold next; simpl; intros H; injection H as <-; now left);
    try (unfold next; simpl; discriminate).
  - intros H. apply next_plan_analysis in H as [-> | ->]; simpl; tauto.
  - rewrite next_validate_code. intros H. injection H as <-. simpl.
    destruct (code_valid st); [tauto |]. destruct (retry_count st <? 2); tauto.
  - intros H. apply next_execute_code in H as (r & _ & ->).
    simpl. destruct (success r); tauto.
Qed.

Lemma explain_result_fields (reply : Explanation.explain_reply)
      (st : GraphState) (u : update) :
  Explanation.explain_result reply st = Ok u ->
  result_data (merge st u) = result_data st
  /\ execution_result (merge st u) = execution_result st
  /\ explanation (merge st u) <> None.
Proof.
  unfold Explanation.explain_result.
  destruct (execution_result st) as [r|] eqn:Hr; [| discriminate].
  destruct (negb (success r)).
  { intros H. injection H as <-. destruct st; simpl in *. now repeat split. }
  destruct (result_data st) as [rd|] eqn:Hrd.
  - destruct reply as [content | msg | e].
    + destruct (Explanation.read_reply content) as [e recs].
      intros H. injection H as <-. destruct st; simpl in *. now repeat split.
    + intros H. injection H as <-. destruct st; simpl in *. now repeat split.
    + discriminate.
  - intros H. injection H as <-. destruct st; simpl in *. now repeat split.
Qed.

Lemma handle_error_fields (st : GraphState) :
  result_data (merge st (Explain.handle_error st)) = result_data st
  /\ execution_result (merge st (Explain.handle_error st)) = execution_result st
  /\ explanation (merge st (Explain.handle_error st)) <> None.
Proof. destruct st; simpl. now repeat split. Qed.

Lemma execute_code_fields py_exec py_str format_exc t0 t1
      (st : GraphState) (u : update) :
  Code.execute_code py_exec py_str format_exc t0 t1 st = Ok u ->
  result_data st = None ->
  explanation (merge st u) = explanation st
  /\ exists r,
      execution_result (merge st u) = Some r
      /\ if success r
         then exists rd, result_data (merge st u) = Some rd /\ is_envelope rd
         else result_data (merge st u) = None.
Proof.
  intros Hu Hrd.
  destruct (execute_code_cases py_exec py_str format_exc t0 t1 st)
    as [[_ E] | (code & _ & [(e & _ & _ & E) | [(e & _ & _ & E)
                 | [(ns & _ & _ & E) | (ns & v & rd & _ & _ & Hn & Henv & E)]]])];
    cbv zeta in E; rewrite E in Hu; try discriminate; injection Hu as <-;
    destruct st; simpl in *;
    (split; [reflexivity |]); eexists; (split; [reflexivity |]); simpl;
    try exact Hrd.
  exists rd. split; [reflexivity |]. now exists py_str, v.
Qed.

Lemma execute_code_sets_result py_exec py_str format_exc t0 t1
      (st : GraphState) (u : update) :
  Code.execute_code py_exec py_str format_exc t0 t1 st = Ok u ->
  exists r, execution_result (merge st u) = Some r.
Proof.
  intros Hu.
  destruct (execute_code_cases py_exec py_str format_exc t0 t1 st)
    as [[_ E] | (code & _ & [(e & _ & _ & E) | [(e & _ & _ & E)
                 | [(ns & _ & _ & E) | (ns & v & rd & _ & _ & _ & _ & E)]]])];
    cbv zeta in E; rewrite E in Hu; try discriminate; injection Hu as <-;
    destruct st; eexists; reflexivity.
Qed.

(** The facts of each position hold along every trace. *)
Lemma trace_from_position_facts (st0 : GraphState) (h : list Node.t)
      (n : Node.t) (st : GraphState) :
  starts st0 -> trace_from st0 h n st -> position_facts n st.
Proof.
  intros Hs0 Ht.
  induction Ht as [| h n st st' n' Htrace IH Hstep Hnext].
  - destruct Hs0. simpl. now repeat split.
  - destruct (Node.eqb n Node.execute_code) eqn:Hexec;
      [destruct n; try discriminate |].
    { (* execute_code *)
      inversion Hstep
        as [ | | | | | | | | | st1 py_exec py_str format_exc t0 t1 u Hu | | | | ];
        subst.
      unfold position_facts in IH; cbv beta iota in IH.
      destruct IH as (Hrd & _ & Hex).
      destruct (execute_code_fields py_exec py_str format_exc t0 t1 st u Hu Hrd)
        as (He & r & Hr & Hres).
      apply next_execute_code in Hnext as (r' & Hr' & ->).
      rewrite Hr in Hr'. injection Hr' as <-.
      unfold position_facts. destruct (success r) eqn:Hs; cbv beta iota.
      - split; [now exists r |]. split; [exact Hres | congruence].
      - split; [exact Hres | congruence]. }
    destruct (Node.eqb n Node.explain_result) eqn:Hexp;
      [destruct n; try discriminate |].
    { inversion Hstep as [ | | | | | | | | | | | st1 reply u Hu | | ]; subst.
      destruct (explain_result_fields reply st u Hu) as (Hrd & Her & Hex).
      unfold next in Hnext. simpl in Hnext. injection Hnext as <-.
      unfold position_facts in IH |- *; cbv beta iota in IH |- *.
      destruct IH as (Hs & (rd & Hrd0 & Henv) & _).
      split; [exact Hex |]. split.
      - right. exists rd. split; [congruence | exact Henv].
      - intros _. unfold succeeded. now rewrite Her. }
    destruct (Node.eqb n Node.handle_error) eqn:Hhe;
      [destruct n; try discriminate |].
    { inversion Hstep; subst.
      destruct (handle_error_fields st) as (Hrd & Her & Hex).
      unfold next in Hnext. simpl in Hnext. injection Hnext as <-.
      unfold position_facts in IH |- *; cbv beta iota in IH |- *.
      destruct IH as (Hn & _).
      split; [exact Hex |]. split; [left; congruence |].
      intros Hne. rewrite Hrd, Hn in Hne. now destruct Hne. }
    destruct (Node.eqb n Node.return_chat) eqn:Hrc;
      [destruct n; try discriminate; unfold next in Hnext; discriminate |].
    assert (Hq : result_data st' = result_data st
                 /\ execution_result st' = execution_result st
                 /\ explanation st' = explanation st).
    { apply (step_quiet n st st' Hstep); intros ->; discriminate. }
    destruct Hq as (Hrd & Her & Hex).
    pose proof (next_targets _ _ _ Hnext) as Hin.
    unfold position_facts in IH |- *.
    destruct n; try discriminate; simpl in Hin; cbv beta iota in IH;
      repeat (destruct Hin as [<- | Hin]); try destruct Hin;
      cbv beta iota; unfold succeeded in *; rewrite ?Hrd, ?Her, ?Hex;
      try exact IH; try tauto.
Qed.

Lemma trace_position_facts (h : list Node.t) (n : Node.t) (st : GraphState) :
  trace h n st -> position_facts n st.
Proof.
  intros (st0 & Hs0 & Ht). exact (trace_from_position_facts st0 h n st Hs0 Ht).
Qed.

Lemma return_chat_shape (st : GraphState) (u : update) :
  Explain.return_chat st = Ok u ->
  exists fr, u = [ SetFinalResponse fr; SetCurrentNode "return_chat";
                   AppendNodeHistory ["return_chat"] ].
Proof.
  unfold Explain.return_chat. intros Hu.
  destruct (result_data st) as [rd|].
  - destruct (String.eqb (rd_type rd) "dataframe").
    + destruct (py_truthy (rd_data rd)) as [[|]|]; try discriminate.
      * destruct (py_len (rd_data rd)); [| discriminate].
        destruct (Explain.add_summary _ _); [| discriminate].
        injection Hu as <-. eauto.
      * injection Hu as <-. eauto.
    + injection Hu as <-. eauto.
  - injection Hu as <-. eauto.
Qed.

(** What one step appends. *)
Lemma step_appends (n : Node.t) (st st' : GraphState) :
  step n st st' ->
  node_history st' = node_history st ++ [name n]
  /\ exists more, errors st' = errors st ++ more.
Proof.
  intros Hstep.
  assert (Hm : forall u, appended_history u = [name n] ->
                         node_history (merge st u) = node_history st ++ [name n]
                         /\ exists more, errors (merge st u) = errors st ++ more).
  { intros u Hu. rewrite merge_node_history, merge_errors, Hu. split; eauto. }
  destruct Hstep as [st | st | st | st reply u Hu | st reply u Hu | st reply
                     | st reply u Hu | st | st py_compile u Hu
                     | st py_exec py_str format_exc t0 t1 u Hu | st reply
                     | st reply u Hu | st u Hu | st].
  - destruct (ingest_query_fields st) as (_ & _ & _ & H & He). now split.
  - apply Hm. unfold Timeseries.parse_files.
    now destruct (default [] (available_files st)).
  - now apply Hm.
  - apply Hm. unfold Planning.analyze_intent in Hu.
    destruct reply as [i o f | msg | e];
      [injection Hu as <-; reflexivity | | discriminate].
    destruct (default _ (available_files st)); [discriminate |].
    injection Hu as <-. reflexivity.
  - apply Hm. destruct reply; try discriminate; injection Hu as <-; reflexivity.
  - apply Hm. unfold Timeseries.align_timeseries.
    destruct (negb _); [reflexivity |]. destruct (_ <? _)%nat; [reflexivity |].
    now destruct reply.
  - apply Hm. destruct reply; try discriminate; injection Hu as <-; reflexivity.
  - now apply Hm.
  - apply Hm.
    destruct (validate_code_cases py_compile st)
      as [[_ E] | [(c & e & errs & _ & _ & _ & E)
                  | [(c & _ & _ & _ & E) | (c & e & _ & _ & _ & E)]]];
      rewrite E in Hu; try discriminate; injection Hu as <-; reflexivity.
  - apply Hm.
    destruct (execute_code_cases py_exec py_str format_exc t0 t1 st)
      as [[_ E] | (code & _ & [(e & _ & _ & E) | [(e & _ & _ & E)
                   | [(ns & _ & _ & E) | (ns & v & rd & _ & _ & _ & _ & E)]]])];
      cbv zeta in E; rewrite E in Hu; try discriminate; injection Hu as <-;
      reflexivity.
  - apply Hm. unfold Timeseries.trend_analysis.
    destruct (_ || _); [reflexivity |]. now destruct reply.
  - apply Hm. unfold Explanation.explain_result in Hu.
    destruct (execution_result st) as [r|]; [| discriminate].
    destruct (negb (success r)); [injection Hu as <-; reflexivity |].
    destruct (result_data st); [| injection Hu as <-; reflexivity].
    destruct reply as [content | msg | e];
      [| injection Hu as <-; reflexivity | discriminate].
    destruct (Explanation.read_reply content). injection Hu as <-. reflexivity.
  - apply Hm. destruct (return_chat_shape st u Hu) as [fr ->]. reflexivity.
  - now apply Hm.
Qed.

Lemma is_path_snoc (h : list Node.t) (a b : Node.t) :
  is_path (h ++ [a]) -> In b (successors a) -> is_path ((h ++ [a]) ++ [b]).
Proof.
  induction h as [|x h IH]; simpl; intros Hp Hin; [tauto |].
  destruct h as [|y h]; simpl in *; [tauto |].
  destruct Hp as [Hxy Hp]. split; [exact Hxy |]. now apply IH.
Qed.

Lemma trace_from_node_history (st0 : GraphState) (h : list Node.t) (n : Node.t)
      (st : GraphState) :
  trace_from st0 h n st ->
  node_history st = node_history st0 ++ map name h
  /\ (exists more, errors st = errors st0 ++ more)
  /\ is_path (h ++ [n])
  /\ hd_error (h ++ [n]) = Some Node.ingest_query.
Proof.
  induction 1 as [| h n st st' n' Htrace (IHh & [more IHe] & IHp & IHs) Hstep Hnext].
  - split; [now rewrite app_nil_r |].
    split; [exists []; now rewrite app_nil_r |]. now split.
  - destruct (step_appends n st st' Hstep) as [Hh [more' He]].
    split; [now rewrite Hh, IHh, map_app, app_assoc |].
    split; [exists (more ++ more'); now rewrite He, IHe, app_assoc |].
    split; [apply is_path_snoc; [exact IHp | exact (next_targets _ _ _ Hnext)] |].
    destruct h; simpl in *; congruence.
Qed.

(** The first run of a session starts in the input itself. *)
Lemma start_state_first_run (sid query : string) (files : list FileDict) :
  start_state [] [] sid query files = create_initial_state sid query files.
Proof. reflexivity. Qed.

Lemma start_state_lists (prior_history prior_errors : list string)
      (sid query : string) (files : list FileDict) :
  node_history (start_state prior_history prior_errors sid query files)
  = prior_history
  /\ errors (start_state prior_history prior_errors sid query files)
     = prior_errors.
Proof. unfold start_state. simpl. now rewrite !app_nil_r. Qed.

(** X7.  The trace kept in [node_history] is the path taken, after
    what the session has left there: a run starts with the history and
    the errors of the earlier runs of its session (none in the first
    run), and in every run the history then holds, after them, the names
    of the nodes that have run, in the order in which they ran, each
    exactly once per visit; [errors] only grows; the nodes visited,
    followed by the node about to run, start at [ingest_query] and
    follow the edges of the graph. *)
Theorem trace_node_history (prior_history prior_errors : list string)
        (sid query : string) (files : list FileDict)
        (h : list Node.t) (n : Node.t) (st : GraphState) :
  trace_from (start_state prior_history prior_errors sid query files) h n st ->
  node_history st = prior_history ++ map name h
  /\ (exists more, errors st = prior_errors ++ more)
  /\ is_path (h ++ [n])
  /\ hd_error (h ++ [n]) = Some Node.ingest_query.
Proof.
  intros Ht.
  destruct (trace_from_node_history _ _ _ _ Ht) as (Hh & He & Hp & Hs).
  destruct (start_state_lists prior_history prior_errors sid query files)
    as [E1 E2].
  rewrite E1 in Hh. rewrite E2 in He. now repeat split.
Qed.

Lemma next_execute_code_some (st : GraphState) (r : ExecutionResult) :
  execution_result st = Some r ->
  next Node.execute_code st
  = Ok (Goto (if success r then Node.trend_analysis else Node.handle_error)).
Proof.
  intros Hr. unfold next. cbn [build_graph]. unfold check_execution_success.
  rewrite Hr. destruct (success r); reflexivity.
Qed.

Lemma next_END (n : Node.t) (st : GraphState) :
  next n st = Ok END -> n = Node.return_chat.
Proof.
  unfold next.
  destruct n; cbn [build_graph]; try discriminate; try reflexivity;
    (destruct (_ st) as [l|]; [| discriminate];
     destruct (table_lookup l _); discriminate).
Qed.

Lemma handle_error_explanation (st : GraphState) :
  exists c msg,
    explanation (merge st (Explain.handle_error st)) = Some (String c msg).
Proof. destruct st. eexists. eexists. reflexivity. Qed.

(** After [plan_analysis] the edge function raises exactly for an
    operation type of [cross_table] or [temporal] with a plan that is
    not a dictionary. *)
Lemma next_plan_analysis_cases (st : GraphState) :
  (Timeseries.is_cross_or_temporal (operation_type st) = true
   /\ (forall p, plan st <> Some (PlanDict p))
   /\ exists msg, next Node.plan_analysis st = Raise (AttributeError msg))
  \/ ((Timeseries.is_cross_or_temporal (operation_type st) = false
       \/ exists p, plan st = Some (PlanDict p))
      /\ exists n', next Node.plan_analysis st = Ok (Goto n')).
Proof.
  unfold next. cbn [build_graph]. unfold should_align_timeseries.
  unfold Timeseries.is_cross_or_temporal.
  destruct (operation_type st) as [ot|];
    [| right; split; [now left | eexists; reflexivity]].
  destruct (String.eqb ot "cross_table" || String.eqb ot "temporal");
    [| right; split; [now left | eexists; reflexivity]].
  destruct (plan st) as [[p | type_name]|].
  - right. split; [right; now exists p |].
    destruct (time_alignment_needed p); eexists; reflexivity.
  - left. split; [reflexivity |]. split; [discriminate |].
    eexists. reflexivity.
  - left. split; [reflexivity |]. split; [discriminate |].
    eexists. reflexivity.
Qed.

(** X8.  Routing after a node that has returned.  The conditional edge
    function that follows the node returns a label that the graph
    knows, so that the workflow moves to a next node or, after
    [return_chat] and only then, ends, in every case but one: after
    [plan_analysis], for an operation type of [cross_table] or
    [temporal] and a stored plan that is not a dictionary,
    [should_align_timeseries] raises an [AttributeError].  That case
    arises: [plan_analysis] stores whatever value the reply of the
    model parses to, and leaves the operation type as it is. *)
Theorem routing_never_raises (n : Node.t) (st st' : GraphState) :
  step n st st' ->
  ((exists t,
       next n st' = Ok t
       /\ (t = END <-> n = Node.return_chat)
       /\ (forall n', t = Goto n' -> In n' (successors n)))
   <-> ~ (n = Node.plan_analysis
          /\ Timeseries.is_cross_or_temporal (operation_type st') = true
          /\ forall p, plan st' <> Some (PlanDict p)))
  /\ (n = Node.plan_analysis ->
      Timeseries.is_cross_or_temporal (operation_type st') = true ->
      (forall p, plan st' <> Some (PlanDict p)) ->
      exists msg, next n st' = Raise (AttributeError msg))
  /\ (n = Node.plan_analysis ->
      forall v, exists st'',
        step Node.plan_analysis st st''
        /\ plan st'' = v /\ operation_type st'' = operation_type st).
Proof.
  intros Hstep.
  assert (Hgen : forall t, next n st' = Ok t ->
            exists t0, next n st' = Ok t0
                       /\ (t0 = END <-> n = Node.return_chat)
                       /\ (forall n', t0 = Goto n' -> In n' (successors n))).
  { intros t Ht. exists t. split; [exact Ht |]. split.
    - split.
      + intros ->. exact (next_END _ _ Ht).
      + intros ->. unfold next in Ht. cbn [build_graph] in Ht. now injection Ht as <-.
    - intros n' ->. exact (next_targets _ _ _ Ht). }
  assert (Hother : n <> Node.plan_analysis ->
            exists t, next n st' = Ok t).
  { intros Hn.
    destruct Hstep as [st | st | st | st reply u Hu | st reply u Hu | st reply
                       | st reply u Hu | st | st py_compile u Hu
                       | st py_exec py_str format_exc t0 t1 u Hu | st reply
                       | st reply u Hu | st u Hu | st];
      try (eexists; reflexivity).
    - now destruct Hn.
    - eexists. apply next_validate_code.
    - destruct (execute_code_sets_result py_exec py_str format_exc t0 t1 st u Hu)
        as [r Hr].
      eexists. apply (next_execute_code_some _ r Hr). }
  split; [| split].
  - split.
    + intros (t & Ht & _) (-> & Hop & Hp).
      destruct (next_plan_analysis_cases st')
        as [(_ & _ & msg & E) | ([Hf | [p Hp']] & _)].
      * rewrite E in Ht. discriminate.
      * congruence.
      * now destruct (Hp p).
    + intros Hnot.
      destruct (Node.eqb n Node.plan_analysis) eqn:E.
      * destruct n; try discriminate.
        destruct (next_plan_analysis_cases st')
          as [(Hop & Hp & _) | (_ & n' & Hn')].
        -- destruct Hnot. now repeat split.
        -- exact (Hgen _ Hn').
      * destruct Hother as [t Ht]; [intros ->; discriminate |].
        exact (Hgen _ Ht).
  - intros -> Hop Hp.
    destruct (next_plan_analysis_cases st')
      as [(_ & _ & msg & E) | ([Hf | [p Hp']] & _)].
    + now exists msg.
    + congruence.
    + now destruct (Hp p).
  - intros _ v.
    exists (merge st [ SetPlan v; SetCurrentNode "plan_analysis";
                       AppendNodeHistory ["plan_analysis"] ]).
    split; [apply (step_plan_analysis st (Plans.PlanParsed v)); reflexivity |].
    destruct st; split; reflexivity.
Qed.

Lemma trace_from_snoc_inv (st0 : GraphState) (h : list Node.t) (m n : Node.t)
      (st : GraphState) :
  trace_from st0 (h ++ [m]) n st ->
  exists st1, trace_from st0 h m st1 /\ step m st1 st /\ next m st = Ok (Goto n).
Proof.
  intros H. inversion H as [E | h0 m0 st1 st' n0 Ht Hs Hn E].
  - now destruct h.
  - apply app_inj_tail in E as [-> ->]. now exists st1.
Qed.

(** On a state that [return_chat] is about to run in, the result is
    well formed unless it was built from an object with a [to_dict]
    that is not a data frame. *)
Lemma trace_result_cases (h : list Node.t) (st : GraphState) :
  trace h Node.return_chat st ->
  explanation st <> None
  /\ (Spec.result_well_formed st
      \/ exists py_str records columns_tolist shape_list rd,
           result_data st = Some rd
           /\ Code.envelope py_str
                (ToDictObject (Ok records) columns_tolist shape_list) = Ok rd
           /\ rd_type rd = "dataframe"
           /\ rd_data rd = Code.convert_to_serializable records).
Proof.
  intros Ht.
  pose proof (trace_position_facts _ _ _ Ht) as (Hex & Henv & _).
  split; [exact Hex |].
  destruct Henv as [Hn | (rd & Hrd & py_str & v & Hv & Henv)].
  - left. intros rd Hrd. congruence.
  - destruct (String.eqb (rd_type rd) "dataframe") eqn:Ht'.
    + apply String.eqb_eq in Ht'.
      destruct (envelope_dataframe py_str v rd Henv Ht')
        as [(cols & recs & -> & Hd) | (records & c & s & -> & Hd)].
      * left. intros rd' Hrd' _. rewrite Hrd in Hrd'. injection Hrd' as <-.
        eexists. exact Hd.
      * right. now exists py_str, records, c, s, rd.
    + left. intros rd' Hrd' Hty. rewrite Hrd in Hrd'. injection Hrd' as <-.
      rewrite Hty in Ht'. discriminate.
Qed.

Lemma return_chat_final_text (st : GraphState) (u : update) (text : string) :
  Explain.return_chat st = Ok u ->
  get_final_response u = Some (Some text) ->
  final_response (merge st u) = Some text.
Proof.
  intros Hu Hf. destruct (return_chat_shape st u Hu) as [fr ->].
  simpl in Hf. injection Hf as ->. destruct st; reflexivity.
Qed.

Lemma trace_ends_with_response_aux (h : list Node.t) (st : GraphState) :
  trace h Node.return_chat st ->
  Spec.result_well_formed st ->
  exists st',
    step Node.return_chat st st'
    /\ next Node.return_chat st' = Ok END
    /\ final_response st'
       = Some (Spec.base_response st +:+ Spec.summary_line st).
Proof.
  intros Ht Hwf.
  destruct (trace_result_cases h st Ht) as [Hex _].
  destruct (return_chat_returns st (or_introl Hex) Hwf) as (u & Hu & Hf).
  exists (merge st u). split; [now apply step_return_chat |].
  split; [reflexivity |].
  exact (return_chat_final_text st u _ Hu Hf).
Qed.

Lemma after_handle_error (h : list Node.t) (st : GraphState) :
  trace h Node.return_chat st ->
  last h = Some Node.handle_error ->
  result_data st = None
  /\ exists c msg, explanation st = Some (String c msg).
Proof.
  intros (st0 & Hs0 & Ht) Hlast.
  destruct h as [|x h' _] using rev_ind; [discriminate |].
  rewrite last_snoc in Hlast. injection Hlast as ->.
  apply trace_from_snoc_inv in Ht as (st1 & Ht1 & Hs & _).
  pose proof (trace_from_position_facts _ _ _ _ Hs0 Ht1) as (Hrd1 & _).
  inversion Hs; subst.
  destruct (handle_error_fields st1) as (Hrd & _ & _).
  split; [congruence |].
  apply handle_error_explanation.
Qed.

(** X9.  A run that reaches [return_chat] gets its answer whenever the
    result in the state is well formed, which it is unless the executed
    code left an object with a [to_dict] that is not a data frame:
    [return_chat] returns, the workflow ends there, and
    [final_response] is a text, the explanation in place (or the list of
    errors when that explanation is empty) followed by the row summary
    of a tabular result.  After [handle_error] this always holds, the
    text is the error message itself, and it is not empty.  Whenever
    [return_chat] returns, the workflow ends with a text as final
    response.  It raises only on the tabular envelope of an object
    with a [to_dict] whose data has no truth value or is true and has
    no length, with the exception of [bool()] or [len()]. *)
Theorem trace_ends_with_response (h : list Node.t) (st : GraphState) :
  trace h Node.return_chat st ->
  (Spec.result_well_formed st ->
   exists st',
     step Node.return_chat st st'
     /\ next Node.return_chat st' = Ok END
     /\ final_response st'
        = Some (Spec.base_response st +:+ Spec.summary_line st))
  /\ (last h = Some Node.handle_error ->
      Spec.result_well_formed st
      /\ exists st',
          step Node.return_chat st st'
          /\ next Node.return_chat st' = Ok END
          /\ final_response st' = explanation st
          /\ final_response st' <> Some EmptyString)
  /\ (forall st',
         step Node.return_chat st st' ->
         next Node.return_chat st' = Ok END
         /\ exists text, final_response st' = Some text)
  /\ (forall e,
         Explain.return_chat st = Raise e ->
         exists py_str records columns_tolist shape_list rd,
           result_data st = Some rd
           /\ Code.envelope py_str
                (ToDictObject (Ok records) columns_tolist shape_list) = Ok rd
           /\ rd_data rd = Code.convert_to_serializable records
           /\ (py_truthy (rd_data rd) = Raise e
               \/ (py_truthy (rd_data rd) = Ok true
                   /\ py_len (rd_data rd) = Raise e))).
Proof.
  intros Ht.
  destruct (trace_result_cases h st Ht) as [Hex Hcases].
  split; [exact (trace_ends_with_response_aux h st Ht) |].
  split; [| split].
  - intros Hlast.
    destruct (after_handle_error h st Ht Hlast) as (Hrd & c & msg & He).
    assert (Hwf : Spec.result_well_formed st)
      by (intros rd Hrd'; congruence).
    split; [exact Hwf |].
    destruct (trace_ends_with_response_aux h st Ht Hwf) as (st' & Hs & Hn & Hf).
    exists st'. split; [exact Hs |]. split; [exact Hn |].
    assert (Hsum : Spec.summary_line st = EmptyString).
    { unfold Spec.summary_line, Spec.dataframe_rows. now rewrite Hrd. }
    rewrite Hf, Hsum, append_nil_r.
    unfold Spec.base_response. rewrite He.
    split; [reflexivity | discriminate].
  - intros st' Hs. split; [reflexivity |].
    inversion Hs as [ | | | | | | | | | | | | st1 u Hu | ]; subst.
    destruct (return_chat_shape st u Hu) as [fr ->].
    unfold Explain.return_chat in Hu.
    rewrite (response_before_summary st (or_introl Hex)) in Hu.
    destruct (result_data st) as [rd|].
    + destruct (String.eqb (rd_type rd) "dataframe").
      * destruct (py_truthy (rd_data rd)) as [[|]|]; try discriminate.
        -- destruct (py_len (rd_data rd)); [| discriminate].
           injection Hu as <-. eexists. destruct st; reflexivity.
        -- injection Hu as <-. eexists. destruct st; reflexivity.
      * injection Hu as <-. eexists. destruct st; reflexivity.
    + injection Hu as <-. eexists. destruct st; reflexivity.
  - intros e He.
    destruct (return_chat_raises st e (or_introl Hex) He)
      as (rd & Hrd & Hty & Hdata).
    destruct Hcases as [Hwf | (py_str & records & c & s & rd' & Hrd' & Henv & _ & Hd)].
    + destruct (return_chat_returns st (or_introl Hex) Hwf) as (u & Hu & _).
      rewrite Hu in He. discriminate.
    + rewrite Hrd in Hrd'. injection Hrd' as <-.
      now exists py_str, records, c, s, rd.
Qed.

(** X10.  The state in which the workflow ends: the last node that ran
    is [return_chat]; [final_response] and [explanation] are texts;
    [node_history] holds what the earlier runs of the session left
    there, followed by the names of the nodes that ran, in order;
    [errors] holds what the earlier runs left, followed by the errors of
    this run; and [result_data] is there only if the execution
    succeeded, in which case it is an envelope built by the executor. *)
Theorem finished_state (prior_history prior_errors : list string)
        (sid query : string) (files : list FileDict)
        (h : list Node.t) (st : GraphState) :
  finished_from (start_state prior_history prior_errors sid query files) h st ->
  last h = Some Node.return_chat
  /\ (exists text, final_response st = Some text)
  /\ (exists text, explanation st = Some text)
  /\ node_history st = prior_history ++ map name h
  /\ (exists more, errors st = prior_errors ++ more)
  /\ (result_data st <> None -> succeeded st)
  /\ envelope_or_none st.
Proof.
  intros [h0 n st1 st' Ht Hs Hn].
  apply next_END in Hn as ->.
  split; [apply last_snoc |].
  pose proof (trace_from_position_facts _ _ _ _
                (starts_at prior_history prior_errors sid query files) Ht)
    as (Hex & Henv & Hres).
  destruct (trace_from_node_history _ _ _ _ Ht) as (Hh & [more He] & _).
  destruct (start_state_lists prior_history prior_errors sid query files)
    as [E1 E2].
  rewrite E1 in Hh. rewrite E2 in He.
  destruct (step_appends _ _ _ Hs) as [Hh' [more' He']].
  inversion Hs as [ | | | | | | | | | | | | st2 u Hu | ]; subst.
  destruct (return_chat_shape st1 u Hu) as [fr ->].
  assert (Hsame : result_data (merge st1 [SetFinalResponse fr;
                                          SetCurrentNode "return_chat";
                                          AppendNodeHistory ["return_chat"]])
                  = result_data st1
                  /\ execution_result (merge st1 [SetFinalResponse fr;
                                          SetCurrentNode "return_chat";
                                          AppendNodeHistory ["return_chat"]])
                     = execution_result st1
                  /\ explanation (merge st1 [SetFinalResponse fr;
                                          SetCurrentNode "return_chat";
                                          AppendNodeHistory ["return_chat"]])
                     = explanation st1)
    by now apply merge_leaves_result_keys.
  destruct Hsame as (Hrd & Her & Hexp).
  split.
  { unfold Explain.return_chat in Hu.
    rewrite (response_before_summary st1 (or_introl Hex)) in Hu.
    destruct (result_data st1) as [rd|].
    + destruct (String.eqb (rd_type rd) "dataframe").
      * destruct (py_truthy (rd_data rd)) as [[|]|]; try discriminate.
        -- destruct (py_len (rd_data rd)); [| discriminate].
           injection Hu as <-. eexists. destruct st1; reflexivity.
        -- injection Hu as <-. eexists. destruct st1; reflexivity.
      * injection Hu as <-. eexists. destruct st1; reflexivity.
    + injection Hu as <-. eexists. destruct st1; reflexivity. }
  split.
  { rewrite Hexp. destruct (explanation st1) as [e|]; [eauto | now destruct Hex]. }
  split; [now rewrite Hh', Hh, map_app, app_assoc |].
  split; [exists (more ++ more'); now rewrite He', He, app_assoc |].
  split.
  { rewrite Hrd. intros Hne. unfold succeeded. rewrite Her. exact (Hres Hne). }
  unfold envelope_or_none. now rewrite Hrd.
Qed.

(** X11.  Along every run the result keys follow the position in the
    graph: [result_data] is present only after an execution that
    succeeded, and it is then an envelope built by the executor; the
    explanation is written last, so that it is present exactly when
    [return_chat] is about to run. *)
Theorem trace_result_keys (h : list Node.t) (n : Node.t) (st : GraphState) :
  trace h n st ->
  (result_data st <> None -> succeeded st)
  /\ envelope_or_none st
  /\ (explanation st <> None <-> n = Node.return_chat)
  /\ (n = Node.trend_analysis \/ n = Node.explain_result ->
      succeeded st /\ result_data st <> None).
Proof.
  intros Ht. pose proof (trace_position_facts _ _ _ Ht) as H.
  unfold position_facts, envelope_or_none in *.
  destruct n; cbv beta iota in H;
    repeat match goal with H : _ /\ _ |- _ => destruct H end;
    (split; [try tauto; try (intros Hne; congruence) |]);
    (split; [try tauto; try (left; assumption); try (right; assumption) |]);
    (split; [split; [try congruence; try tauto | try discriminate; try tauto] |]);
    try (intros [Hn | Hn]; discriminate);
    try (intros _; split; [assumption |]);
    try match goal with
        | Hv : exists _, result_data _ = Some _ /\ _ |- _ =>
            destruct Hv as (? & Hv & _); congruence
        end.
Qed.

End WorkflowTraces.

(** A run up to the executor. *)
Lemma sample_trace_to_executor :
  Flow.trace_from SampleFlow.s0 SampleFlow.path_to_executor Node.execute_code
    SampleFlow.s7.
Proof.
  pose proof (Flow.trace_start SampleFlow.s0) as T.
  apply (Flow.trace_step _ _ _ _ SampleFlow.s1 Node.parse_files) in T;
    [| apply Flow.step_ingest_query | vm_compute; reflexivity].
  apply (Flow.trace_step _ _ _ _ SampleFlow.s2 Node.retrieve_context) in T;
    [| apply Flow.step_parse_files | vm_compute; reflexivity].
  apply (Flow.trace_step _ _ _ _ SampleFlow.s3 Node.analyze_intent) in T;
    [| apply Flow.step_retrieve_context | vm_compute; reflexivity].
  apply (Flow.trace_step _ _ _ _ SampleFlow.s4 Node.plan_analysis) in T;
    [| apply (Flow.step_analyze_intent _
                (Planning.Parsed (Some "aggregate") (Some "single_table")
                                 (Some ["sales_nov_2024.csv"])));
       vm_compute; reflexivity
     | vm_compute; reflexivity].
  apply (Flow.trace_step _ _ _ _ SampleFlow.s5 Node.generate_code) in T;
    [| apply (Flow.step_plan_analysis _
                (Plans.PlanParsed
                   (Some (PlanDict {| time_alignment_needed := false |}))));
       vm_compute; reflexivity
     | vm_compute; reflexivity].
  apply (Flow.trace_step _ _ _ _ SampleFlow.s6 Node.validate_code) in T;
    [| apply (Flow.step_generate_code _
                (Code.Generated
                   "result = pd.read_csv(path).groupby('region').sum()"));
       vm_compute; reflexivity
     | vm_compute; reflexivity].
  apply (Flow.trace_step _ _ _ _ SampleFlow.s7 Node.execute_code) in T;
    [| apply (Flow.step_validate_code _ (fun _ => None)); vm_compute; reflexivity
     | vm_compute; reflexivity].
  exact T.
Qed.

(** A run that goes through a successful execution. *)
Lemma sample_trace_from :
  Flow.trace_from SampleFlow.s0 SampleFlow.path Node.return_chat SampleFlow.s10.
Proof.
  pose proof sample_trace_to_executor as T.
  apply (Flow.trace_step _ _ _ _ SampleFlow.s8 Node.trend_analysis) in T;
    [| apply (Flow.step_execute_code _ (Sample.exec_binds SampleFlow.table)
                Sample.str_opaque Sample.format_exc 10 (21 # 2));
       vm_compute; reflexivity
     | vm_compute; reflexivity].
  apply (Flow.trace_step _ _ _ _ SampleFlow.s9 Node.explain_result) in T;
    [| apply Flow.step_trend_analysis | vm_compute; reflexivity].
  apply (Flow.trace_step _ _ _ _ SampleFlow.s10 Node.return_chat) in T;
    [| apply (Flow.step_explain_result _
                (Explanation.Explained SampleFlow.reply_text));
       vm_compute; reflexivity
     | vm_compute; reflexivity].
  exact T.
Qed.

Lemma sample_trace :
  Flow.trace SampleFlow.path Node.return_chat SampleFlow.s10.
Proof.
  exists SampleFlow.s0. split; [apply starts_at | exact sample_trace_from].
Qed.

Lemma sample_finished_from :
  Flow.finished_from SampleFlow.s0 (SampleFlow.path ++ [Node.return_chat])
    SampleFlow.s11.
Proof.
  apply (Flow.finished_at _ _ _ SampleFlow.s10); [exact sample_trace_from | |].
  - apply Flow.step_return_chat. vm_compute. reflexivity.
  - vm_compute. reflexivity.
Qed.

(** The same run, when the executed code leaves an object whose
    [to_dict] returns a number. *)
Lemma sample_trace_number :
  Flow.trace SampleFlow.path Node.return_chat SampleFlow.q10.
Proof.
  exists SampleFlow.s0. split; [apply starts_at |].
  pose proof sample_trace_to_executor as T.
  apply (Flow.trace_step _ _ _ _ SampleFlow.q8 Node.trend_analysis) in T;
    [| apply (Flow.step_execute_code _
                (Sample.exec_binds SampleFlow.to_dict_number)
                Sample.str_opaque Sample.format_exc 10 (21 # 2));
       vm_compute; reflexivity
     | vm_compute; reflexivity].
  apply (Flow.trace_step _ _ _ _ SampleFlow.q9 Node.explain_result) in T;
    [| apply Flow.step_trend_analysis | vm_compute; reflexivity].
  apply (Flow.trace_step _ _ _ _ SampleFlow.q10 Node.return_chat) in T;
    [| apply (Flow.step_explain_result _
                (Explanation.Explained SampleFlow.reply_text));
       vm_compute; reflexivity
     | vm_compute; reflexivity].
  exact T.
Qed.

(** On that run [return_chat] raises, and the run ends without a final
    response. *)
Example return_chat_raises_in_a_run :
  Flow.trace SampleFlow.path Node.return_chat SampleFlow.q10
  /\ Explain.return_chat SampleFlow.q10
     = Raise (TypeError "object has no len()")
  /\ final_response SampleFlow.q10 = None.
Proof.
  split; [exact sample_trace_number |]. split; vm_compute; reflexivity.
Qed.

(** The second run of a session starts with the history of the
    first. *)
Lemma sample_resumed_trace :
  Flow.trace_from SampleResumed.b0 [Node.ingest_query] Node.parse_files
    SampleResumed.b1.
Proof.
  apply (Flow.trace_step _ [] Node.ingest_query SampleResumed.b0);
    [apply Flow.trace_start | apply Flow.step_ingest_query
     | vm_compute; reflexivity].
Qed.

Lemma trace_node_history_witness :
  node_history SampleResumed.b1
  = [ "ingest_query"; "parse_files"; "retrieve_context"; "analyze_intent";
      "plan_analysis"; "generate_code"; "validate_code"; "execute_code";
      "trend_analysis"; "explain_result"; "return_chat" ]
    ++ ["ingest_query"].
Proof.
  destruct (trace_node_history
              (node_history SampleFlow.s11) (errors SampleFlow.s11)
              "s1" "and by month" SampleFlow.files
              [Node.ingest_query] Node.parse_files SampleResumed.b1
              sample_resumed_trace) as (H & _).
  exact H.
Defined.

Lemma routing_never_raises_witness :
  exists t,
    Graph.next Node.execute_code SampleFlow.s8 = Ok t
    /\ (t = Graph.END <-> Node.execute_code = Node.return_chat).
Proof.
  destruct (routing_never_raises Node.execute_code SampleFlow.s7 SampleFlow.s8)
    as (Hok & _).
  - apply (Flow.step_execute_code _ (Sample.exec_binds SampleFlow.table)
             Sample.str_opaque Sample.format_exc 10 (21 # 2)).
    vm_compute. reflexivity.
  - destruct (proj2 Hok) as (t & Ht & Hend & _).
    + intros (H & _). discriminate.
    + exists t. split; [exact Ht | exact Hend].
Defined.

(** A plan that is a list, for a comparison across files: the routing
    after [plan_analysis] raises. *)
Example routing_raises_on_list_plan :
  Flow.step Node.plan_analysis SampleAlign.a4 SampleAlign.a5_list
  /\ Graph.next Node.plan_analysis SampleAlign.a5_list
     = Raise (AttributeError "'list' object has no attribute 'get'").
Proof.
  split; [| vm_compute; reflexivity].
  apply (Flow.step_plan_analysis _ (Plans.PlanParsed (Some (NotADict "list")))).
  vm_compute. reflexivity.
Qed.

Lemma trace_ends_with_response_witness :
  exists st',
    Flow.step Node.return_chat SampleFlow.s10 st'
    /\ final_response st'
       = Some (Spec.base_response SampleFlow.s10
               +:+ Spec.summary_line SampleFlow.s10).
Proof.
  destruct (trace_ends_with_response SampleFlow.path SampleFlow.s10 sample_trace)
    as (Hwf & _).
  destruct Hwf as (st' & Hs & _ & Hf).
  - intros rd Hrd _. vm_compute in Hrd. injection Hrd as <-.
    eexists. reflexivity.
  - exists st'. split; [exact Hs | exact Hf].
Defined.

Lemma finished_state_witness :
  last (SampleFlow.path ++ [Node.return_chat]) = Some Node.return_chat
  /\ (exists text, final_response SampleFlow.s11 = Some text)
  /\ node_history SampleFlow.s11
     = [] ++ map Flow.name (SampleFlow.path ++ [Node.return_chat]).
Proof.
  destruct (finished_state [] [] "s1" "  total revenue by region "
              SampleFlow.files _ _ sample_finished_from)
    as (Hl & Hf & _ & Hh & _).
  split; [exact Hl |]. split; [exact Hf | exact Hh].
Defined.

Lemma trace_result_keys_witness :
  (result_data SampleFlow.s10 <> None -> Flow.succeeded SampleFlow.s10)
  /\ Flow.envelope_or_none SampleFlow.s10.
Proof.
  destruct (trace_result_keys _ _ _ sample_trace) as (Hs & He & _).
  split; [exact Hs | exact He].
Defined.

Example sample_final_response :
  final_response SampleFlow.s11
  = Some ("Revenue is up in both regions."
          +:+ nl +:+ nl +:+ Explain.CHART +:+ " *Result: 2 rows returned*")
  /\ recommendations SampleFlow.s11
     = ["Keep the current pricing"; "Review the southern stock"]
  /\ user_query SampleFlow.s11 = "total revenue by region"
  /\ node_history SampleFlow.s11
     = [ "ingest_query"; "parse_files"; "retrieve_context"; "analyze_intent";
         "plan_analysis"; "generate_code"; "validate_code"; "execute_code";
         "trend_analysis"; "explain_result"; "return_chat" ].
Proof. repeat split; vm_compute; reflexivity. Qed.

(** ** Query intake *)

Section QueryIntake.

#[local] Arguments String.append !_ _ / : simpl nomatch.

Lemma lstrip_spec (s : string) :
  exists pre,
    s = pre +:+ Text.lstrip s
    /\ Text.all_space pre = true
    /\ (forall c, Text.first_char (Text.lstrip s) = Some c -> Text.is_space c = false).
Proof.
  induction s as [|c s (pre & E & Hpre & Hfirst)]; simpl.
  - exists EmptyString. repeat split. discriminate.
  - destruct (Text.is_space c) eqn:Hc.
    + exists (String c pre). simpl. rewrite <- E, Hc, Hpre. now repeat split.
    + exists EmptyString. repeat split. simpl. intros c' H. now injection H as <-.
Qed.

Lemma rstrip_spec (s : string) :
  exists post,
    s = Text.rstrip s +:+ post
    /\ Text.all_space post = true
    /\ (forall c, Text.last_char (Text.rstrip s) = Some c -> Text.is_space c = false)
    /\ Text.first_char (Text.rstrip s)
       = match Text.rstrip s with
         | EmptyString => None
         | _ => Text.first_char s
         end.
Proof.
  induction s as [|c s (post & E & Hpost & Hlast & Hfirst)]; simpl.
  - exists EmptyString. repeat split. discriminate.
  - destruct (Text.rstrip s) as [|d r] eqn:Hr.
    + simpl in E. subst s. destruct (Text.is_space c) eqn:Hc.
      * exists (String c post). simpl. rewrite Hc, Hpost.
        repeat split. discriminate.
      * exists post. simpl. repeat split; [exact Hpost |].
        intros c' H. now injection H as <-.
    + exists post. simpl in E |- *. rewrite <- E. repeat split; [exact Hpost |].
      exact Hlast.
Qed.

Lemma rstrip_trimmed_fixed (s : string) :
  (forall c, Text.last_char s = Some c -> Text.is_space c = false) ->
  Text.rstrip s = s.
Proof.
  induction s as [|c s IH]; intros H; [reflexivity |].
  simpl. destruct s as [|d s].
  - simpl. now rewrite (H c eq_refl).
  - rewrite IH by exact H. reflexivity.
Qed.

Lemma lstrip_trimmed_fixed (s : string) :
  (forall c, Text.first_char s = Some c -> Text.is_space c = false) ->
  Text.lstrip s = s.
Proof.
  destruct s as [|c s]; intros H; [reflexivity |].
  simpl. now rewrite (H c eq_refl).
Qed.

Lemma strip_spec (s : string) :
  (exists pre post,
      s = pre +:+ Text.strip s +:+ post
      /\ Text.all_space pre = true /\ Text.all_space post = true)
  /\ Text.trimmed (Text.strip s).
Proof.
  unfold Text.strip, Text.trimmed.
  destruct (lstrip_spec s) as (pre & E1 & Hpre & Hfirst).
  destruct (rstrip_spec (Text.lstrip s)) as (post & E2 & Hpost & Hlast & Hf).
  split.
  - exists pre, post. split; [| now split]. rewrite <- E2. exact E1.
  - split; [| exact Hlast].
    rewrite Hf. destruct (Text.rstrip (Text.lstrip s)); [discriminate | exact Hfirst].
Qed.

Lemma strip_idempotent (s : string) : Text.strip (Text.strip s) = Text.strip s.
Proof.
  destruct (strip_spec s) as (_ & Hf & Hl).
  unfold Text.strip at 1. rewrite (lstrip_trimmed_fixed _ Hf).
  now apply rstrip_trimmed_fixed.
Qed.

(** X12.  [ingest_query] works on the query with the ASCII whitespace
    at both ends removed.  A query made of whitespace only (or empty)
    is answered by appending [Empty query provided] to [errors], and the
    stored query is left as it was; any other query is replaced by its
    trimmed form, which is not empty and neither starts nor ends with
    whitespace, and nothing is appended to [errors].  Running the node
    again on its own result changes the query no further. *)
Theorem ingest_query_trims (st : GraphState) :
  (exists pre post,
      user_query st = pre +:+ Text.strip (user_query st) +:+ post
      /\ Text.all_space pre = true /\ Text.all_space post = true)
  /\ (Text.strip (user_query st) = EmptyString ->
      Text.all_space (user_query st) = true
      /\ user_query (Ingest.ingest_query st) = user_query st
      /\ errors (Ingest.ingest_query st) = errors st ++ ["Empty query provided"])
  /\ (Text.strip (user_query st) <> EmptyString ->
      user_query (Ingest.ingest_query st) = Text.strip (user_query st)
      /\ Text.trimmed (user_query (Ingest.ingest_query st))
      /\ errors (Ingest.ingest_query st) = errors st
      /\ user_query (Ingest.ingest_query (Ingest.ingest_query st))
         = user_query (Ingest.ingest_query st)).
Proof.
  destruct (strip_spec (user_query st)) as ((pre & post & E & Hpre & Hpost) & Htrim).
  split; [now exists pre, post |].
  split.
  - intros Hs. rewrite Hs in E. split.
    + rewrite E. simpl. clear - Hpre Hpost.
      induction pre as [|c pre IH]; simpl in *; [exact Hpost |].
      apply andb_true_iff in Hpre as [-> Hpre]. now apply IH.
    + unfold Ingest.ingest_query. rewrite Hs. destruct st; simpl. now split.
  - intros Hs.
    assert (Hq : user_query (Ingest.ingest_query st) = Text.strip (user_query st)
                 /\ errors (Ingest.ingest_query st) = errors st).
    { unfold Ingest.ingest_query.
      destruct (Text.strip (user_query st)) as [|c q] eqn:Hq; [now destruct Hs |].
      destruct st; simpl. split; reflexivity. }
    destruct Hq as [Hq He].
    split; [exact Hq |]. split; [now rewrite Hq |]. split; [exact He |].
    unfold Ingest.ingest_query at 1. rewrite Hq, strip_idempotent.
    destruct (Text.strip (user_query st)) as [|c q] eqn:Hq'; [now destruct Hs |].
    cbn [truthy_str negb].
    destruct (Ingest.ingest_query st); reflexivity.
Qed.

End QueryIntake.

(** ** Plans, trends and explanations *)

Section PlansAndExplanations.

#[local] Arguments String.append !_ _ / : simpl nomatch.

Import Graph.

(** X13.  When the language model fails in [plan_analysis], the node
    returns a default plan and appends nothing to [errors]; the default
    asks for time alignment only for a [cross_table] operation, so that
    the workflow then goes to [align_timeseries] for [cross_table] and
    straight to [generate_code] for every other operation type,
    [temporal] included. *)
Theorem plan_failure_routing (msg : string) (st : GraphState) :
  exists u,
    Plans.plan_analysis (Plans.PlanFailed msg) st = Ok u
    /\ next Node.plan_analysis (merge st u)
       = Ok (Goto (if Plans.is_cross_table (operation_type st)
                   then Node.align_timeseries else Node.generate_code))
    /\ errors (merge st u) = errors st
    /\ (operation_type st = Some "temporal" ->
        next Node.plan_analysis (merge st u) = Ok (Goto Node.generate_code))
    /\ (operation_type st = Some "cross_table" ->
        next Node.plan_analysis (merge st u) = Ok (Goto Node.align_timeseries)).
Proof.
  eexists. split; [reflexivity |].
  match goal with
  | |- next _ (merge st ?u0) = _ /\ _ => set (u := u0)
  end.
  assert (H : next Node.plan_analysis (merge st u)
              = Ok (Goto (if Plans.is_cross_table (operation_type st)
                          then Node.align_timeseries else Node.generate_code))).
  { unfold next. cbn [build_graph]. unfold should_align_timeseries.
    assert (E : operation_type (merge st u) = operation_type st
                /\ plan (merge st u)
                   = Some (PlanDict {| time_alignment_needed :=
                                         Plans.is_cross_table (operation_type st) |}))
      by (destruct st; split; reflexivity).
    destruct E as [-> ->]. unfold Plans.is_cross_table.
    destruct (operation_type st) as [ot|]; [| reflexivity].
    destruct (String.eqb ot "cross_table") eqn:E1; cbn [orb time_alignment_needed];
      [reflexivity |].
    destruct (String.eqb ot "temporal"); reflexivity. }
  split; [exact H |].
  split; [rewrite merge_errors; simpl; apply app_nil_r |].
  split; intros Hot; rewrite H, Hot; reflexivity.
Qed.

(** X14.  [analyze_intent] fails to return in exactly two cases: the
    code before its [try] block raised ([get_llm] without a configured
    provider, or the formatting of the list of files), and that
    exception leaves the node; or the language model failed and the
    list of available files is there but empty, and the handler raises
    an [IndexError].  In every other case it returns, and names at most
    one file to use when it falls back. *)
Theorem analyze_intent_raises_iff (reply : Planning.intent_reply) (st : GraphState) :
  (forall e,
      Planning.analyze_intent reply st = Raise e
      <-> reply = Planning.BeforeTry e
          \/ ((exists msg, reply = Planning.Failed msg)
              /\ available_files st = Some []
              /\ e = IndexError "list index out of range"))
  /\ (returns (Planning.analyze_intent reply st) = false
      <-> (exists e, reply = Planning.BeforeTry e)
          \/ ((exists msg, reply = Planning.Failed msg)
              /\ available_files st = Some []))
  /\ (forall msg u,
         reply = Planning.Failed msg ->
         Planning.analyze_intent reply st = Ok u ->
         exists names,
           get_files_to_use u = Some names /\ (length names <= 1)%nat
           /\ (forall name, In name names ->
                 exists f, hd_error (default [] (available_files st)) = Some f
                           /\ filename f = Some name)).
Proof.
  split; [| split].
  - intros e. unfold Planning.analyze_intent. destruct reply as [i o f | msg | e0].
    + split; [discriminate |].
      intros [H | [[msg H] _]]; discriminate.
    + destruct (available_files st) as [[|f0 fs]|] eqn:Hf; simpl.
      * split.
        -- intros [= <-]. right. split; [now exists msg |]. now split.
        -- intros [H | (_ & _ & ->)]; [discriminate | reflexivity].
      * split; [discriminate |].
        intros [H | (_ & H & _)]; discriminate.
      * split; [discriminate |].
        intros [H | (_ & H & _)]; discriminate.
    + split.
      * intros [= <-]. now left.
      * intros [[= <-] | [[msg H] _]]; [reflexivity | discriminate].
  - unfold Planning.analyze_intent. destruct reply as [i o f | msg | e0].
    + split; [discriminate |].
      intros [[e H] | [[msg H] _]]; discriminate.
    + destruct (available_files st) as [[|f0 fs]|] eqn:Hf; simpl.
      * split; [intros _; right; split; eauto | reflexivity].
      * split; [discriminate |].
        intros [[e H] | [_ H]]; discriminate.
      * split; [discriminate |].
        intros [[e H] | [_ H]]; discriminate.
    + split; [intros _; left; now exists e0 | reflexivity].
  - intros msg u -> Hu. unfold Planning.analyze_intent in Hu.
    destruct (available_files st) as [[|f0 fs]|] eqn:Hf; simpl in Hu;
      try discriminate; injection Hu as <-.
    + destruct (filename f0) as [[|c name]|] eqn:Hn; simpl.
      * exists []. split; [reflexivity |]. split; [simpl; lia |]. intros name [].
      * exists [String c name]. split; [reflexivity |]. split; [simpl; lia |].
        intros name' [<- | []]. exists f0. now split.
      * exists []. split; [reflexivity |]. split; [simpl; lia |]. intros name [].
    + exists []. split; [reflexivity |]. split; [simpl; lia |]. intros name [].
Qed.

Lemma starts_with_app (p s t : string) :
  starts_with p s = true -> starts_with p (s +:+ t) = true.
Proof.
  intros H. apply prefix_inv in H as [post ->].
  rewrite append_assoc. apply prefix_app.
Qed.

Lemma drop_app (p s : string) : Text.drop (String.length p) (p +:+ s) = s.
Proof. induction p as [|c p IH]; simpl; [now destruct s | exact IH]. Qed.

Lemma occurs_empty (sep : string) :
  Spec.occurs sep EmptyString -> sep = EmptyString.
Proof.
  intros (pre & post & E). destruct pre; [| discriminate].
  destruct sep; [reflexivity | discriminate].
Qed.

Lemma split_first_spec (sep s a b : string) :
  sep <> EmptyString ->
  Text.split_first sep s = Some (a, b) ->
  s = a +:+ sep +:+ b /\ ~ Spec.occurs sep a.
Proof.
  intros Hsep. revert a b. induction s as [|c s IH]; intros a b.
  - simpl. destruct sep; [now destruct Hsep | discriminate].
  - cbn [Text.split_first].
    destruct (starts_with sep (String c s)) eqn:Hp.
    + intros H. injection H as <- <-.
      apply prefix_inv in Hp as [post Hp]. rewrite Hp, drop_app.
      split; [reflexivity |]. intros H. now apply occurs_empty in H.
    + destruct (Text.split_first sep s) as [[a' b']|]; [| discriminate].
      intros H. injection H as <- <-.
      destruct (IH a' b' eq_refl) as [-> Hno].
      split; [reflexivity |].
      intros (pre & post & E). destruct pre as [|d pre].
      * simpl in E.
        assert (Hs : starts_with sep (String c a') = true)
          by (rewrite E; apply prefix_app).
        apply (starts_with_app _ _ (sep +:+ b')) in Hs.
        simpl in Hs, Hp. congruence.
      * simpl in E. injection E as _ E. apply Hno. now exists pre, post.
Qed.

Lemma contains_split_first (sep s : string) :
  contains sep s = true -> Text.split_first sep s <> None.
Proof.
  induction s as [|c s IH]; simpl.
  - intros ->. discriminate.
  - destruct (starts_with sep (String c s)); [discriminate |].
    simpl. intros H. specialize (IH H).
    destruct (Text.split_first sep s) as [[a b]|]; [discriminate | now destruct IH].
Qed.

Lemma strip_occurs (sep s : string) :
  Spec.occurs sep (Text.strip s) -> Spec.occurs sep s.
Proof.
  intros (a & b & E).
  destruct (strip_spec s) as ((pre & post & Es & _) & _).
  rewrite Es, E. exists (pre +:+ a), (b +:+ post).
  now rewrite !append_assoc.
Qed.

Lemma read_reply_explanation (content : string) :
  ~ Spec.occurs Explanation.RECOMMENDATIONS_HEADER
      (fst (Explanation.read_reply content))
  /\ (~ Spec.occurs Explanation.RECOMMENDATIONS_HEADER content ->
      Explanation.read_reply content = (content, [])).
Proof.
  unfold Explanation.read_reply.
  destruct (contains Explanation.RECOMMENDATIONS_HEADER content) eqn:Hc.
  - pose proof (contains_split_first _ _ Hc) as Hsome.
    unfold Text.split_parts.
    destruct (Text.split_first Explanation.RECOMMENDATIONS_HEADER content)
      as [[a rest]|] eqn:Hs; [| now destruct Hsome].
    assert (Hsep : Explanation.RECOMMENDATIONS_HEADER <> EmptyString)
      by discriminate.
    destruct (split_first_spec _ _ _ _ Hsep Hs) as [_ Hno].
    split.
    + destruct (Text.split_first _ rest) as [[b tl]|]; simpl;
        intros H; apply Hno; exact (strip_occurs _ _ H).
    + intros H. apply contains_occurs in Hc. contradiction.
  - split; [| reflexivity].
    simpl. intros H. apply contains_occurs in H. congruence.
Qed.

(** X15.  On a state that holds an execution result, [explain_result]
    returns unless it has to consult the language model, for a
    successful execution with a result, and [get_llm], which is called
    before the [try] block, raises: that exception leaves the node.
    When it returns, it writes an explanation and at least one
    recommendation, and appends to [errors] only when the language
    model failed.  When the model answered for a successful result,
    the explanation never contains the marker that opens the
    recommendations section, and a reply without that marker is kept
    whole, with the one default recommendation. *)
Theorem explain_result_returns (reply : Explanation.explain_reply)
        (st : GraphState) (r : ExecutionResult) :
  execution_result st = Some r ->
  (forall e0,
      Explanation.explain_result reply st = Raise e0
      <-> reply = Explanation.LlmUnavailable e0
          /\ success r = true /\ result_data st <> None)
  /\ (success r = false \/ result_data st = None
      \/ (forall e0, reply <> Explanation.LlmUnavailable e0) ->
      exists u e,
        Explanation.explain_result reply st = Ok u
        /\ explanation (merge st u) = Some e
        /\ recommendations (merge st u) <> []
        /\ (errors (merge st u) = errors st
            \/ exists msg,
                 reply = Explanation.ExplainFailed msg
                 /\ errors (merge st u)
                    = errors st ++ ["Explanation generation error: " +:+ msg])
        /\ (forall content,
               success r = true -> result_data st <> None ->
               reply = Explanation.Explained content ->
               ~ Spec.occurs Explanation.RECOMMENDATIONS_HEADER e
               /\ (~ Spec.occurs Explanation.RECOMMENDATIONS_HEADER content ->
                   e = content
                   /\ recommendations (merge st u)
                      = ["Consider exploring related metrics"]))).
Proof.
  intros Hr. unfold Explanation.explain_result. rewrite Hr.
  destruct (success r) eqn:Hs; cbn [negb].
  - destruct (result_data st) as [rd|] eqn:Hrd.
    + destruct reply as [content | msg | e1].
      * split.
        { intros e0. destruct (Explanation.read_reply content).
          split; [discriminate | intros [H _]; discriminate]. }
        intros _.
        destruct (Explanation.read_reply content) as [e recs] eqn:Hread.
        eexists. exists e. split; [reflexivity |].
        split; [destruct st; reflexivity |].
        split; [destruct st; simpl; destruct recs; discriminate |].
        split; [left; rewrite merge_errors; simpl; apply app_nil_r |].
        intros content' _ _ E. injection E as <-.
        destruct (read_reply_explanation content) as [Hno Hkeep].
        rewrite Hread in Hno, Hkeep. split; [exact Hno |].
        intros Hc. specialize (Hkeep Hc). injection Hkeep as -> ->.
        split; [reflexivity | destruct st; reflexivity].
      * split.
        { intros e0. split; [discriminate | intros [H _]; discriminate]. }
        intros _.
        eexists. eexists. split; [reflexivity |].
        split; [destruct st; reflexivity |].
        split; [destruct st; discriminate |].
        split; [right; exists msg; split; [reflexivity |];
                rewrite merge_errors; reflexivity |].
        intros content _ _ E. discriminate.
      * split.
        { intros e0. split.
          - intros [= <-]. split; [reflexivity |]. split; [reflexivity | discriminate].
          - intros [[= <-] _]. reflexivity. }
        intros [H | [H | H]]; [discriminate | discriminate |].
        now destruct (H e1).
    + split.
      { intros e0. split; [discriminate | intros (_ & _ & H); now destruct H]. }
      intros _.
      eexists. eexists. split; [reflexivity |].
      split; [destruct st; reflexivity |].
      split; [destruct st; discriminate |].
      split; [left; rewrite merge_errors; simpl; apply app_nil_r |].
      intros content _ Hne. now destruct Hne.
  - split.
    { intros e0. split; [discriminate | intros (_ & H & _); discriminate]. }
    intros _.
    eexists. eexists. split; [reflexivity |].
    split; [destruct st; reflexivity |].
    split; [destruct st; discriminate |].
    split; [left; rewrite merge_errors; simpl; apply app_nil_r |].
    intros content Habs. discriminate.
Qed.

Lemma in_firstn {A} (n : nat) (l : list A) (x : A) :
  In x (firstn n l) -> In x l.
Proof.
  revert l. induction n as [|n IH]; intros [|y l]; simpl; try tauto.
  intros [-> | H]; [now left | right; now apply IH].
Qed.

Lemma trend_analysis_cases (reply : Timeseries.trend_reply) (st : GraphState) :
  Timeseries.trend_analysis reply st
  = [ SetCurrentNode "trend_analysis"; AppendNodeHistory ["trend_analysis"] ]
  \/ exists new_recs,
       reply = Timeseries.Trends new_recs
       /\ Timeseries.should_analyze st = true
       /\ result_data st <> None
       /\ Timeseries.trend_analysis reply st
          = [ SetRecommendations (firstn 5 (recommendations st ++ new_recs));
              SetCurrentNode "trend_analysis";
              AppendNodeHistory ["trend_analysis"] ].
Proof.
  unfold Timeseries.trend_analysis.
  destruct (Timeseries.should_analyze st); [| now left].
  destruct (result_data st); [| now left].
  destruct reply as [new_recs | msg]; [| now left].
  right. exists new_recs. now repeat split.
Qed.

(** X16.  [trend_analysis] never drops or reorders what is already
    recommended within the first five entries: the recommendations it
    leaves start with the first five existing ones, hold nothing but
    existing entries and actions recommended by the language model, and
    are at most five once the model has been consulted.  The model is
    consulted only if the intent or a keyword of the query asks for
    trends and a result is there; otherwise the recommendations are
    left untouched. *)
Theorem trend_analysis_recommendations (reply : Timeseries.trend_reply)
        (st : GraphState) :
  (exists more,
      recommendations (merge st (Timeseries.trend_analysis reply st))
      = firstn 5 (recommendations st) ++ more)
  /\ (forall x,
         In x (recommendations (merge st (Timeseries.trend_analysis reply st))) ->
         In x (recommendations st)
         \/ exists new_recs, reply = Timeseries.Trends new_recs /\ In x new_recs)
  /\ (recommendations (merge st (Timeseries.trend_analysis reply st))
      = recommendations st
      \/ (length (recommendations (merge st (Timeseries.trend_analysis reply st)))
          <= 5)%nat)
  /\ (Timeseries.should_analyze st = false \/ result_data st = None ->
      recommendations (merge st (Timeseries.trend_analysis reply st))
      = recommendations st).
Proof.
  destruct (trend_analysis_cases reply st)
    as [E | (new_recs & -> & Hsa & Hrd & E)]; rewrite E.
  - assert (Hsame : recommendations
                      (merge st [ SetCurrentNode "trend_analysis";
                                  AppendNodeHistory ["trend_analysis"] ])
                    = recommendations st) by (destruct st; reflexivity).
    rewrite Hsame. split.
    { exists (skipn 5 (recommendations st)). symmetry. apply firstn_skipn. }
    split; [now left |]. split; [now left | reflexivity].
  - assert (Hset : recommendations
                     (merge st [ SetRecommendations
                                   (firstn 5 (recommendations st ++ new_recs));
                                 SetCurrentNode "trend_analysis";
                                 AppendNodeHistory ["trend_analysis"] ])
                   = firstn 5 (recommendations st ++ new_recs))
      by (destruct st; reflexivity).
    rewrite Hset. split.
    { rewrite firstn_app. eauto. }
    split.
    { intros x Hx. apply in_firstn in Hx. apply in_app_or in Hx as [Hx | Hx];
        [now left | right; eauto]. }
    split; [right; apply firstn_le_length |].
    intros [H | H]; congruence.
Qed.

Lemma explain_result_sets_recommendations (reply : Explanation.explain_reply)
      (st1 st2 : GraphState) (u : update) :
  Explanation.explain_result reply st1 = Ok u ->
  recommendations (merge st1 u) = recommendations (merge st2 u).
Proof.
  unfold Explanation.explain_result.
  destruct (execution_result st1) as [r|]; [| discriminate].
  destruct (negb (success r));
    [intros H; injection H as <-; destruct st1, st2; reflexivity |].
  destruct (result_data st1);
    [| intros H; injection H as <-; destruct st1, st2; reflexivity].
  destruct reply as [content | msg | e];
    [| intros H; injection H as <-; destruct st1, st2; reflexivity
     | discriminate].
  destruct (Explanation.read_reply content).
  intros H; injection H as <-; destruct st1, st2; reflexivity.
Qed.

(** X17.  What [trend_analysis] recommends does not reach the user:
    [explain_result], which always runs next, returns the same value
    whatever the trend node did, and that value replaces the
    recommendations, so that the state after both nodes holds the
    recommendations of [explain_result] alone. *)
Theorem explain_result_replaces_trend_recommendations
        (trends : Timeseries.trend_reply) (reply : Explanation.explain_reply)
        (st : GraphState) :
  Graph.next Node.trend_analysis (merge st (Timeseries.trend_analysis trends st))
  = Ok (Graph.Goto Node.explain_result)
  /\ Explanation.explain_result reply
       (merge st (Timeseries.trend_analysis trends st))
     = Explanation.explain_result reply st
  /\ (forall u,
         Explanation.explain_result reply st = Ok u ->
         recommendations (merge (merge st (Timeseries.trend_analysis trends st)) u)
         = recommendations (merge st u)).
Proof.
  split; [reflexivity |].
  assert (Hkeys : result_data (merge st (Timeseries.trend_analysis trends st))
                  = result_data st
                  /\ execution_result (merge st (Timeseries.trend_analysis trends st))
                     = execution_result st).
  { destruct (trend_analysis_cases trends st) as [E | (n & _ & _ & _ & E)];
      rewrite E; destruct st; split; reflexivity. }
  destruct Hkeys as [Hrd Her].
  split.
  - unfold Explanation.explain_result. now rewrite Hrd, Her.
  - intros u Hu. symmetry.
    exact (explain_result_sets_recommendations reply st _ u Hu).
Qed.

End PlansAndExplanations.

(** ** Columns of the parsed files *)

Section FileColumns.

Lemma fold_intersection (c : string) (rest : list (list string))
      (init : gset string) :
  c ∈ fold_left (fun acc c' => acc ∩ list_to_set c') rest init
  <-> c ∈ init /\ forall l, In l rest -> In c l.
Proof.
  revert init. induction rest as [|l rest IH]; intros init; simpl.
  - split; [intros H; split; [exact H | intros l []] | now intros [H _]].
  - rewrite IH, elem_of_intersection, elem_of_list_to_set, list_elem_of_In.
    split.
    + intros [[Hi Hl] Hrest]. split; [exact Hi |].
      intros l' [<- | Hin]; [exact Hl | now apply Hrest].
    + intros [Hi Hall]. split; [split; [exact Hi | apply Hall; now left] |].
      intros l' Hin. apply Hall. now right.
Qed.

(** X18.  Of the columns of one or more files, [parse_files] reports as
    common exactly the columns that every file has, and among the
    numeric (or categorical) columns exactly those that some file has;
    a common column of the files is a column of each of them, so the
    common columns of the [columns] lists are among the unique ones. *)
Theorem parse_files_columns (columns : list (list string)) (c : string) :
  (columns <> [] ->
   (c ∈ Timeseries.common_columns columns <-> forall l, In l columns -> In c l))
  /\ (c ∈ Timeseries.unique_columns columns <-> exists l, In l columns /\ In c l)
  /\ (columns <> [] ->
      c ∈ Timeseries.common_columns columns -> c ∈ Timeseries.unique_columns columns).
Proof.
  assert (Hcommon : columns <> [] ->
                    (c ∈ Timeseries.common_columns columns
                     <-> forall l, In l columns -> In c l)).
  { destruct columns as [|l0 [|l1 rest]]; intros Hne; [now destruct Hne | |].
    - simpl. rewrite elem_of_list_to_set, list_elem_of_In.
      split; [intros H l [<- | []]; exact H | intros H; apply H; now left].
    - unfold Timeseries.common_columns.
      rewrite fold_intersection, elem_of_list_to_set, list_elem_of_In.
      split.
      + intros [H0 Hall] l [<- | Hin]; [exact H0 | now apply Hall].
      + intros H. split; [apply H; now left | intros l Hin; apply H; now right]. }
  assert (Hunique : c ∈ Timeseries.unique_columns columns
                    <-> exists l, In l columns /\ In c l).
  { unfold Timeseries.unique_columns.
    rewrite elem_of_list_to_set, list_elem_of_In, in_concat. reflexivity. }
  split; [exact Hcommon |]. split; [exact Hunique |].
  intros Hne Hc. apply Hunique.
  pose proof (proj1 (Hcommon Hne) Hc) as Hall.
  destruct columns as [|l0 rest]; [now destruct Hne |].
  exists l0. split; [now left | apply Hall; now left].
Qed.

End FileColumns.

(** ** The code cut out of the model's reply *)

Section CodeExtraction.

#[local] Arguments String.append !_ _ / : simpl nomatch.

Lemma split_first_none (sep s : string) :
  Text.split_first sep s = None -> ~ Spec.occurs sep s.
Proof.
  intros H Hocc. apply contains_occurs in Hocc.
  now apply contains_split_first in Hocc.
Qed.

Lemma fenced_block (sep content : string) :
  sep <> EmptyString ->
  contains sep content = true ->
  exists block,
    Generation.fenced sep content = Ok block
    /\ ~ Spec.occurs Generation.FENCE block.
Proof.
  intros Hsep Hc. unfold Generation.fenced, Text.split_parts.
  pose proof (contains_split_first _ _ Hc) as Hsome.
  destruct (Text.split_first sep content) as [[a rest]|]; [| now destruct Hsome].
  assert (Hfence : Generation.FENCE <> EmptyString) by discriminate.
  assert (Hpart : forall part,
             exists block,
               match Text.split_first Generation.FENCE part with
               | Some (block, _) => Ok block
               | None => Ok part
               end = Ok block
               /\ ~ Spec.occurs Generation.FENCE block).
  { intros part.
    destruct (Text.split_first Generation.FENCE part) as [[block tl]|] eqn:Hs.
    - exists block. split; [reflexivity |].
      exact (proj2 (split_first_spec _ _ _ _ Hfence Hs)).
    - exists part. split; [reflexivity | exact (split_first_none _ _ Hs)]. }
  destruct (Text.split_first sep rest) as [[b tl]|]; apply Hpart.
Qed.

Lemma extract_code_cases (content : string) :
  exists block,
    Generation.extract_code content = Ok (Text.strip block)
    /\ ~ Spec.occurs Generation.FENCE block
    /\ (~ Spec.occurs Generation.FENCE content -> block = content).
Proof.
  unfold Generation.extract_code.
  destruct (contains Generation.PYTHON_FENCE content) eqn:Hp.
  - destruct (fenced_block Generation.PYTHON_FENCE content ltac:(discriminate) Hp)
      as (block & -> & Hno).
    exists block. split; [reflexivity |]. split; [exact Hno |].
    intros H. exfalso. apply H. apply contains_occurs in Hp.
    destruct Hp as (pre & post & ->).
    exists pre, ("python" +:+ post). reflexivity.
  - destruct (contains Generation.FENCE content) eqn:Hf.
    + destruct (fenced_block Generation.FENCE content ltac:(discriminate) Hf)
        as (block & -> & Hno).
      exists block. split; [reflexivity |]. split; [exact Hno |].
      intros H. exfalso. apply H. now apply contains_occurs.
    + exists content. split; [reflexivity |]. split; [| reflexivity].
      intros H. apply contains_occurs in H. congruence.
Qed.

(** X19.  Whatever the language model replies, [generate_code] stores a
    code text and reports no error: the extraction of the fenced block
    never fails.  The stored text holds no Markdown fence, and neither
    starts nor ends with whitespace; a reply without a fence is stored
    whole, trimmed at both ends. *)
Theorem generate_code_extracts (content : string) (st : GraphState) :
  exists code u,
    Generation.extract_code content = Ok code
    /\ Generation.generate_code (Generation.Replied content) st = Ok u
    /\ generated_code (merge st u) = Some code
    /\ errors (merge st u) = errors st
    /\ ~ Spec.occurs Generation.FENCE code
    /\ Text.trimmed code
    /\ (~ Spec.occurs Generation.FENCE content -> code = Text.strip content).
Proof.
  destruct (extract_code_cases content) as (block & E & Hno & Hsame).
  exists (Text.strip block). eexists. split; [exact E |].
  unfold Generation.generate_code. rewrite E.
  split; [reflexivity |].
  split; [destruct st; reflexivity |].
  split; [rewrite merge_errors; simpl; apply app_nil_r |].
  split; [intros H; apply Hno; exact (strip_occurs _ _ H) |].
  split; [exact (proj2 (strip_spec block)) |].
  intros H. now rewrite (Hsame H).
Qed.

End CodeExtraction.

(** ** The analysis cache *)

Section AnalysisCache.

#[local] Arguments String.append !_ _ / : simpl nomatch.

Variable md5_hexdigest : string -> string.

(** X20.  A result cached for a query and a list of file ids is read
    back, by a request with the same session, the same query and the
    same ids in any order, for 1800 seconds, and no longer; without a
    connection nothing is cached and nothing is read. *)
Theorem analysis_result_round_trip (t0 t1 : Z) (r : Redis.t)
        (session_id query : string) (file_ids file_ids' : list Z)
        (serialized : string) :
  Permutation file_ids file_ids' ->
  (exists r',
      Cache.set_analysis_result md5_hexdigest t0 (Some r) session_id query
        file_ids serialized
      = (true, Some r')
      /\ fst (Cache.get_analysis_result md5_hexdigest t1 (Some r') session_id
                query file_ids')
         = if t1 <? t0 + 1800 then Some (Redis.VStr serialized) else None)
  /\ Cache.set_analysis_result md5_hexdigest t0 None session_id query
       file_ids serialized
     = (false, None)
  /\ fst (Cache.get_analysis_result md5_hexdigest t1 None session_id query
            file_ids')
     = None.
Proof.
  intros Hp. split; [| now split].
  eexists. split; [reflexivity |].
  unfold Cache.get_analysis_result, Cache.get_analysis_result_key,
    Cache.set_analysis_result_key, Cache._hash_query.
  rewrite <- (sorted_permutation _ _ Hp).
  unfold Redis.get, Redis.setex, Redis.live, Redis.expired. simpl.
  rewrite lookup_insert_eq. simpl.
  unfold Cache.ANALYSIS_RESULT_TTL.
  destruct (Z.leb_spec (t0 + 1800) t1), (Z.ltb_spec t1 (t0 + 1800));
    try lia; reflexivity.
Qed.

Lemma substring_length (n : nat) (s : string) :
  (n <= String.length s)%nat -> String.length (String.substring 0 n s) = n.
Proof.
  revert s. induction n as [|n IH]; intros [|c s] H; simpl in *;
    try reflexivity; try lia.
  rewrite IH by lia. reflexivity.
Qed.

(** X21.  Provided the digest has at least 16 characters (an MD5 digest
    in hexadecimal has 32), the keys of two sessions never coincide,
    whatever the queries and the files: a result cached for one session
    leaves what every other session reads unchanged. *)
Theorem analysis_cache_sessions_apart (t0 t1 : Z) (r : Redis.t)
        (s1 s2 q1 q2 : string) (ids1 ids2 : list Z) (serialized : string) :
  (forall content, (16 <= String.length (md5_hexdigest content))%nat) ->
  s1 <> s2 ->
  Cache.set_analysis_result_key md5_hexdigest s1 q1 ids1
  <> Cache.get_analysis_result_key md5_hexdigest s2 q2 ids2
  /\ fst (Cache.get_analysis_result md5_hexdigest t1
            (snd (Cache.set_analysis_result md5_hexdigest t0 (Some r) s1 q1 ids1
                    serialized))
            s2 q2 ids2)
     = fst (Cache.get_analysis_result md5_hexdigest t1 (Some r) s2 q2 ids2).
Proof.
  intros Hlen Hne.
  assert (Hkeys : Cache.set_analysis_result_key md5_hexdigest s1 q1 ids1
                  <> Cache.get_analysis_result_key md5_hexdigest s2 q2 ids2).
  { unfold Cache.set_analysis_result_key, Cache.get_analysis_result_key,
      Cache._analysis_key, Cache._hash_query. simpl. intros E.
    injection E as E. apply append_length_inj in E as [E _]; [contradiction |].
    simpl. now rewrite !substring_length by apply Hlen. }
  split; [exact Hkeys |].
  unfold Cache.get_analysis_result, Cache.set_analysis_result.
  unfold Redis.get, Redis.setex, Redis.live. simpl.
  now rewrite lookup_insert_ne by exact Hkeys.
Qed.

End AnalysisCache.

Lemma analysis_result_round_trip_witness :
  exists r',
    Cache.set_analysis_result Sample.digest_identity 100 (Some Redis.empty) "s1"
      "total revenue" [3; 1; 2] "{}"
    = (true, Some r')
    /\ fst (Cache.get_analysis_result Sample.digest_identity 1899 (Some r') "s1"
              "total revenue" [1; 2; 3])
       = Some (Redis.VStr "{}").
Proof.
  destruct (analysis_result_round_trip Sample.digest_identity 100 1899 Redis.empty "s1"
              "total revenue" [3; 1; 2] [1; 2; 3] "{}") as [(r' & Hs & Hg) _].
  - apply Permutation_sym.
    apply (perm_trans (l' := [1; 3; 2])); [| apply perm_swap].
    apply perm_skip. apply perm_swap.
  - exists r'. split; [exact Hs | exact Hg].
Defined.

Lemma analysis_cache_sessions_apart_witness :
  fst (Cache.get_analysis_result (fun _ => "0123456789abcdef0123456789abcdef") 5
         (snd (Cache.set_analysis_result
                 (fun _ => "0123456789abcdef0123456789abcdef") 0
                 (Some Redis.empty) "s1" "total revenue" [1] "{}"))
         "s2" "total revenue" [1])
  = None.
Proof.
  destruct (analysis_cache_sessions_apart
              (fun _ => "0123456789abcdef0123456789abcdef") 0 5 Redis.empty
              "s1" "s2" "total revenue" "total revenue" [1] [1] "{}")
    as [_ H].
  - intros content. simpl. lia.
  - discriminate.
  - rewrite H. reflexivity.
Defined.

(** ** Counters without expiry, and the middleware *)

Section RequestLimits.

#[local] Arguments String.append !_ _ / : simpl nomatch.

Lemma check_rate_limit_persistent (identifier : string) (limit window_seconds : Z)
      (now : Z) (r : Redis.t) (n : Z) :
  1 <= n ->
  Redis.store r !! Cache.ratelimit_key identifier
  = Some {| Redis.held := Redis.VInt n; Redis.expires_at := None |} ->
  exists r',
    Cache.check_rate_limit now (Some r) identifier limit window_seconds
    = (Spec.answer limit (n + 1), Some r')
    /\ Redis.store r' !! Cache.ratelimit_key identifier
       = Some {| Redis.held := Redis.VInt (n + 1); Redis.expires_at := None |}
    /\ Redis.served r'
       = Redis.served r ++ [Redis.INCR (Cache.ratelimit_key identifier)].
Proof.
  intros Hn H. unfold Cache.check_rate_limit, Redis.incr, Redis.live, Redis.expired.
  rewrite H. cbn [Redis.expires_at Redis.held].
  destruct (Z.eqb_spec (n + 1) 1); [lia |].
  eexists. split; [reflexivity |].
  split; [simpl; now rewrite lookup_insert_eq | reflexivity].
Qed.

Lemma check_rate_limit_calls_persistent (identifier : string)
      (limit window_seconds : Z) (ts : list Z) (r : Redis.t) (n : Z) :
  1 <= n ->
  Redis.store r !! Cache.ratelimit_key identifier
  = Some {| Redis.held := Redis.VInt n; Redis.expires_at := None |} ->
  exists r',
    Cache.check_rate_limit_calls ts (Some r) identifier limit window_seconds
    = (Spec.answers_from limit n (length ts), Some r')
    /\ Redis.store r' !! Cache.ratelimit_key identifier
       = Some {| Redis.held := Redis.VInt (n + Z.of_nat (length ts));
                 Redis.expires_at := None |}
    /\ Redis.served r'
       = Redis.served r
         ++ repeat (Redis.INCR (Cache.ratelimit_key identifier)) (length ts).
Proof.
  revert r n. induction ts as [|t ts IH]; intros r n Hn H.
  - exists r. simpl. rewrite Z.add_0_r, app_nil_r. now repeat split.
  - destruct (check_rate_limit_persistent identifier limit window_seconds t r n Hn H)
      as (r1 & E1 & H1 & Hs1).
    destruct (IH r1 (n + 1) ltac:(lia) H1) as (r2 & E2 & H2 & Hs2).
    exists r2. cbn [Cache.check_rate_limit_calls length Spec.answers_from].
    rewrite E1, E2. split; [reflexivity |].
    split.
    + replace (n + Z.of_nat (S (length ts))) with (n + 1 + Z.of_nat (length ts)) by lia.
      exact H2.
    + rewrite Hs2, Hs1, <- app_assoc. reflexivity.
Qed.

Lemma answers_from_denied (limit n : Z) (k : nat) :
  limit <= n -> Forall (fun a => a = (false, 0)) (Spec.answers_from limit n k).
Proof.
  revert n. induction k as [|k IH]; intros n Hn; simpl; constructor.
  - unfold Spec.answer. destruct (Z.leb_spec (n + 1) limit); [lia |].
    f_equal. lia.
  - apply IH. lia.
Qed.

(** X22.  A counter that stands in the store without an expiry (as it
    does when the [EXPIRE] after the first increment was not served) is
    never given one: every later call, at whatever time, increments it
    and sets no expiry, so the window never closes, and once the
    counter has reached the limit every call is refused. *)
Theorem rate_limit_counter_without_expiry (identifier : string)
        (limit window_seconds : Z) (ts : list Z) (r : Redis.t) (n : Z) :
  1 <= n ->
  Redis.store r !! Cache.ratelimit_key identifier
  = Some {| Redis.held := Redis.VInt n; Redis.expires_at := None |} ->
  exists answers r',
    Cache.check_rate_limit_calls ts (Some r) identifier limit window_seconds
    = (answers, Some r')
    /\ answers = Spec.answers_from limit n (length ts)
    /\ Redis.store r' !! Cache.ratelimit_key identifier
       = Some {| Redis.held := Redis.VInt (n + Z.of_nat (length ts));
                 Redis.expires_at := None |}
    /\ Cache.expiries_set (Some r') identifier
       = Cache.expiries_set (Some r) identifier
    /\ (limit <= n -> Forall (fun a => a = (false, 0)) answers).
Proof.
  intros Hn H.
  destruct (check_rate_limit_calls_persistent identifier limit window_seconds
              ts r n Hn H) as (r' & E & H' & Hs).
  exists (Spec.answers_from limit n (length ts)), r'.
  split; [exact E |]. split; [reflexivity |]. split; [exact H' |].
  split.
  - rewrite (expiries_set_app identifier r _ r' Hs), filter_is_expire_incr.
    simpl. lia.
  - apply answers_from_denied.
Qed.

End RequestLimits.

Section MiddlewareCounts.

#[local] Arguments String.append !_ _ / : simpl nomatch.

Variable self : Middleware.RateLimitMiddleware.
Variable request : Middleware.Request.

Let minute_key := Cache.ratelimit_key ("minute:" +:+ Middleware.identifier request).
Let hour_key := Cache.ratelimit_key ("hour:" +:+ Middleware.identifier request).

Lemma minute_hour_keys : minute_key <> hour_key.
Proof. unfold minute_key, hour_key, Cache.ratelimit_key. simpl. discriminate. Qed.

(** A call that opens a window, with the store it leaves. *)
Lemma check_rate_limit_opens (identifier : string) (limit window_seconds now : Z)
      (r : Redis.t) :
  0 < window_seconds ->
  Redis.live now r (Cache.ratelimit_key identifier) = None ->
  exists r',
    Cache.check_rate_limit now (Some r) identifier limit window_seconds
    = (Spec.answer limit 1, Some r')
    /\ Redis.store r'
       = <[Cache.ratelimit_key identifier :=
             {| Redis.held := Redis.VInt 1;
                Redis.expires_at := Some (now + window_seconds) |}]> (Redis.store r).
Proof.
  intros Hw Hfresh. unfold Cache.check_rate_limit.
  rewrite (incr_fresh identifier now r Hfresh).
  change (1 =? 1) with true. cbv iota.
  eexists. split; [reflexivity |].
  unfold Redis.expire, Redis.live. simpl.
  rewrite lookup_insert_eq. simpl.
  destruct (Z.leb_spec window_seconds 0); [lia |].
  apply insert_insert_eq.
Qed.

(** A call inside a window, with the store it leaves. *)
Lemma check_rate_limit_counts (identifier : string) (limit window_seconds now : Z)
      (r : Redis.t) (n e : Z) :
  1 <= n ->
  Spec.counting r (Cache.ratelimit_key identifier) n e ->
  now < e ->
  exists r',
    Cache.check_rate_limit now (Some r) identifier limit window_seconds
    = (Spec.answer limit (n + 1), Some r')
    /\ Redis.store r'
       = <[Cache.ratelimit_key identifier :=
             {| Redis.held := Redis.VInt (n + 1);
                Redis.expires_at := Some e |}]> (Redis.store r).
Proof.
  intros Hn Hc Hlt. unfold Cache.check_rate_limit.
  rewrite (incr_counting identifier now r n e Hc Hlt).
  destruct (Z.eqb_spec (n + 1) 1); [lia |].
  eexists. split; reflexivity.
Qed.

(** A call that finds the counter absent or expired ([n = 0]) or
    counting. *)
Lemma check_rate_limit_step (identifier : string) (limit window_seconds now : Z)
      (r : Redis.t) (n e : Z) :
  0 < window_seconds ->
  (n = 0 /\ Redis.live now r (Cache.ratelimit_key identifier) = None
   /\ e = now + window_seconds)
  \/ (1 <= n /\ Spec.counting r (Cache.ratelimit_key identifier) n e /\ now < e) ->
  exists r',
    Cache.check_rate_limit now (Some r) identifier limit window_seconds
    = (Spec.answer limit (n + 1), Some r')
    /\ Redis.store r'
       = <[Cache.ratelimit_key identifier :=
             {| Redis.held := Redis.VInt (n + 1);
                Redis.expires_at := Some e |}]> (Redis.store r).
Proof.
  intros Hw [(-> & Hfresh & ->) | (Hn & Hc & Hlt)].
  - exact (check_rate_limit_opens identifier limit window_seconds now r Hw Hfresh).
  - exact (check_rate_limit_counts identifier limit window_seconds now r n e Hn Hc Hlt).
Qed.

Lemma dispatch_step (now : Z) (r : Redis.t) (m em h eh : Z) :
  Middleware.counted self request = true ->
  (m = 0 /\ Redis.live now r minute_key = None /\ em = now + 60)
  \/ (1 <= m /\ Spec.counting r minute_key m em /\ now < em) ->
  (h = 0 /\ Redis.live now r hour_key = None /\ eh = now + 3600)
  \/ (1 <= h /\ Spec.counting r hour_key h eh /\ now < eh) ->
  exists r',
    Middleware.dispatch self now (Some r) request
    = (Middleware.verdict_at self (m + 1) (h + 1), Some r')
    /\ Spec.counting r' minute_key (m + 1) em
    /\ Spec.counting r' hour_key (h + 1) eh.
Proof.
  intros Hcounted Hm Hh. unfold Middleware.dispatch.
  unfold Middleware.counted in Hcounted. apply negb_true_iff in Hcounted.
  rewrite Hcounted.
  destruct (check_rate_limit_step _ (Middleware.requests_per_minute self) 60
              now r m em ltac:(lia) Hm) as (r1 & E1 & S1).
  fold minute_key in S1.
  assert (Hh1 : (h = 0 /\ Redis.live now r1 hour_key = None /\ eh = now + 3600)
                \/ (1 <= h /\ Spec.counting r1 hour_key h eh /\ now < eh)).
  { unfold Redis.live, Spec.counting in *. rewrite S1.
    rewrite lookup_insert_ne by exact minute_hour_keys. exact Hh. }
  destruct (check_rate_limit_step _ (Middleware.requests_per_hour self) 3600
              now r1 h eh ltac:(lia) Hh1) as (r2 & E2 & S2).
  fold hour_key in S2.
  exists r2. rewrite E1, E2.
  split.
  { unfold Spec.answer, Middleware.verdict_at.
    destruct (m + 1 <=? Middleware.requests_per_minute self),
      (h + 1 <=? Middleware.requests_per_hour self); reflexivity. }
  unfold Spec.counting. rewrite S2, S1. split.
  - rewrite lookup_insert_ne by (intros E; symmetry in E; exact (minute_hour_keys E)).
    apply lookup_insert_eq.
  - apply lookup_insert_eq.
Qed.

Lemma dispatch_all_counting (ts : list Z) (r : Redis.t) (m em h eh : Z) :
  Middleware.counted self request = true ->
  1 <= m -> Spec.counting r minute_key m em ->
  1 <= h -> Spec.counting r hour_key h eh ->
  Forall (fun t => t < em /\ t < eh) ts ->
  exists verdicts r',
    Middleware.dispatch_all self (Some r) (map (fun t => (t, request)) ts)
    = (verdicts, Some r')
    /\ length verdicts = length ts
    /\ (forall i, (i < length ts)%nat ->
          nth i verdicts Middleware.Forwarded
          = Middleware.verdict_at self (m + 1 + Z.of_nat i) (h + 1 + Z.of_nat i))
    /\ Spec.counting r' minute_key (m + Z.of_nat (length ts)) em
    /\ Spec.counting r' hour_key (h + Z.of_nat (length ts)) eh.
Proof.
  intros Hcounted. revert r m h.
  induction ts as [|t ts IH]; intros r m h Hm Hcm Hh Hch Hts.
  - exists [], r. simpl. rewrite !Z.add_0_r.
    split; [reflexivity |]. split; [reflexivity |].
    split; [intros i Hi; lia | now split].
  - apply Forall_cons_iff in Hts as [[Htm Hth] Hts].
    destruct (dispatch_step t r m em h eh Hcounted
                (or_intror (conj Hm (conj Hcm Htm)))
                (or_intror (conj Hh (conj Hch Hth))))
      as (r1 & E1 & Hcm1 & Hch1).
    destruct (IH r1 (m + 1) (h + 1) ltac:(lia) Hcm1 ltac:(lia) Hch1 Hts)
      as (vs & r2 & E2 & Hlen & Hnth & Hcm2 & Hch2).
    exists (Middleware.verdict_at self (m + 1) (h + 1) :: vs), r2.
    cbn [map Middleware.dispatch_all]. rewrite E1, E2.
    split; [reflexivity |]. split; [simpl; now rewrite Hlen |].
    split.
    + intros [|i] Hi; cbn [nth].
      * now rewrite !Z.add_0_r.
      * rewrite Hnth by (simpl in Hi; lia). f_equal; lia.
    + cbn [length].
      replace (m + Z.of_nat (S (length ts))) with (m + 1 + Z.of_nat (length ts)) by lia.
      replace (h + Z.of_nat (S (length ts))) with (h + 1 + Z.of_nat (length ts)) by lia.
      now split.
Qed.

(** X23.  The middleware counts every request it does not exclude, the
    refused ones included.  Of the requests of one client that arrive
    within a minute of the first, on fresh counters, the [i]-th is
    forwarded if and only if [i] exceeds neither limit; a refusal tells
    to retry after 60 seconds when the minute limit is exceeded, even if
    the hour limit is exceeded as well.  All of them stand on the
    counter of the hour: the first request after the minute has elapsed
    is judged as the first of its minute and as one more of the hour. *)
Theorem dispatch_counts_every_request (t0 : Z) (ts : list Z) (r : Redis.t) :
  Middleware.counted self request = true ->
  Redis.live t0 r minute_key = None ->
  Redis.live t0 r hour_key = None ->
  Forall (Spec.in_window t0 60) ts ->
  exists verdicts cs,
    Middleware.dispatch_all self (Some r) (map (fun t => (t, request)) (t0 :: ts))
    = (verdicts, cs)
    /\ length verdicts = S (length ts)
    /\ (forall i, (i < S (length ts))%nat ->
          nth i verdicts Middleware.Forwarded
          = Middleware.verdict_at self (Z.of_nat i + 1) (Z.of_nat i + 1))
    /\ (forall m h,
          Middleware.is_forwarded (Middleware.verdict_at self m h)
          = (m <=? Middleware.requests_per_minute self)
            && (h <=? Middleware.requests_per_hour self))
    /\ (forall m h ra rm rh,
          Middleware.verdict_at self m h = Middleware.TooManyRequests ra rm rh ->
          ra = if m <=? Middleware.requests_per_minute self then 3600 else 60)
    /\ (forall t,
          Spec.in_window t0 3600 t ->
          Middleware.counter t cs ("hour:" +:+ Middleware.identifier request)
          = Z.of_nat (S (length ts)))
    /\ (forall t,
          t0 + 60 <= t < t0 + 3600 ->
          fst (Middleware.dispatch self t cs request)
          = Middleware.verdict_at self 1 (Z.of_nat (S (length ts)) + 1)).
Proof.
  intros Hcounted Hfm Hfh Hts.
  destruct (dispatch_step t0 r 0 (t0 + 60) 0 (t0 + 3600) Hcounted
              (or_introl (conj eq_refl (conj Hfm eq_refl)))
              (or_introl (conj eq_refl (conj Hfh eq_refl))))
    as (r1 & E1 & Hcm1 & Hch1).
  destruct (dispatch_all_counting ts r1 1 (t0 + 60) 1 (t0 + 3600) Hcounted
              ltac:(lia) Hcm1 ltac:(lia) Hch1)
    as (vs & r2 & E2 & Hlen & Hnth & Hcm2 & Hch2).
  { eapply List.Forall_impl; [| exact Hts]. unfold Spec.in_window. simpl. lia. }
  exists (Middleware.verdict_at self 1 1 :: vs), (Some r2).
  cbn [map Middleware.dispatch_all]. rewrite E1, E2.
  split; [reflexivity |]. split; [simpl; now rewrite Hlen |].
  split.
  { intros [|i] Hi; cbn [nth]; [reflexivity |].
    rewrite Hnth by lia. f_equal; lia. }
  split.
  { intros m h. unfold Middleware.verdict_at.
    destruct (m <=? Middleware.requests_per_minute self),
      (h <=? Middleware.requests_per_hour self); reflexivity. }
  split.
  { intros m h ra rm rh. unfold Middleware.verdict_at.
    destruct ((m <=? Middleware.requests_per_minute self)
              && (h <=? Middleware.requests_per_hour self)); [discriminate |].
    intros H. now injection H as <- _ _. }
  replace (1 + Z.of_nat (length ts)) with (Z.of_nat (S (length ts))) in Hcm2, Hch2 by lia.
  split.
  - intros t [Ht0 Ht]. unfold Middleware.counter, Redis.live. fold hour_key.
    unfold Spec.counting in Hch2. rewrite Hch2. unfold Redis.expired. simpl.
    destruct (Z.leb_spec (t0 + 3600) t); [lia | reflexivity].
  - intros t [Ht0 Ht].
    destruct (dispatch_step t r2 0 (t + 60) (Z.of_nat (S (length ts))) (t0 + 3600)
                Hcounted) as (r3 & E3 & _).
    + left. split; [reflexivity |]. split; [| reflexivity].
      unfold Redis.live. unfold Spec.counting in Hcm2. rewrite Hcm2.
      unfold Redis.expired. simpl.
      destruct (Z.leb_spec (t0 + 60) t); [reflexivity | lia].
    + right. split; [lia |]. split; [exact Hch2 | lia].
    + rewrite E3. reflexivity.
Qed.

End MiddlewareCounts.

Lemma rate_limit_counter_without_expiry_witness :
  exists answers r',
    Cache.check_rate_limit_calls [10; 5000]
      (Some {| Redis.store :=
                 {[ Cache.ratelimit_key "client" :=
                      {| Redis.held := Redis.VInt 3; Redis.expires_at := None |} ]};
               Redis.served := [] |})
      "client" 3 60
    = (answers, Some r')
    /\ Forall (fun a => a = (false, 0)) answers.
Proof.
  destruct (rate_limit_counter_without_expiry "client" 3 60 [10; 5000]
              {| Redis.store :=
                   {[ Cache.ratelimit_key "client" :=
                        {| Redis.held := Redis.VInt 3; Redis.expires_at := None |} ]};
                 Redis.served := [] |} 3)
    as (answers & r' & E & _ & _ & _ & Hd).
  - lia.
  - vm_compute. reflexivity.
  - exists answers, r'. split; [exact E | apply Hd; lia].
Defined.

Lemma dispatch_counts_every_request_witness :
  exists verdicts cs,
    Middleware.dispatch_all Middleware.installed (Some Redis.empty)
      (map (fun t => (t, {| Middleware.path := "/api/chat";
                            Middleware.client_host := Some "10.0.0.1";
                            Middleware.x_session_id := None |}))
           [0; 1; 2])
    = (verdicts, cs)
    /\ length verdicts = 3%nat.
Proof.
  destruct (dispatch_counts_every_request Middleware.installed
              {| Middleware.path := "/api/chat";
                 Middleware.client_host := Some "10.0.0.1";
                 Middleware.x_session_id := None |}
              0 [1; 2] Redis.empty)
    as (verdicts & cs & E & Hlen & _).
  - vm_compute. reflexivity.
  - vm_compute. reflexivity.
  - vm_compute. reflexivity.
  - repeat constructor; unfold Spec.in_window; lia.
  - exists verdicts, cs. split; [exact E | exact Hlen].
Defined.

(** ** What the chat service stores *)

Section ChatService.

#[local] Arguments String.append !_ _ / : simpl nomatch.

Lemma data_nested_ind (P : Chat.data -> Prop) :
  P Chat.DNone ->
  (forall items, Forall (fun kv => P (snd kv)) items -> P (Chat.DDict items)) ->
  (forall items, Forall P items -> P (Chat.DList items)) ->
  (forall x, P (Chat.DFloat x)) ->
  (forall b, P (Chat.DBool b)) ->
  (forall z, P (Chat.DInt z)) ->
  (forall s, P (Chat.DStr s)) ->
  (forall items, P (Chat.DTuple items)) ->
  forall d, P d.
Proof.
  intros HNone HDict HList HFloat HBool HInt HStr HTuple.
  fix IH 1. intros [|items|items|x|b|z|s|items].
  - exact HNone.
  - apply HDict.
    exact ((fix go (l : list (string * Chat.data)) : Forall (fun kv => P (snd kv)) l :=
              match l with
              | [] => @List.Forall_nil _ _
              | kv :: l' => @List.Forall_cons _ _ kv l' (IH (snd kv)) (go l')
              end) items).
  - apply HList.
    exact ((fix go (l : list Chat.data) : Forall P l :=
              match l with
              | [] => @List.Forall_nil _ _
              | x :: l' => @List.Forall_cons _ _ x l' (IH x) (go l')
              end) items).
  - apply HFloat.
  - apply HBool.
  - apply HInt.
  - apply HStr.
  - apply HTuple.
Qed.

Lemma map_fixed {A} (f : A -> A) (l : list A) :
  Forall (fun x => f x = x) l -> map f l = l.
Proof. induction 1 as [|x l Hx _ IH]; simpl; [reflexivity | now rewrite Hx, IH]. Qed.

Lemma sanitize_safe (d : Chat.data) :
  Chat.json_safe (Chat._sanitize_json_data d) = true.
Proof.
  induction d as [|items IH|items IH|x|b|z|s|items] using data_nested_ind;
    try reflexivity.
  - simpl. rewrite forallb_forall. intros [k v] Hin.
    apply in_map_iff in Hin as ([k' v'] & E & Hin). injection E as <- <-.
    rewrite List.Forall_forall in IH. exact (IH _ Hin).
  - simpl. rewrite forallb_forall. intros v Hin.
    apply in_map_iff in Hin as (v' & <- & Hin).
    rewrite List.Forall_forall in IH. exact (IH _ Hin).
  - simpl. destruct x; reflexivity.
Qed.

Lemma sanitize_fixed (d : Chat.data) :
  Chat.json_safe d = true -> Chat._sanitize_json_data d = d.
Proof.
  induction d as [|items IH|items IH|x|b|z|s|items] using data_nested_ind;
    try reflexivity.
  - simpl. intros H. f_equal. rewrite forallb_forall in H.
    rewrite List.Forall_forall in IH.
    transitivity (map (fun kv : string * Chat.data => kv) items);
      [| apply map_id].
    apply map_ext_in. intros [k v] Hin. f_equal.
    exact (IH _ Hin (H _ Hin)).
  - simpl. intros H. f_equal. rewrite forallb_forall in H.
    rewrite List.Forall_forall in IH.
    apply map_fixed. apply List.Forall_forall. intros v Hin.
    exact (IH _ Hin (H _ Hin)).
  - simpl. destruct x; [reflexivity | discriminate | discriminate].
Qed.

Lemma sanitize_shape (d : Chat.data) :
  Chat.shape (Chat._sanitize_json_data d) = Chat.shape d.
Proof.
  induction d as [|items IH|items IH|x|b|z|s|items] using data_nested_ind;
    try reflexivity.
  - simpl. f_equal. rewrite map_map. rewrite List.Forall_forall in IH.
    apply map_ext_in. intros [k v] Hin. f_equal. exact (IH _ Hin).
  - simpl. f_equal. rewrite map_map. rewrite List.Forall_forall in IH.
    apply map_ext_in. intros v Hin. exact (IH _ Hin).
  - simpl. destruct x; reflexivity.
Qed.

(** X24.  What [_sanitize_json_data] returns holds no [nan] and no
    infinity anywhere inside its dictionaries and lists; the function
    changes floats only, turning exactly the [nan]s and the infinities
    into [None], so that keys, order and lengths are kept; it leaves a
    value without such floats as it is, and applying it twice is
    applying it once.  It does not look into tuples. *)
Theorem sanitize_json_data_removes_nan (d : Chat.data) :
  Chat.json_safe (Chat._sanitize_json_data d) = true
  /\ Chat.shape (Chat._sanitize_json_data d) = Chat.shape d
  /\ (Chat.json_safe d = true <-> Chat._sanitize_json_data d = d)
  /\ Chat._sanitize_json_data (Chat._sanitize_json_data d)
     = Chat._sanitize_json_data d
  /\ (forall items, Chat._sanitize_json_data (Chat.DTuple items) = Chat.DTuple items).
Proof.
  split; [apply sanitize_safe |]. split; [apply sanitize_shape |].
  split.
  - split; [apply sanitize_fixed |]. intros E. rewrite <- E. apply sanitize_safe.
  - split; [apply sanitize_fixed, sanitize_safe | reflexivity].
Qed.

Lemma lower_ascii_idempotent (c : ascii) : lower_ascii (lower_ascii c) = lower_ascii c.
Proof.
  destruct c as [[] [] [] [] [] [] [] []]; vm_compute; reflexivity.
Qed.

Lemma lower_idempotent (s : string) : lower (lower s) = lower s.
Proof.
  induction s as [|c s IH]; simpl; [reflexivity |].
  now rewrite lower_ascii_idempotent, IH.
Qed.

Lemma split_first_char (x : ascii) (a b : string) :
  ~ Spec.occurs (String x EmptyString) a ->
  Text.split_first (String x EmptyString) (a +:+ String x b) = Some (a, b).
Proof.
  induction a as [|c a IH]; intros Hno.
  - simpl. now rewrite Ascii.eqb_refl.
  - change (String c a +:+ String x b) with (String c (a +:+ String x b)).
    cbn [Text.split_first starts_with].
    destruct (Ascii.eqb_spec x c) as [-> | Hxc].
    + exfalso. apply Hno. now exists EmptyString, a.
    + cbn [andb]. rewrite IH; [reflexivity |].
      intros (pre & post & E). apply Hno. exists (String c pre), post.
      simpl. now rewrite E.
Qed.

Lemma parse_intent_text (s : string) :
  s <> EmptyString ->
  ~ Spec.occurs "|" s ->
  Chat._parse_intent (Some s)
  = if existsb (String.eqb (lower s)) Chat.valid_intents
    then Some (lower s) else None.
Proof.
  intros Hne Hno. unfold Chat._parse_intent.
  destruct s as [|c s]; [now destruct Hne |]. cbn [truthy_opt_str truthy_str negb from_option id].
  destruct (contains "|" (String c s)) eqn:Hc; [| reflexivity].
  apply contains_occurs in Hc. contradiction.
Qed.

Lemma valid_intents_fixed (i : string) :
  In i Chat.valid_intents -> Chat._parse_intent (Some i) = Some i.
Proof.
  intros H. repeat (destruct H as [<- | H]; [vm_compute; reflexivity |]).
  destruct H.
Qed.

Lemma parse_intent_in (v : option string) (i : string) :
  Chat._parse_intent v = Some i -> In i Chat.valid_intents.
Proof.
  unfold Chat._parse_intent.
  destruct (negb (truthy_opt_str v)); [discriminate |].
  match goal with
  | |- (if existsb (String.eqb ?x) _ then _ else _) = _ -> _ =>
      destruct (existsb (String.eqb x) Chat.valid_intents) eqn:E; [| discriminate];
      intros H; injection H as <-;
      apply existsb_exists in E as (y & Hin & Hy);
      apply String.eqb_eq in Hy as ->; exact Hin
  end.
Qed.

(** X25.  [_parse_intent] returns [None] or one of the seven known
    intents, in lower case, and hands a known intent back as it is, so
    that parsing twice is parsing once.  Letter case does not matter.
    Of alternatives separated by [|] only the first counts, with the
    whitespace around it dropped; without a [|] whitespace is not
    dropped, and the text is then not recognised. *)
Theorem parse_intent_known (v : option string) :
  (forall i, Chat._parse_intent v = Some i -> In i Chat.valid_intents)
  /\ (forall i, In i Chat.valid_intents -> Chat._parse_intent (Some i) = Some i)
  /\ Chat._parse_intent (Chat._parse_intent v) = Chat._parse_intent v
  /\ (forall s,
        s <> EmptyString -> ~ Spec.occurs "|" s ->
        Chat._parse_intent (Some s) = Chat._parse_intent (Some (lower s)))
  /\ (forall first rest,
        ~ Spec.occurs "|" first ->
        Chat._parse_intent (Some (first +:+ "|" +:+ rest))
        = Chat._parse_intent (Some (Text.strip first)))
  /\ Chat._parse_intent (Some "trend ") = None
  /\ Chat._parse_intent (Some "trend |compare") = Some "trend".
Proof.
  split; [exact (parse_intent_in v) |].
  split; [exact valid_intents_fixed |].
  split.
  { destruct (Chat._parse_intent v) as [i|] eqn:E; [| reflexivity].
    apply valid_intents_fixed. exact (parse_intent_in v i E). }
  split.
  { intros s Hne Hno.
    assert (Hne' : lower s <> EmptyString) by (destruct s; [now destruct Hne | discriminate]).
    assert (Hno' : ~ Spec.occurs "|" (lower s)).
    { intros H. apply Hno. apply contains_occurs. apply contains_occurs in H.
      clear - H. induction s as [|c s IH]; [exact H |].
      simpl in H |- *. apply orb_true_iff in H as [H | H].
      - apply orb_true_iff. left. revert H. clear.
        destruct c as [[] [] [] [] [] [] [] []]; vm_compute; intros H;
          first [reflexivity | discriminate].
      - apply orb_true_iff. right. now apply IH. }
    rewrite (parse_intent_text s Hne Hno), (parse_intent_text _ Hne' Hno').
    now rewrite lower_idempotent. }
  split.
  { intros first rest Hno.
    assert (Hstrip : ~ Spec.occurs "|" (Text.strip first))
      by (intros H; apply Hno; exact (strip_occurs _ _ H)).
    unfold Chat._parse_intent at 1.
    assert (Ht : truthy_opt_str (Some (first +:+ "|" +:+ rest)) = true)
      by (destruct first; reflexivity).
    rewrite Ht. cbn [negb from_option id].
    assert (Hc : contains "|" (first +:+ "|" +:+ rest) = true)
      by (apply contains_occurs; now exists first, rest).
    rewrite Hc.
    change (first +:+ "|" +:+ rest) with (first +:+ String "|"%char rest).
    rewrite (split_first_char "|"%char first rest Hno).
    destruct (Text.strip first) as [|c s] eqn:Es.
    - reflexivity.
    - assert (Hcs : String c s <> EmptyString) by discriminate.
      now rewrite (parse_intent_text _ Hcs Hstrip). }
  split; vm_compute; reflexivity.
Qed.

End ChatService.

(** ** When alignment runs *)

Section AlignmentGuard.

#[local] Arguments String.append !_ _ / : simpl nomatch.

Import Graph.

Lemma next_to_align_timeseries (n : Node.t) (st : GraphState) :
  next n st = Ok (Goto Node.align_timeseries) ->
  n = Node.plan_analysis
  /\ Timeseries.is_cross_or_temporal (operation_type st) = true
  /\ exists p, plan st = Some (PlanDict p) /\ time_alignment_needed p = true.
Proof.
  destruct n; try (unfold next; simpl; intros H; discriminate).
  - unfold next. cbn [build_graph]. unfold should_align_timeseries.
    unfold Timeseries.is_cross_or_temporal.
    destruct (operation_type st) as [ot|]; [| simpl; discriminate].
    destruct (String.eqb ot "cross_table" || String.eqb ot "temporal");
      [| simpl; discriminate].
    destruct (plan st) as [[p | type_name]|]; try discriminate.
    destruct (time_alignment_needed p) eqn:Hp; [| simpl; discriminate].
    intros _. split; [reflexivity |]. split; [reflexivity |]. now exists p.
  - rewrite next_validate_code. intros H.
    destruct (code_valid st); [discriminate |].
    destruct (retry_count st <? 2); discriminate.
  - intros H. apply next_execute_code in H as (r & _ & H).
    destruct (success r); discriminate.
Qed.

(** X26.  [align_timeseries] runs only right after [plan_analysis], on
    a state whose operation type is [cross_table] or [temporal] and
    whose plan asks for time alignment.  Its own test of the operation
    type therefore never fires in the workflow: it consults the
    language model exactly when two or more of the available files are
    selected, appends an error to [errors] only if that call fails, and
    hands over to [generate_code] in every case. *)
Theorem align_timeseries_reached (h : list Node.t) (st : GraphState) :
  Flow.trace h Node.align_timeseries st ->
  last h = Some Node.plan_analysis
  /\ Timeseries.is_cross_or_temporal (operation_type st) = true
  /\ (exists p, plan st = Some (PlanDict p) /\ time_alignment_needed p = true)
  /\ (forall reply,
        next Node.align_timeseries
             (merge st (Timeseries.align_timeseries reply st))
        = Ok (Goto Node.generate_code)
        /\ errors (merge st (Timeseries.align_timeseries reply st))
           = errors st
             ++ (if (length (Timeseries.selected_files st) <? 2)%nat then []
                 else match reply with
                      | Timeseries.Aligned => []
                      | Timeseries.AlignFailed msg => ["Alignment error: " +:+ msg]
                      end)).
Proof.
  intros (st0 & _ & H).
  inversion H as [E1 E2 | h0 m st1 st' n0 Ht Hs Hn E1 E2 E3].
  subst. destruct (next_to_align_timeseries _ _ Hn) as (-> & Hop & Hplan).
  split; [apply last_snoc |]. split; [exact Hop |]. split; [exact Hplan |].
  intros reply. split; [reflexivity |].
  rewrite merge_errors. unfold Timeseries.align_timeseries. rewrite Hop.
  cbn [negb].
  destruct (length (Timeseries.selected_files st) <? 2)%nat; [reflexivity |].
  destruct reply; reflexivity.
Qed.

End AlignmentGuard.

Lemma sample_align_trace :
  Flow.trace SampleAlign.path Node.align_timeseries SampleAlign.a5.
Proof.
  exists SampleAlign.a0. split; [apply starts_at |].
  pose proof (Flow.trace_start SampleAlign.a0) as T.
  apply (Flow.trace_step _ _ _ _ SampleAlign.a1 Node.parse_files) in T;
    [| apply Flow.step_ingest_query | vm_compute; reflexivity].
  apply (Flow.trace_step _ _ _ _ SampleAlign.a2 Node.retrieve_context) in T;
    [| apply Flow.step_parse_files | vm_compute; reflexivity].
  apply (Flow.trace_step _ _ _ _ SampleAlign.a3 Node.analyze_intent) in T;
    [| apply Flow.step_retrieve_context | vm_compute; reflexivity].
  apply (Flow.trace_step _ _ _ _ SampleAlign.a4 Node.plan_analysis) in T;
    [| apply (Flow.step_analyze_intent _
                (Planning.Parsed (Some "compare") (Some "cross_table")
                   (Some ["sales_nov_2024.csv"; "sales_dec_2024.csv"])));
       vm_compute; reflexivity
     | vm_compute; reflexivity].
  apply (Flow.trace_step _ _ _ _ SampleAlign.a5 Node.align_timeseries) in T;
    [| apply (Flow.step_plan_analysis _
                (Plans.PlanParsed
                   (Some (PlanDict {| time_alignment_needed := true |}))));
       vm_compute; reflexivity
     | vm_compute; reflexivity].
  exact T.
Qed.

Lemma align_timeseries_reached_witness :
  last SampleAlign.path = Some Node.plan_analysis
  /\ Timeseries.is_cross_or_temporal (operation_type SampleAlign.a5) = true.
Proof.
  destruct (align_timeseries_reached SampleAlign.path SampleAlign.a5
              sample_align_trace) as (Hl & Hop & _).
  split; [exact Hl | exact Hop].
Defined.

Lemma explain_result_returns_witness :
  exists u,
    Explanation.explain_result (Explanation.Explained SampleFlow.reply_text)
      SampleFlow.s9 = Ok u
    /\ explanation (merge SampleFlow.s9 u)
       = Some "Revenue is up in both regions."
    /\ recommendations (merge SampleFlow.s9 u)
       = ["Keep the current pricing"; "Review the southern stock"].
Proof.
  destruct (explain_result_returns (Explanation.Explained SampleFlow.reply_text)
              SampleFlow.s9
              {| success := true; error := None; traceback := None;
                 execution_time_ms := Some (Code.elapsed_ms 10 (21 # 2)) |})
    as (_ & Hret).
  - reflexivity.
  - destruct Hret as (u & e & Hu & He & _).
    + right. right. discriminate.
    + exists u. split; [exact Hu |].
      vm_compute in Hu. injection Hu as <-.
      split; vm_compute; reflexivity.
Defined.
